(** * Starbase astrological core: a shallow embedding and its properties

    The embedding follows the TypeScript sources of the computation core:
    [ephemeris] (Julian day, angle normalisation, body positions, houses),
    [aspects] (pair-angle detection and scoring), [natal-chart] (house
    assignment, signs, dignities, tallies), [progressions] (day-for-year
    scale, lunar phase), [profections] (the twelve-year cycle of houses),
    [influence-factors] (the scoring pipeline), and the helpers of
    [daily-forecast] and [data-processor] that the pipeline's callers use
    (the phase of the Moon, the deduplication of factors).

    A JavaScript [number] is read as a real number: arithmetic is exact,
    [Math.floor] is [Int_part], the remainder operator [%] truncates
    towards zero, and the trigonometric functions are those of the
    real-number library.  Division is the total division of that library;
    no property below depends on a quotient with a zero denominator.  NaN
    is modelled where the code meets it on finite inputs: a field read from
    a member that has none, the square root of a negative number, the
    Invalid Date.  Rounding, overflow and the NaN of an overflowing sum are
    outside the real numbers; the functions in which they decide the
    result at an ordinary input are given a second time over the binary64
    numbers, in the module [Binary64].  A property that is stated for
    whatever a function returns says nothing of the inputs for which the
    function throws.

    A union of string literals ([PlanetId], [ZodiacId], [AspectId]) is an
    enumeration, and an object used as a lookup table is a function of its
    key; for the table of orbital elements, whose key is whatever string a
    caller passes, the members every object inherits are part of the
    lookup. *)

From Stdlib Require Import Floats.
From Stdlib Require Import Reals Lra Lia ZArith List String Bool.
From Stdlib Require Import DecimalString Permutation Sorted.
Import ListNotations.
Open Scope R_scope.
Set Warnings "-inexact-float".

(* ================================================================== *)
(** * Part I: definitions *)
(* ================================================================== *)

(** ** JavaScript numeric primitives *)

(** [Math.floor], as an integer. *)
Definition Math_floor (x : R) : Z := Int_part x.

(** Truncation towards zero, the rounding used by [%] and by [new Date]. *)
Definition Math_trunc (x : R) : Z :=
  if Rle_dec 0 x then Int_part x else (- Int_part (- x))%Z.

(** [x % y]: the remainder has the sign of the dividend. *)
Definition js_rem (x y : R) : R :=
  x - y * IZR (Math_trunc (x / y)).

Definition Math_abs (x : R) : R := Rabs x.
Definition Math_max (x y : R) : R := Rmax x y.
Definition Math_min (x y : R) : R := Rmin x y.

(** Boolean comparisons, as the code branches on them. *)
Definition ltb (x y : R) : bool := if Rlt_dec x y then true else false.
Definition leb (x y : R) : bool := if Rle_dec x y then true else false.
Definition gtb (x y : R) : bool := ltb y x.
Definition geb (x y : R) : bool := leb y x.
Definition neqb (x y : R) : bool := if Req_dec_T x y then false else true.

(** [Math.atan2 y x], by quadrant. *)
Definition Math_atan2 (y x : R) : R :=
  if Rlt_dec 0 x then atan (y / x)
  else if Rlt_dec x 0 then
         (if Rle_dec 0 y then atan (y / x) + PI else atan (y / x) - PI)
  else if Rlt_dec 0 y then PI / 2
  else if Rlt_dec y 0 then - (PI / 2)
  else 0.

(** ** ephemeris: constants and angle arithmetic *)

Definition DEG_TO_RAD : R := PI / 180.
Definition RAD_TO_DEG : R := 180 / PI.
Definition J2000 : R := 2451545.0.

(** [normalizeAngle]: [angle % 360], plus 360 when negative.  Over the
    real numbers the result is below 360; the rounded sum of the code can
    be 360 itself ([Binary64.normalizeAngle]). *)
Definition normalizeAngle (angle : R) : R :=
  let result := js_rem angle 360 in
  if Rlt_dec result 0 then result + 360 else result.

(** [angleDifference]: shortest distance between two angles. *)
Definition angleDifference (angle1 angle2 : R) : R :=
  let diff := normalizeAngle angle1 - normalizeAngle angle2 in
  let diff := if Rlt_dec 180 diff then diff - 360 else diff in
  let diff := if Rlt_dec diff (-180) then diff + 360 else diff in
  Math_abs diff.

(** ** Date: the time value and its UTC getters

    A [Date] is its time value, integer milliseconds since the epoch; the
    UTC getters follow the ECMAScript day and calendar arithmetic. *)

Record Date := mkDate { getTime : Z }.

Definition msPerDay : Z := 86400000.

Definition Day (t : Z) : Z := (t / msPerDay)%Z.
Definition TimeWithinDay (t : Z) : Z := (t mod msPerDay)%Z.

(** Year, month (1-12) and day of month of a day number counted from the
    epoch, in the proleptic Gregorian calendar. *)
Definition civilFromDays (days : Z) : Z * Z * Z :=
  (let z := days + 719468 in
   let era := z / 146097 in
   let doe := z - era * 146097 in
   let yoe := (doe - doe / 1460 + doe / 36524 - doe / 146096) / 365 in
   let y := yoe + era * 400 in
   let doy := doe - (365 * yoe + yoe / 4 - yoe / 100) in
   let mp := (5 * doy + 2) / 153 in
   let d := doy - (153 * mp + 2) / 5 + 1 in
   let m := if mp <? 10 then mp + 3 else mp - 9 in
   (if m <=? 2 then y + 1 else y, m, d))%Z.

Definition getUTCFullYear (d : Date) : Z :=
  let '(y, _, _) := civilFromDays (Day (getTime d)) in y.
Definition getUTCMonth (d : Date) : Z :=
  let '(_, m, _) := civilFromDays (Day (getTime d)) in (m - 1)%Z.
Definition getUTCDate (d : Date) : Z :=
  let '(_, _, dd) := civilFromDays (Day (getTime d)) in dd.
Definition getUTCHours (d : Date) : Z := (TimeWithinDay (getTime d) / 3600000)%Z.
Definition getUTCMinutes (d : Date) : Z := ((TimeWithinDay (getTime d) / 60000) mod 60)%Z.
Definition getUTCSeconds (d : Date) : Z := ((TimeWithinDay (getTime d) / 1000) mod 60)%Z.

(** A [Date] object as a caller can pass it: one with a time value, or
    the Invalid Date, whose time value and getters are NaN. *)
Inductive DateValue :=
| ValidDate (date : Date)
| InvalidDate.

(** [new Date(t)] for a numeric time value: the fraction is dropped. *)
Definition newDate (t : R) : Date := mkDate (Math_trunc t).

(** ** ephemeris: Julian day *)

Definition dateToJulianDay (date : Date) : R :=
  let year := IZR (getUTCFullYear date) in
  let month := IZR (getUTCMonth date) + 1 in
  let day := IZR (getUTCDate date)
             + IZR (getUTCHours date) / 24
             + IZR (getUTCMinutes date) / 1440
             + IZR (getUTCSeconds date) / 86400 in
  let y := if Rle_dec month 2 then year - 1 else year in
  let m := if Rle_dec month 2 then month + 12 else month in
  let A := IZR (Math_floor (y / 100)) in
  let B := 2 - A + IZR (Math_floor (A / 4)) in
  IZR (Math_floor (365.25 * (y + 4716)))
  + IZR (Math_floor (30.6001 * (m + 1)))
  + day + B - 1524.5.

(** 2000-01-01T12:00:00Z as a time value. *)
Definition instant_J2000 : Date := mkDate 946728000000.

(** ** ephemeris: positions *)

Record EclipticPosition := mkPosition {
  longitude : R;
  latitude : R;
  distance : R
}.

Record Vec3 := mkVec3 { vx : R; vy : R; vz : R }.

Record OrbitalElements := mkElements {
  el_a : R; el_e : R; el_i : R; el_L : R; el_w : R; el_O : R;
  el_aRate : R; el_eRate : R; el_iRate : R;
  el_LRate : R; el_wRate : R; el_ORate : R
}.

Definition elements_mercury : OrbitalElements :=
  mkElements 0.38709927 0.20563593 7.00497902 252.25032350 77.45779628 48.33076593
             0.00000037 0.00001906 (-0.00594749) 149472.67411175 0.16047689 (-0.12534081).
Definition elements_venus : OrbitalElements :=
  mkElements 0.72333566 0.00677672 3.39467605 181.97909950 131.60246718 76.67984255
             0.00000390 (-0.00004107) (-0.00078890) 58517.81538729 0.00268329 (-0.27769418).
Definition elements_earth : OrbitalElements :=
  mkElements 1.00000261 0.01671123 (-0.00001531) 100.46457166 102.93768193 0.0
             0.00000562 (-0.00004392) (-0.01294668) 35999.37244981 0.32327364 0.0.
Definition elements_mars : OrbitalElements :=
  mkElements 1.52371034 0.09339410 1.84969142 (-4.55343205) (-23.94362959) 49.55953891
             0.00001847 0.00007882 (-0.00813131) 19140.30268499 0.44441088 (-0.29257343).
Definition elements_jupiter : OrbitalElements :=
  mkElements 5.20288700 0.04838624 1.30439695 34.39644051 14.72847983 100.47390909
             (-0.00011607) (-0.00013253) (-0.00183714) 3034.74612775 0.21252668 0.20469106.
Definition elements_saturn : OrbitalElements :=
  mkElements 9.53667594 0.05386179 2.48599187 49.95424423 92.59887831 113.66242448
             (-0.00125060) (-0.00050991) 0.00193609 1222.49362201 (-0.41897216) (-0.28867794).
Definition elements_uranus : OrbitalElements :=
  mkElements 19.18916464 0.04725744 0.77263783 313.23810451 170.95427630 74.01692503
             (-0.00196176) (-0.00004397) (-0.00242939) 428.48202785 0.40805281 0.04240589.
Definition elements_neptune : OrbitalElements :=
  mkElements 30.06992276 0.00859048 1.77004347 (-55.12002969) 44.96476227 131.78422574
             0.00026291 0.00005105 0.00035372 218.45945325 (-0.32241464) (-0.00508664).
Definition elements_pluto : OrbitalElements :=
  mkElements 39.48211675 0.24882730 17.14001206 238.92903833 224.06891629 110.30393684
             (-0.00031596) 0.00005170 0.00004818 145.20780515 (-0.04062942) (-0.01183482).

(** What the property read [ORBITAL_ELEMENTS[planetId]] yields: an entry
    of the table, a member that every object literal inherits (truthy, with
    none of the element fields), or [undefined]. *)
Inductive TableLookup :=
| Entry (e : OrbitalElements)
| InheritedMember
| Undefined.

Definition Object_prototype_names : list string :=
  ["constructor"; "hasOwnProperty"; "isPrototypeOf"; "propertyIsEnumerable";
   "toLocaleString"; "toString"; "valueOf"; "__proto__";
   "__defineGetter__"; "__defineSetter__"; "__lookupGetter__"; "__lookupSetter__"]%string.

Definition ORBITAL_ELEMENTS_own : list (string * OrbitalElements) :=
  [("mercury", elements_mercury); ("venus", elements_venus);
   ("earth", elements_earth); ("mars", elements_mars);
   ("jupiter", elements_jupiter); ("saturn", elements_saturn);
   ("uranus", elements_uranus); ("neptune", elements_neptune);
   ("pluto", elements_pluto)]%string.

Fixpoint assoc {A : Type} (k : string) (l : list (string * A)) : option A :=
  match l with
  | [] => None
  | (k', v) :: rest => if String.eqb k k' then Some v else assoc k rest
  end.

Definition mem_string (k : string) (l : list string) : bool :=
  existsb (String.eqb k) l.

Definition ORBITAL_ELEMENTS (planetId : string) : TableLookup :=
  match assoc planetId ORBITAL_ELEMENTS_own with
  | Some e => Entry e
  | None => if mem_string planetId Object_prototype_names
            then InheritedMember else Undefined
  end.

(** Heliocentric position of the Earth, opposite the Sun. *)
Definition calculateHeliocentricEarth (jd : R) : Vec3 :=
  let T := (jd - J2000) / 36525 in
  let L0 := normalizeAngle (280.4664567 + 36000.76983 * T + 0.0003032 * T * T) in
  let M := normalizeAngle (357.5291092 + 35999.0502909 * T) * DEG_TO_RAD in
  let C := (1.9146 - 0.004817 * T) * sin M
           + (0.019993 - 0.000101 * T) * sin (2 * M)
           + 0.00029 * sin (3 * M) in
  let sunLongitude := normalizeAngle (L0 + C) in
  let earthLongitude := normalizeAngle (sunLongitude + 180) in
  let e := 0.016708634 - 0.000042037 * T in
  let v := M + C * DEG_TO_RAD in
  let r := 1.000001018 * (1 - e * e) / (1 + e * cos v) in
  let lonRad := earthLongitude * DEG_TO_RAD in
  mkVec3 (r * cos lonRad) (r * sin lonRad) 0.

Definition calculateSunPosition (jd : R) : EclipticPosition :=
  let T := (jd - J2000) / 36525 in
  let L0 := normalizeAngle (280.4664567 + 36000.76983 * T + 0.0003032 * T * T) in
  let M := normalizeAngle (357.5291092 + 35999.0502909 * T) * DEG_TO_RAD in
  let C := (1.9146 - 0.004817 * T - 0.000014 * T * T) * sin M
           + (0.019993 - 0.000101 * T) * sin (2 * M)
           + 0.00029 * sin (3 * M) in
  let longitude := normalizeAngle (L0 + C) in
  let e := 0.016708634 - 0.000042037 * T in
  let v := M + C * DEG_TO_RAD in
  let distance := 1.000001018 * (1 - e * e) / (1 + e * cos v) in
  mkPosition longitude 0 distance.

Definition calculateMoonPosition (jd : R) : EclipticPosition :=
  let T := (jd - J2000) / 36525 in
  let L := normalizeAngle (218.3164477 + 481267.88123421 * T) in
  let M := normalizeAngle (134.9633964 + 477198.8675055 * T) * DEG_TO_RAD in
  let Ms := normalizeAngle (357.5291092 + 35999.0502909 * T) * DEG_TO_RAD in
  let D := normalizeAngle (297.8501921 + 445267.1114034 * T) * DEG_TO_RAD in
  let F := normalizeAngle (93.2720950 + 483202.0175233 * T) * DEG_TO_RAD in
  let longitude := L
    + 6.289 * sin M
    - 1.274 * sin (2 * D - M)
    + 0.658 * sin (2 * D)
    + 0.214 * sin (2 * M)
    - 0.186 * sin Ms
    - 0.114 * sin (2 * F) in
  let latitude := 5.128 * sin F
    + 0.281 * sin (M + F)
    - 0.278 * sin (F - M)
    - 0.173 * sin (F - 2 * D) in
  let distance := 385000.56 / 6378.14 in
  mkPosition (normalizeAngle longitude) latitude distance.

Definition calculateNorthNodePosition (jd : R) : EclipticPosition :=
  let T := (jd - J2000) / 36525 in
  let O := normalizeAngle (125.0445479 - 1934.1362891 * T) in
  mkPosition O 0 1.

(** The fixed ten passes of [E = M + e * sin E], starting from [E = M]. *)
Definition keplerSolve (M e : R) : R :=
  Nat.iter 10 (fun E => M + e * sin E) M.

Definition calculateChironPosition (jd : R) : EclipticPosition :=
  let T := (jd - J2000) / 36525 in
  let a := 13.648 in
  let e := 0.3814 in
  let i := 6.931 * DEG_TO_RAD in
  let O := 209.35 * DEG_TO_RAD in
  let w := 339.55 * DEG_TO_RAD in
  let n := 0.01953 in
  let M := normalizeAngle (78.0 + n * (jd - J2000)) * DEG_TO_RAD in
  let E := keplerSolve M e in
  let xv := a * (cos E - e) in
  let yv := a * sqrt (1 - e * e) * sin E in
  let v := Math_atan2 yv xv in
  let r := sqrt (xv * xv + yv * yv) in
  let lw := v + w in
  let xh := r * (cos O * cos lw - sin O * sin lw * cos i) in
  let yh := r * (sin O * cos lw + cos O * sin lw * cos i) in
  let zh := r * sin lw * sin i in
  let earthPos := calculateHeliocentricEarth jd in
  let xg := xh - vx earthPos in
  let yg := yh - vy earthPos in
  let zg := zh - vz earthPos in
  mkPosition (normalizeAngle (Math_atan2 yg xg * RAD_TO_DEG))
             (Math_atan2 zg (sqrt (xg * xg + yg * yg)) * RAD_TO_DEG)
             (sqrt (xg * xg + yg * yg + zg * zg)).

(** The general planetary path, for an entry of the table, where the
    radicand of the square root is not negative. *)
Definition keplerianPosition (elements : OrbitalElements) (jd : R) : EclipticPosition :=
  let T := (jd - J2000) / 36525 in
  let a := el_a elements + el_aRate elements * T in
  let e := el_e elements + el_eRate elements * T in
  let i := (el_i elements + el_iRate elements * T) * DEG_TO_RAD in
  let L := normalizeAngle (el_L elements + el_LRate elements * T) in
  let w := normalizeAngle (el_w elements + el_wRate elements * T) in
  let O := normalizeAngle (el_O elements + el_ORate elements * T) in
  let M := normalizeAngle (L - w) * DEG_TO_RAD in
  let E := keplerSolve M e in
  let xv := a * (cos E - e) in
  let yv := a * sqrt (1 - e * e) * sin E in
  let v := Math_atan2 yv xv * RAD_TO_DEG in
  let r := sqrt (xv * xv + yv * yv) in
  let u := normalizeAngle (v + w - O) * DEG_TO_RAD in
  let iRad := i in
  let ORad := O * DEG_TO_RAD in
  let xh := r * (cos ORad * cos u - sin ORad * sin u * cos iRad) in
  let yh := r * (sin ORad * cos u + cos ORad * sin u * cos iRad) in
  let zh := r * sin u * sin iRad in
  let earthPos := calculateHeliocentricEarth jd in
  let xg := xh - vx earthPos in
  let yg := yh - vy earthPos in
  let zg := zh - vz earthPos in
  mkPosition (normalizeAngle (Math_atan2 yg xg * RAD_TO_DEG))
             (Math_atan2 zg (sqrt (xg * xg + yg * yg)) * RAD_TO_DEG)
             (sqrt (xg * xg + yg * yg + zg * zg)).

(** The radicand of [Math.sqrt(1 - e * e)] on the general path, for the
    eccentricity [e] at a Julian day. *)
Definition radicand (elements : OrbitalElements) (jd : R) : R :=
  let T := (jd - J2000) / 36525 in
  let e := el_e elements + el_eRate elements * T in
  1 - e * e.

(** The Julian days of the time values a [Date] can hold: at most
    100,000,000 days either side of the epoch, Julian day 2440587.5. *)
Definition inDateRange (jd : R) : Prop := Rabs (jd - 2440587.5) <= 100000000.

(** How a call of [calculatePlanetPosition] ends: with a position, with a
    record whose three fields are NaN, or with the thrown error and its
    message.  The fields are NaN in two cases.  An inherited member has no
    element field, so every element read is [undefined].  And the square
    root of a negative radicand is NaN, which [yv], [v], [r], the three
    heliocentric and the three geocentric coordinates inherit in turn. *)
Inductive PositionOutcome :=
| Returned (p : EclipticPosition)
| ReturnedNaN
| Thrown (message : string).

Definition calculatePlanetPosition (planetId : string) (jd : R) : PositionOutcome :=
  if String.eqb planetId "sun" then Returned (calculateSunPosition jd)
  else if String.eqb planetId "moon" then Returned (calculateMoonPosition jd)
  else if String.eqb planetId "northNode" then Returned (calculateNorthNodePosition jd)
  else if String.eqb planetId "chiron" then Returned (calculateChironPosition jd)
  else match ORBITAL_ELEMENTS planetId with
       | Undefined => Thrown ("Unknown planet: " ++ planetId)
       | InheritedMember => ReturnedNaN
       | Entry elements =>
           if Rlt_dec (radicand elements jd) 0 then ReturnedNaN
           else Returned (keplerianPosition elements jd)
       end.

(** The recognised body identifiers: the ids of [PLANETS], the values of
    the type [PlanetId]. *)
Definition PlanetId_strings : list string :=
  ["sun"; "moon"; "mercury"; "venus"; "mars"; "jupiter"; "saturn";
   "uranus"; "neptune"; "pluto"; "northNode"; "chiron"]%string.

Definition isPlanetId (planetId : string) : bool :=
  mem_string planetId PlanetId_strings.

(** The error contract read literally: the call throws exactly for the
    identifiers that are not recognised. *)
Definition throwsExactlyOnUnknown (planetId : string) (jd : R) : Prop :=
  (exists message, calculatePlanetPosition planetId jd = Thrown message) <->
  isPlanetId planetId = false.

(** ** ephemeris: sidereal time, ascendant, houses

    The three angles below are real numbers.  Where a denominator of the
    code is zero ([tanAsc] for a zero denominator, the tangent at a right
    angle) the code divides to an infinity and the arc tangent is a right
    angle, which the total division of the reals does not give; and the
    rounded normalisation can end in 360.  The properties below read the
    ascendant and the midheaven of a chart only as the numbers stored in
    it. *)

Definition calculateSiderealTime (jd lon : R) : R :=
  let T := (jd - J2000) / 36525 in
  let GMST := 280.46061837
              + 360.98564736629 * (jd - J2000)
              + 0.000387933 * T * T
              - T * T * T / 38710000 in
  normalizeAngle (GMST + lon).

Definition calculateAscendant (jd lat lon : R) : R :=
  let LST := calculateSiderealTime jd lon in
  let RAMC := LST * DEG_TO_RAD in
  let latRad := lat * DEG_TO_RAD in
  let obliquity := 23.4393 * DEG_TO_RAD in
  let tanAsc := cos RAMC / (- sin RAMC * cos obliquity - tan latRad * sin obliquity) in
  let asc := atan tanAsc * RAD_TO_DEG in
  let asc := if Rlt_dec (cos RAMC) 0 then asc + 180 else asc in
  normalizeAngle asc.

Definition calculateMidheaven (jd lon : R) : R :=
  let LST := calculateSiderealTime jd lon in
  let RAMC := LST * DEG_TO_RAD in
  let obliquity := 23.4393 * DEG_TO_RAD in
  let tanMC := tan RAMC / cos obliquity in
  let mc := atan tanMC * RAD_TO_DEG in
  let mc := if Rlt_dec (PI / 2) RAMC then
              (if Rlt_dec RAMC (3 * PI / 2) then mc + 180 else mc)
            else mc in
  normalizeAngle mc.

(** The loop of [calculateHouseCusps]: the ascendant plus [i * 30],
    normalised, for [i] from 0 to 11. *)
Definition equalHouseCusps (asc : R) : list R :=
  map (fun i => normalizeAngle (asc + INR i * 30)) (seq 0 12).

Definition calculateHouseCusps (jd lat lon : R) : list R :=
  let asc := calculateAscendant jd lat lon in
  equalHouseCusps asc.

(** The arc from cusp [i] forward to the next cusp, and the sum of the
    twelve arcs. *)
Definition arcToNext (cusps : list R) (i : nat) : R :=
  normalizeAngle (nth ((i + 1) mod 12) cusps 0 - nth i cusps 0).

Definition sumOfArcs (cusps : list R) : R :=
  fold_right Rplus 0 (map (arcToNext cusps) (seq 0 12)).

(** ** constants *)

Inductive PlanetId :=
| sun | moon | mercury | venus | mars | jupiter | saturn
| uranus | neptune | pluto | northNode | chiron.

Inductive ZodiacId :=
| aries | taurus | gemini | cancer | leo | virgo
| libra | scorpio | sagittarius | capricorn | aquarius | pisces.

Inductive ElementType := fire | earth | air | water.
Inductive ModalityType := cardinal | fixed | mutable.

Inductive AspectId :=
| conjunction | opposition | trine | square | sextile | quincunx
| semisextile | semisquare | sesquiquadrate | quintile | biquintile.

Scheme Equality for PlanetId.
Scheme Equality for ZodiacId.
Scheme Equality for ElementType.
Scheme Equality for AspectId.

(** The identifier strings behind the union types. *)
Definition PlanetId_string (p : PlanetId) : string :=
  match p with
  | sun => "sun" | moon => "moon" | mercury => "mercury" | venus => "venus"
  | mars => "mars" | jupiter => "jupiter" | saturn => "saturn"
  | uranus => "uranus" | neptune => "neptune" | pluto => "pluto"
  | northNode => "northNode" | chiron => "chiron"
  end.

Definition ZodiacId_string (z : ZodiacId) : string :=
  match z with
  | aries => "aries" | taurus => "taurus" | gemini => "gemini"
  | cancer => "cancer" | leo => "leo" | virgo => "virgo"
  | libra => "libra" | scorpio => "scorpio" | sagittarius => "sagittarius"
  | capricorn => "capricorn" | aquarius => "aquarius" | pisces => "pisces"
  end.

Definition AspectId_string (a : AspectId) : string :=
  match a with
  | conjunction => "conjunction" | opposition => "opposition" | trine => "trine"
  | square => "square" | sextile => "sextile" | quincunx => "quincunx"
  | semisextile => "semisextile" | semisquare => "semisquare"
  | sesquiquadrate => "sesquiquadrate" | quintile => "quintile"
  | biquintile => "biquintile"
  end.

Record ZodiacSign := mkSign {
  sign_id : ZodiacId;
  sign_name : string;
  sign_symbol : string;
  sign_element : ElementType;
  sign_modality : ModalityType;
  sign_ruler : PlanetId;
  sign_degree : R
}.

Definition ZODIAC_SIGNS : list ZodiacSign :=
  [ mkSign aries "白羊座" "♈" fire cardinal mars 0;
    mkSign taurus "金牛座" "♉" earth fixed venus 30;
    mkSign gemini "双子座" "♊" air mutable mercury 60;
    mkSign cancer "巨蟹座" "♋" water cardinal moon 90;
    mkSign leo "狮子座" "♌" fire fixed sun 120;
    mkSign virgo "处女座" "♍" earth mutable mercury 150;
    mkSign libra "天秤座" "♎" air cardinal venus 180;
    mkSign scorpio "天蝎座" "♏" water fixed pluto 210;
    mkSign sagittarius "射手座" "♐" fire mutable jupiter 240;
    mkSign capricorn "摩羯座" "♑" earth cardinal saturn 270;
    mkSign aquarius "水瓶座" "♒" air fixed uranus 300;
    mkSign pisces "双鱼座" "♓" water mutable neptune 330 ].

Record Planet := mkPlanet {
  planet_id : PlanetId;
  planet_name : string;
  planet_symbol : string;
  planet_type : string;
  planet_orbitalPeriod : R;
  planet_color : string
}.

Definition PLANETS : list Planet :=
  [ mkPlanet sun "太阳" "☉" "luminary" 365.25 "#ffd700";
    mkPlanet moon "月亮" "☽" "luminary" 27.32 "#c0c0c0";
    mkPlanet mercury "水星" "☿" "personal" 87.97 "#b5651d";
    mkPlanet venus "金星" "♀" "personal" 224.7 "#ff69b4";
    mkPlanet mars "火星" "♂" "personal" 686.98 "#dc143c";
    mkPlanet jupiter "木星" "♃" "social" 4332.59 "#daa520";
    mkPlanet saturn "土星" "♄" "social" 10759.22 "#8b7355";
    mkPlanet uranus "天王星" "♅" "transpersonal" 30688.5 "#40e0d0";
    mkPlanet neptune "海王星" "♆" "transpersonal" 60182 "#4169e1";
    mkPlanet pluto "冥王星" "♇" "transpersonal" 90560 "#800080";
    mkPlanet northNode "北交点" "☊" "node" 6798.38 "#9370db";
    mkPlanet chiron "凯龙星" "⚷" "asteroid" 18500 "#20b2aa" ].

Record AspectDef := mkAspectDef {
  aspect_id : AspectId;
  aspect_name : string;
  aspect_symbol : string;
  aspect_angle : R;
  aspect_orb : R;
  aspect_nature : string;
  aspect_harmony : string;
  aspect_weight : R
}.

Definition ASPECTS : list AspectDef :=
  [ mkAspectDef conjunction "合相" "☌" 0 10 "major" "neutral" 10;
    mkAspectDef opposition "对冲" "☍" 180 10 "major" "tense" 10;
    mkAspectDef trine "三分" "△" 120 8 "major" "harmonious" 8;
    mkAspectDef square "四分" "□" 90 8 "major" "tense" 8;
    mkAspectDef sextile "六分" "⚹" 60 6 "major" "harmonious" 6;
    mkAspectDef quincunx "梅花" "⚻" 150 3 "minor" "tense" 4;
    mkAspectDef semisextile "半六分" "⚺" 30 2 "minor" "neutral" 2;
    mkAspectDef semisquare "半四分" "∠" 45 2 "minor" "tense" 3;
    mkAspectDef sesquiquadrate "补八分" "⚼" 135 2 "minor" "tense" 3;
    mkAspectDef quintile "五分" "Q" 72 2 "minor" "creative" 3;
    mkAspectDef biquintile "倍五分" "bQ" 144 2 "minor" "creative" 3 ].

Definition PLANET_WEIGHTS (p : PlanetId) : R :=
  match p with
  | sun => 10 | moon => 10
  | mercury => 6 | venus => 6 | mars => 6
  | jupiter => 8 | saturn => 8
  | uranus => 4 | neptune => 4 | pluto => 4
  | northNode => 3 | chiron => 2
  end.

(** [x || d] on numbers: the default replaces a zero. *)
Definition js_or (x d : R) : R := if Req_dec_T x 0 then d else x.

(** [PLANETS.find(p => p.id === id)]. *)
Definition findPlanet (id : PlanetId) : option Planet :=
  find (fun p => PlanetId_beq (planet_id p) id) PLANETS.

(** [ZODIAC_SIGNS.find(s => s.id === id)]. *)
Definition findSign (id : ZodiacId) : option ZodiacSign :=
  find (fun s => ZodiacId_beq (sign_id s) id) ZODIAC_SIGNS.

(** [sort] with the comparator [(a, b) => key(b) - key(a)]: descending by
    key, elements with equal keys keep their order. *)
Fixpoint insert_desc {A : Type} (key : A -> R) (x : A) (l : list A) : list A :=
  match l with
  | [] => [x]
  | y :: rest => if Rlt_dec (key x) (key y) then y :: insert_desc key x rest
                 else x :: l
  end.

Definition sort_desc {A : Type} (key : A -> R) (l : list A) : list A :=
  fold_right (insert_desc key) [] l.

(** ** aspects *)

Record AspectData := mkAspect {
  planet1 : PlanetId;
  planet2 : PlanetId;
  aspectType : AspectId;
  exactAngle : R;
  actualAngle : R;
  orb : R;
  applying : bool;
  strength : R;
  weight : R
}.

Record PlanetPosition := mkPlanetPosition {
  pp_id : PlanetId;
  pp_longitude : R;
  pp_latitude : R;
  pp_speed : option R
}.

Definition detectAspect (p1 p2 : PlanetPosition) (aspectDef : AspectDef)
  : option AspectData :=
  let actualAngle := angleDifference (pp_longitude p1) (pp_longitude p2) in
  let orb := Math_abs (actualAngle - aspect_angle aspectDef) in
  if Rle_dec orb (aspect_orb aspectDef) then
    let strength := 1 - orb / aspect_orb aspectDef in
    let applying :=
      match pp_speed p1, pp_speed p2 with
      | Some speed1, Some speed2 =>
          let relativeSpeed := speed1 - speed2 in
          let diff := normalizeAngle (pp_longitude p2 - pp_longitude p1) in
          (ltb diff 180 && gtb relativeSpeed 0) || (geb diff 180 && ltb relativeSpeed 0)
      | _, _ => true
      end in
    let p1Weight := js_or (PLANET_WEIGHTS (pp_id p1)) 1 in
    let p2Weight := js_or (PLANET_WEIGHTS (pp_id p2)) 1 in
    let weight := strength * aspect_weight aspectDef * (p1Weight + p2Weight) / 20 in
    Some (mkAspect (pp_id p1) (pp_id p2) (aspect_id aspectDef)
                   (aspect_angle aspectDef) actualAngle orb applying strength weight)
  else None.

Definition defaultAspectTypes : list AspectId :=
  [conjunction; opposition; trine; square; sextile].

Definition selectAspects (aspectTypes : list AspectId) : list AspectDef :=
  filter (fun a => existsb (AspectId_beq (aspect_id a)) aspectTypes) ASPECTS.

(** The aspects one pair forms, over the selected definitions. *)
Definition pairAspects (selected : list AspectDef) (a b : PlanetPosition)
  : list AspectData :=
  flat_map (fun aspectDef =>
              match detectAspect a b aspectDef with
              | Some aspect => [aspect]
              | None => []
              end) selected.

Fixpoint allPairs (selected : list AspectDef) (positions : list PlanetPosition)
  : list AspectData :=
  match positions with
  | [] => []
  | p :: rest => flat_map (pairAspects selected p) rest ++ allPairs selected rest
  end.

Definition calculateAllAspects (positions : list PlanetPosition)
  (aspectTypes : list AspectId) : list AspectData :=
  sort_desc weight (allPairs (selectAspects aspectTypes) positions).

Definition calculateTransitAspects (transitPositions natalPositions : list PlanetPosition)
  (aspectTypes : list AspectId) : list AspectData :=
  let selected := selectAspects aspectTypes in
  sort_desc weight
    (flat_map (fun transit => flat_map (pairAspects selected transit) natalPositions)
              transitPositions).

(** The pair-angle geometry of a detected aspect: everything but the
    body pair and the direction flag. *)
Definition sameGeometry (a b : AspectData) : Prop :=
  aspectType a = aspectType b /\ exactAngle a = exactAngle b /\
  actualAngle a = actualAngle b /\ orb a = orb b /\
  strength a = strength b /\ weight a = weight b.

(** Aspect symmetry read literally: both orders detect or both do not,
    with the same geometry, and the direction flag flips. *)
Definition swapFlipsDirection (p1 p2 : PlanetPosition) (aspectDef : AspectDef) : Prop :=
  match detectAspect p1 p2 aspectDef, detectAspect p2 p1 aspectDef with
  | Some a, Some b => sameGeometry a b /\ applying b = negb (applying a)
  | None, None => True
  | _, _ => False
  end.

(** A faster Sun five degrees behind the Moon, and the conjunction. *)
Definition sun_at_0 : PlanetPosition := mkPlanetPosition sun 0 0 (Some 1).
Definition moon_at_5 : PlanetPosition := mkPlanetPosition moon 5 0 (Some 0).
Definition conjunctionDef : AspectDef :=
  mkAspectDef conjunction "合相" "☌" 0 10 "major" "neutral" 10.

(** ** natal-chart *)

(** A call either completes with a value or throws. *)
Inductive Completion (A : Type) :=
| Normal (a : A)
| Throw (message : string).
Arguments Normal {A} a.
Arguments Throw {A} message.

Definition bind {A B : Type} (c : Completion A) (k : A -> Completion B) : Completion B :=
  match c with
  | Normal a => k a
  | Throw m => Throw m
  end.

Fixpoint mapM {A B : Type} (f : A -> Completion B) (l : list A) : Completion (list B) :=
  match l with
  | [] => Normal []
  | x :: rest => bind (f x) (fun y => bind (mapM f rest) (fun ys => Normal (y :: ys)))
  end.

Record BirthData := mkBirthData {
  bd_date : Date;
  bd_latitude : R;
  bd_longitude : R;
  bd_timezone : string;
  bd_name : option string
}.

Record PlanetPlacement := mkPlacement {
  pl_id : PlanetId;
  pl_name : string;
  pl_symbol : string;
  pl_longitude : R;
  pl_latitude : R;
  pl_sign : ZodiacId;
  pl_signName : string;
  pl_signSymbol : string;
  pl_signDegree : R;
  pl_house : Z;
  pl_retrograde : bool;
  pl_dignityScore : R
}.

Record HouseCusp := mkHouseCusp {
  hc_house : Z;
  hc_longitude : R;
  hc_sign : ZodiacId;
  hc_signDegree : R
}.

Record ElementBalance := mkElementBalance {
  bal_fire : R; bal_earth : R; bal_air : R; bal_water : R
}.

Record ModalityBalance := mkModalityBalance {
  bal_cardinal : R; bal_fixed : R; bal_mutable : R
}.

(** The chart record; [patterns], a list of descriptions that none of the
    functions below reads, is left out. *)
Record NatalChart := mkNatalChart {
  birthData : BirthData;
  julianDay : R;
  planets : list PlanetPlacement;
  houses : list HouseCusp;
  ascendant : R;
  midheaven : R;
  aspects : list AspectData;
  elementBalance : ElementBalance;
  modalityBalance : ModalityBalance;
  dominantPlanets : list PlanetId;
  chartRuler : PlanetId
}.

(** [ZODIAC_SIGNS[Math.floor(normalizedLong / 30)]]; [None] is [undefined]. *)
Definition getZodiacSign (lon : R) : option ZodiacSign :=
  let normalizedLong := normalizeAngle lon in
  let signIndex := Math_floor (normalizedLong / 30) in
  if (signIndex <? 0)%Z then None else nth_error ZODIAC_SIGNS (Z.to_nat signIndex).

Definition getSignDegree (lon : R) : R := js_rem (normalizeAngle lon) 30.

(** The test of one pass of the loop of [getHouse]; a comparison with a
    missing cusp is false. *)
Definition inHouse (normalizedLong : R) (houseCusps : list R) (i : nat) : bool :=
  match nth_error houseCusps i, nth_error houseCusps ((i + 1) mod 12) with
  | Some start, Some end_ =>
      if Rlt_dec end_ start
      then geb normalizedLong start || ltb normalizedLong end_
      else geb normalizedLong start && ltb normalizedLong end_
  | _, _ => false
  end.

(** [getHouse]: the first [i] of 0..11 whose test passes gives house
    [i + 1]; house 1 when none does. *)
Definition getHouse (lon : R) (houseCusps : list R) : Z :=
  let normalizedLong := normalizeAngle lon in
  match find (inHouse normalizedLong houseCusps) (seq 0 12) with
  | Some i => (Z.of_nat i + 1)%Z
  | None => 1%Z
  end.

Definition calculateDignity (planetId : PlanetId) (signId : ZodiacId) : R :=
  match planetId, signId with
  | sun, leo => 5 | sun, aries => 4 | sun, aquarius => -5 | sun, libra => -4
  | moon, cancer => 5 | moon, taurus => 4 | moon, capricorn => -5 | moon, scorpio => -4
  | mercury, gemini => 5 | mercury, virgo => 5
  | mercury, sagittarius => -5 | mercury, pisces => -5
  | venus, taurus => 5 | venus, libra => 5 | venus, pisces => 4
  | venus, aries => -5 | venus, scorpio => -5 | venus, virgo => -4
  | mars, aries => 5 | mars, scorpio => 5 | mars, capricorn => 4
  | mars, libra => -5 | mars, taurus => -5 | mars, cancer => -4
  | jupiter, sagittarius => 5 | jupiter, pisces => 5 | jupiter, cancer => 4
  | jupiter, gemini => -5 | jupiter, virgo => -5 | jupiter, capricorn => -4
  | saturn, capricorn => 5 | saturn, aquarius => 5 | saturn, libra => 4
  | saturn, cancer => -5 | saturn, leo => -5 | saturn, aries => -4
  | uranus, aquarius => 5 | uranus, leo => -5
  | neptune, pisces => 5 | neptune, virgo => -5
  | pluto, scorpio => 5 | pluto, taurus => -5
  | _, _ => 0
  end.

(** The body-weights of the element and modality tallies. *)
Definition balanceWeight (p : PlanetId) : R :=
  match p with
  | sun => 4 | moon => 4 | mercury => 3 | venus => 3 | mars => 3
  | jupiter => 2 | saturn => 2 | uranus => 1 | neptune => 1 | pluto => 1
  | _ => 1
  end.

Definition addElement (b : ElementBalance) (e : ElementType) (w : R) : ElementBalance :=
  match e with
  | fire => mkElementBalance (bal_fire b + w) (bal_earth b) (bal_air b) (bal_water b)
  | earth => mkElementBalance (bal_fire b) (bal_earth b + w) (bal_air b) (bal_water b)
  | air => mkElementBalance (bal_fire b) (bal_earth b) (bal_air b + w) (bal_water b)
  | water => mkElementBalance (bal_fire b) (bal_earth b) (bal_air b) (bal_water b + w)
  end.

Definition addModality (b : ModalityBalance) (m : ModalityType) (w : R) : ModalityBalance :=
  match m with
  | cardinal => mkModalityBalance (bal_cardinal b + w) (bal_fixed b) (bal_mutable b)
  | fixed => mkModalityBalance (bal_cardinal b) (bal_fixed b + w) (bal_mutable b)
  | mutable => mkModalityBalance (bal_cardinal b) (bal_fixed b) (bal_mutable b + w)
  end.

(** One pass of the loop over [PLANETS]: the placement and the position
    pushed for a body.  Reading [sign.id] of an [undefined] sign throws. *)
Definition placePlanet (jd : R) (houseCusps : list R) (planet : Planet)
  : Completion (PlanetPlacement * PlanetPosition) :=
  match calculatePlanetPosition (PlanetId_string (planet_id planet)) jd with
  | Thrown message => Throw message
  | ReturnedNaN => Throw "TypeError"
  | Returned pos =>
      match getZodiacSign (longitude pos) with
      | None => Throw "TypeError"
      | Some sign =>
          let house := getHouse (longitude pos) houseCusps in
          let signDegree := getSignDegree (longitude pos) in
          Normal
            (mkPlacement (planet_id planet) (planet_name planet) (planet_symbol planet)
                         (longitude pos) (latitude pos)
                         (sign_id sign) (sign_name sign) (sign_symbol sign)
                         signDegree house false
                         (calculateDignity (planet_id planet) (sign_id sign)),
             mkPlanetPosition (planet_id planet) (longitude pos) (latitude pos) None)
      end
  end.

Definition houseOfCusp (index : nat) (cusp : R) : Completion HouseCusp :=
  match getZodiacSign cusp with
  | None => Throw "TypeError"
  | Some sign =>
      Normal (mkHouseCusp (Z.of_nat index + 1) cusp (sign_id sign) (getSignDegree cusp))
  end.

Definition tallyBalance (placements : list PlanetPlacement)
  : ElementBalance * ModalityBalance :=
  fold_left
    (fun acc planet =>
       match findSign (pl_sign planet) with
       | Some sign =>
           let w := js_or (balanceWeight (pl_id planet)) 1 in
           (addElement (fst acc) (sign_element sign) w,
            addModality (snd acc) (sign_modality sign) w)
       | None => acc
       end)
    placements
    (mkElementBalance 0 0 0 0, mkModalityBalance 0 0 0).

Definition planetScore (aspects : list AspectData) (p : PlanetPlacement) : PlanetId * R :=
  let aspectCount :=
    INR (List.length (filter (fun a => PlanetId_beq (planet1 a) (pl_id p)
                                  || PlanetId_beq (planet2 a) (pl_id p)) aspects)) in
  (pl_id p,
   pl_dignityScore p * 2 + aspectCount + (if (pl_house p <=? 4)%Z then 2 else 0)).

Definition calculateNatalChart (birthData : BirthData) : Completion NatalChart :=
  let jd := dateToJulianDay (bd_date birthData) in
  let houseCusps := calculateHouseCusps jd (bd_latitude birthData) (bd_longitude birthData) in
  let ascendant := calculateAscendant jd (bd_latitude birthData) (bd_longitude birthData) in
  let midheaven := calculateMidheaven jd (bd_longitude birthData) in
  bind (mapM (placePlanet jd houseCusps) PLANETS) (fun placed =>
  let planets := map fst placed in
  let planetPositions := map snd placed in
  bind (mapM (fun ic => houseOfCusp (fst ic) (snd ic))
             (combine (seq 0 (List.length houseCusps)) houseCusps)) (fun houses =>
  let aspects := calculateAllAspects planetPositions defaultAspectTypes in
  let balances := tallyBalance planets in
  let planetScores := sort_desc snd (map (planetScore aspects) planets) in
  let dominantPlanets := map fst (firstn 3 planetScores) in
  match getZodiacSign ascendant with
  | None => Throw "TypeError"
  | Some ascSign =>
      Normal (mkNatalChart birthData jd planets houses ascendant midheaven aspects
                           (fst balances) (snd balances) dominantPlanets
                           (sign_ruler ascSign))
  end)).

(** ** progressions *)

Inductive LunarPhaseId :=
| phase_new | phase_crescent | phase_first_quarter | phase_gibbous
| phase_full | phase_disseminating | phase_last_quarter | phase_balsamic.

Record LunarPhase := mkLunarPhase {
  lp_phase : LunarPhaseId;
  lp_angle : R;
  lp_name : string;
  lp_description : string;
  lp_keywords : list string
}.

Record ProgressedPlanet := mkProgressedPlanet {
  prog_id : PlanetId;
  prog_name : string;
  prog_symbol : string;
  natalLongitude : R;
  progressedLongitude : R;
  movement : R;
  prog_sign : ZodiacId;
  prog_signName : string;
  signChanged : bool;
  prog_house : Z;
  houseChanged : bool
}.

Record ProgressedChart := mkProgressedChart {
  targetDate : Date;
  progressedDate : Date;
  daysProgressed : R;
  yearsFromBirth : R;
  pc_planets : list ProgressedPlanet;
  progressedAscendant : R;
  progressedMidheaven : R;
  pc_aspects : list AspectData;
  lunarPhase : LunarPhase
}.

(** The loop of [getHouseFromLongitude] from pass [i] on; reading
    [longitude] of a missing house throws. *)
Fixpoint houseFromLongitudeLoop (normalizedLong : R) (houses : list HouseCusp)
  (passes : list nat) : Completion Z :=
  match passes with
  | [] => Normal 1%Z
  | i :: rest =>
      match nth_error houses i, nth_error houses ((i + 1) mod 12) with
      | Some startHouse, Some endHouse =>
          let start := hc_longitude startHouse in
          let end_ := hc_longitude endHouse in
          if (if Rlt_dec end_ start
              then geb normalizedLong start || ltb normalizedLong end_
              else geb normalizedLong start && ltb normalizedLong end_)
          then Normal (Z.of_nat i + 1)%Z
          else houseFromLongitudeLoop normalizedLong houses rest
      | _, _ => Throw "TypeError"
      end
  end.

Definition getHouseFromLongitude (lon : R) (natalChart : NatalChart) : Completion Z :=
  houseFromLongitudeLoop (normalizeAngle lon) (houses natalChart) (seq 0 12).

Record PhaseRow := mkPhaseRow {
  row_min : R; row_max : R; row_phase : LunarPhaseId;
  row_name : string; row_description : string; row_keywords : list string
}.

Definition phases : list PhaseRow :=
  [ mkPhaseRow 0 45 phase_new "新月期"
      "新周期的开始，适合播种新意图，内在酝酿" ["新开始"; "潜伏"; "意图设定"];
    mkPhaseRow 45 90 phase_crescent "眉月期"
      "克服惯性，突破旧模式，建立新动力" ["突破"; "挣扎"; "前进"];
    mkPhaseRow 90 135 phase_first_quarter "上弦月期"
      "行动与决策的关键期，需要做出承诺" ["行动"; "决策"; "危机"];
    mkPhaseRow 135 180 phase_gibbous "盈凸月期"
      "精进与完善，为即将到来的高峰做准备" ["完善"; "分析"; "准备"];
    mkPhaseRow 180 225 phase_full "满月期"
      "觉醒与照见，关系与事业的高潮与收获" ["高峰"; "照见"; "收获"];
    mkPhaseRow 225 270 phase_disseminating "播散月期"
      "分享与传播，将所学传递给他人" ["分享"; "传播"; "教导"];
    mkPhaseRow 270 315 phase_last_quarter "下弦月期"
      "重新评估，释放不再服务于你的事物" ["释放"; "重估"; "转向"];
    mkPhaseRow 315 360 phase_balsamic "残月期"
      "结束与休息，为新周期的到来做准备" ["结束"; "休息"; "预示"] ]%string.

Definition calculateLunarPhase (sunLongitude moonLongitude : R) : LunarPhase :=
  let angle := normalizeAngle (moonLongitude - sunLongitude) in
  let row :=
    match find (fun p => geb angle (row_min p) && ltb angle (row_max p)) phases with
    | Some p => p
    | None => mkPhaseRow 0 45 phase_new "新月期"
                "新周期的开始，适合播种新意图，内在酝酿"
                ["新开始"; "潜伏"; "意图设定"]%string
    end in
  mkLunarPhase (row_phase row) angle (row_name row) (row_description row)
               (row_keywords row).

(** One pass of the loop over the natal planets. *)
Definition progressPlanet (natalChart : NatalChart) (progressedJd : R)
  (natalPlanet : PlanetPlacement) : Completion (ProgressedPlanet * PlanetPosition) :=
  match calculatePlanetPosition (PlanetId_string (pl_id natalPlanet)) progressedJd with
  | Thrown message => Throw message
  | ReturnedNaN => Throw "TypeError"
  | Returned progressedPos =>
      bind (getHouseFromLongitude (longitude progressedPos) natalChart) (fun house =>
      match getZodiacSign (longitude progressedPos) with
      | None => Throw "TypeError"
      | Some sign =>
          Normal
            (mkProgressedPlanet
               (pl_id natalPlanet) (pl_name natalPlanet) (pl_symbol natalPlanet)
               (pl_longitude natalPlanet) (longitude progressedPos)
               (normalizeAngle (longitude progressedPos - pl_longitude natalPlanet))
               (sign_id sign) (sign_name sign)
               (negb (ZodiacId_beq (sign_id sign) (pl_sign natalPlanet)))
               house
               (negb (Z.eqb house (pl_house natalPlanet))),
             mkPlanetPosition (pl_id natalPlanet) (longitude progressedPos)
                              (latitude progressedPos) None)
      end)
  end.

(** Milliseconds in a year of 365.25 days, and in a day. *)
Definition msPerYear : R := 365.25 * 24 * 60 * 60 * 1000.
Definition msPerDayR : R := 24 * 60 * 60 * 1000.

Definition calculateProgressedChart (natalChart : NatalChart) (targetDate : Date)
  : Completion ProgressedChart :=
  let birthDate := bd_date (birthData natalChart) in
  let yearsFromBirth :=
    (IZR (getTime targetDate) - IZR (getTime birthDate)) / msPerYear in
  let daysProgressed := yearsFromBirth in
  let progressedDate := newDate (IZR (getTime birthDate) + daysProgressed * msPerDayR) in
  let progressedJd := dateToJulianDay progressedDate in
  bind (mapM (progressPlanet natalChart progressedJd) (planets natalChart)) (fun progressed =>
  let progressedPlanets := map fst progressed in
  let progressedPositions := map snd progressed in
  let sunMovement :=
    match find (fun p => PlanetId_beq (prog_id p) sun) progressedPlanets with
    | Some p => js_or (movement p) 0
    | None => 0
    end in
  let progressedAscendant := normalizeAngle (ascendant natalChart + sunMovement) in
  let progressedMidheaven := normalizeAngle (midheaven natalChart + sunMovement) in
  let natalPositions :=
    map (fun p => mkPlanetPosition (pl_id p) (pl_longitude p) (pl_latitude p) None)
        (planets natalChart) in
  let aspects := calculateAllAspects (progressedPositions ++ natalPositions)
                                     defaultAspectTypes in
  let progressedSun := find (fun p => PlanetId_beq (prog_id p) sun) progressedPlanets in
  let progressedMoon := find (fun p => PlanetId_beq (prog_id p) moon) progressedPlanets in
  let lunarPhase :=
    calculateLunarPhase
      (match progressedSun with Some p => js_or (progressedLongitude p) 0 | None => 0 end)
      (match progressedMoon with Some p => js_or (progressedLongitude p) 0 | None => 0 end) in
  Normal (mkProgressedChart targetDate progressedDate daysProgressed yearsFromBirth
                            progressedPlanets progressedAscendant progressedMidheaven
                            aspects lunarPhase)).

(** Days from one date to another. *)
Definition daysBetween (from to : Date) : R :=
  (IZR (getTime to) - IZR (getTime from)) / msPerDayR.

(** The progression scale read literally, for a tolerance [tol]: the years
    elapsed, and 365.25 days of progressed date for each of them. *)
Definition progressionScaleAsStated (natalChart : NatalChart) (target : Date)
  (tol : R) : Prop :=
  exists chart,
    calculateProgressedChart natalChart target = Normal chart /\
    Rabs (yearsFromBirth chart
          - daysBetween (bd_date (birthData natalChart)) target / 365.25) <= tol /\
    Rabs (daysBetween (bd_date (birthData natalChart)) (progressedDate chart)
          - yearsFromBirth chart * 365.25) <= tol.

(** A chart with no planets and twelve equal houses from 0 degrees, born
    at the epoch; and the date 365.25 days later. *)
Definition emptyChart : NatalChart :=
  mkNatalChart
    (mkBirthData (mkDate 0) 0 0 "UTC" None) 2440587.5 []
    (map (fun i => mkHouseCusp (Z.of_nat i + 1) (INR i * 30) aries 0) (seq 0 12))
    0 0 []
    (mkElementBalance 0 0 0 0) (mkModalityBalance 0 0 0) [] mars.

Definition oneYearAfterEpoch : Date := mkDate 31557600000.

(** ** influence-factors: data *)

Record Weights := mkWeights {
  w_dignity : R;
  w_retrograde : R;
  w_aspectPhase : R;
  w_aspectOrb : R;
  w_outerPlanet : R;
  w_profectionLord : R;
  w_lunarPhase : R;
  w_planetaryHour : R;
  w_personal : R;
  w_custom : R
}.

(** The condition of a custom factor, with its parameters as the checks
    read them: a parsed date is [None] when it is invalid, a string
    parameter is [None] when it is missing. *)
Inductive Condition :=
| cond_always
| cond_date_range (start end_ : option Date)
| cond_transit (planet : option string)
| cond_planet_in_sign (planet sign : option string)
| cond_aspect
| cond_custom.

(** [effects] keeps the order of its keys; a key may hold [undefined]. *)
Record CustomFactor := mkCustomFactor {
  cf_id : string;
  cf_name : string;
  cf_description : string;
  cf_condition : Condition;
  cf_effects : list (string * option R);
  cf_priority : R
}.

Record InfluenceFactorConfig := mkConfig {
  enabled : bool;
  weights : Weights;
  customFactors : list CustomFactor
}.

Record Dimensions := mkDimensions {
  career : R;
  relationship : R;
  health : R;
  finance : R;
  spiritual : R
}.

Record Scores := mkScores {
  overall : R;
  dimensions : Dimensions
}.

Record CurrentState := mkCurrentState {
  cs_age : R;
  cs_profectionHouse : R;
  cs_lordOfYear : PlanetId;
  cs_lunarPhase : string;
  cs_planetaryDay : PlanetId;
  cs_planetaryHour : PlanetId;
  cs_moonSign : ZodiacId
}.

Record FactorContext := mkContext {
  fc_natalChart : NatalChart;
  fc_date : Date;
  rawScores : Scores;
  currentState : CurrentState;
  activeTransits : list AspectData
}.

Record AppliedFactor := mkFactor {
  factor_id : string;
  factor_name : string;
  factor_type : string;
  adjustment : R;
  dimension : string;
  reason : string
}.

Record FactorResult := mkResult {
  adjustedScores : Scores;
  appliedFactors : list AppliedFactor;
  totalAdjustment : R;
  summary : string
}.

Definition DEFAULT_FACTOR_CONFIG : InfluenceFactorConfig :=
  mkConfig true (mkWeights 0.8 0.6 0.7 0.9 0.85 0.75 0.5 0.3 0.8 1.0) [].

Definition DIGNITY_TABLE (planetId : PlanetId) (signId : ZodiacId) : R :=
  match planetId, signId with
  | sun, leo => 5 | sun, aries => 4 | sun, aquarius => -5 | sun, libra => -4
  | moon, cancer => 5 | moon, taurus => 4 | moon, capricorn => -5 | moon, scorpio => -4
  | mercury, gemini => 5 | mercury, virgo => 5
  | mercury, sagittarius => -5 | mercury, pisces => -5
  | venus, taurus => 5 | venus, libra => 5 | venus, pisces => 4
  | venus, aries => -5 | venus, scorpio => -5 | venus, virgo => -4
  | mars, aries => 5 | mars, scorpio => 5 | mars, capricorn => 4
  | mars, libra => -5 | mars, taurus => -5 | mars, cancer => -4
  | jupiter, sagittarius => 5 | jupiter, pisces => 5 | jupiter, cancer => 4
  | jupiter, gemini => -5 | jupiter, virgo => -5 | jupiter, capricorn => -4
  | saturn, capricorn => 5 | saturn, aquarius => 5 | saturn, libra => 4
  | saturn, cancer => -5 | saturn, leo => -5 | saturn, aries => -4
  | uranus, aquarius => 5 | uranus, scorpio => 4 | uranus, leo => -5 | uranus, taurus => -4
  | neptune, pisces => 5 | neptune, cancer => 4
  | neptune, virgo => -5 | neptune, capricorn => -4
  | pluto, scorpio => 5 | pluto, aries => 4 | pluto, taurus => -5 | pluto, libra => -4
  | _, _ => 0
  end.

(** [info?.name] inside a template string. *)
Definition nameOf (info : option Planet) : string :=
  match info with
  | Some p => planet_name p
  | None => "undefined"
  end.

(** A house number inside a template string. *)
Definition showInteger (z : Z) : string := NilZero.string_of_int (Z.to_int z).

(** [x.toFixed(1)], for magnitudes below 1e21: the decimal rounding of the
    real number.  The code rounds the binary64 number, which can fall on
    the other side of a tie (0.35 prints as 0.3); the text is used in the
    reasons of the factors only. *)
Definition toFixed1 (x : R) : string :=
  let sign := if Rlt_dec x 0 then "-"%string else ""%string in
  let x := if Rlt_dec x 0 then - x else x in
  let n := Int_part (x * 10 + 1 / 2) in
  (sign ++ showInteger (n / 10) ++ "." ++ showInteger (n mod 10))%string.

(** ** influence-factors: the factor generators *)

Open Scope string_scope.

Definition majorPlanets : list PlanetId := [sun; moon; mercury; venus; mars].

Definition calculateDignityFactor (chart : NatalChart) (weight : R)
  : list AppliedFactor :=
  flat_map
    (fun planet =>
       if negb (existsb (PlanetId_beq (pl_id planet)) majorPlanets) then []
       else
         let dignityScore := js_or (DIGNITY_TABLE (pl_id planet) (pl_sign planet)) 0 in
         if neqb dignityScore 0 then
           let adjustment := (dignityScore / 5) * 3 * weight in
           let planetInfo := findPlanet (pl_id planet) in
           [ mkFactor
               ("dignity_" ++ PlanetId_string (pl_id planet))
               (nameOf planetInfo ++ "尊贵度")
               "dignity"
               adjustment
               "overall"
               (if gtb dignityScore 0
                then nameOf planetInfo ++ "在" ++ pl_signName planet
                     ++ (if Req_dec_T dignityScore 5 then "入庙" else "入旺")
                     ++ "，力量增强"
                else nameOf planetInfo ++ "在" ++ pl_signName planet
                     ++ (if Req_dec_T dignityScore (-5) then "入陷" else "落陷")
                     ++ "，力量减弱") ]%string
         else [])
    (planets chart).

(** The parameter [weight] of the source is [w] here and in the next
    function, where an aspect's own [weight] is read as well. *)
Definition calculateAspectPhaseFactor (aspects : list AspectData) (w : R)
  : list AppliedFactor :=
  map
    (fun aspect =>
       let phaseMultiplier := if applying aspect then 1.1 else 0.8 in
       let adjustment := weight aspect * phaseMultiplier * 0.8 * w in
       let p1 := findPlanet (planet1 aspect) in
       let p2 := findPlanet (planet2 aspect) in
       mkFactor
         ("aspect_phase_" ++ PlanetId_string (planet1 aspect) ++ "_"
          ++ PlanetId_string (planet2 aspect))%string
         (nameOf p1 ++ AspectId_string (aspectType aspect) ++ nameOf p2)%string
         "aspectPhase"
         (if applying aspect then adjustment else - adjustment * 0.5)
         "overall"
         (if applying aspect then "入相位，影响正在增强" else "出相位，影响正在消退"))
    (firstn 3 aspects).

Section OrbDecay.

(** [Math.pow] is left abstract: with the exponent 1.5 it has no real
    value for a negative base. *)
Variable Math_pow : R -> R -> R.

Definition calculateOrbDecayFactor (aspects : list AspectData) (w : R)
  : list AppliedFactor :=
  flat_map
    (fun aspect =>
       let orbDecay := Math_pow (strength aspect) 1.5 in
       let baseAdjustment := weight aspect * 0.5 in
       let adjustment := baseAdjustment * orbDecay * w in
       if Rlt_dec (orb aspect) 1 then
         [ mkFactor
             ("orb_exact_" ++ PlanetId_string (planet1 aspect) ++ "_"
              ++ PlanetId_string (planet2 aspect))%string
             "精确相位"
             "aspectOrb"
             adjustment
             "overall"
             ("相位容许度仅 " ++ toFixed1 (orb aspect) ++ "°，影响极强")%string ]
       else [])
    (firstn 2 aspects).

End OrbDecay.

Definition calculateOuterPlanetFactor (age weight : R) : list AppliedFactor :=
  let saturnCycle := js_rem age 29.5 in
  ((if ltb saturnCycle 1 || gtb saturnCycle 28.5 then
     [ mkFactor "saturn_return" "土星回归" "outerPlanet" (-15 * weight) "overall"
                "土星回归期，人生结构性调整与考验" ]
   else if ltb (Math_abs (saturnCycle - 7)) 1 then
     [ mkFactor "saturn_square_1" "土星四分" "outerPlanet" (-8 * weight) "career"
                "土星四分期，事业面临压力测试" ]
   else if ltb (Math_abs (saturnCycle - 14.75)) 1 then
     [ mkFactor "saturn_opposition" "土星对冲" "outerPlanet" (-10 * weight) "overall"
                "土星对冲期，需要平衡责任与自我" ]
   else [])
  ++ (if geb age 41 && leb age 43 then
        [ mkFactor "uranus_opposition" "天王星对冲" "outerPlanet" (-12 * weight) "overall"
                   "中年觉醒危机，渴望打破常规";
          mkFactor "uranus_opposition_spiritual" "天王星觉醒" "outerPlanet" (15 * weight)
                   "spiritual" "灵性觉醒的重要时期" ]
      else [])
  ++ (if geb age 49 && leb age 51 then
        [ mkFactor "chiron_return" "凯龙回归" "outerPlanet" (10 * weight) "spiritual"
                   "深层疗愈期，整合人生伤痛" ]
      else []))%list.

(** [houseInfluence[house]]: the dimension and its name. *)
Definition houseInfluence (house : Z) : option (string * string) :=
  match house with
  | 2%Z => Some ("finance", "财务")
  | 6%Z => Some ("health", "健康")
  | 7%Z => Some ("relationship", "关系")
  | 10%Z => Some ("career", "事业")
  | 12%Z => Some ("spiritual", "灵性")
  | _ => None
  end%string.

Definition calculateProfectionLordFactor (chart : NatalChart) (lordOfYear : PlanetId)
  (weight : R) : list AppliedFactor :=
  match find (fun p => PlanetId_beq (pl_id p) lordOfYear) (planets chart) with
  | None => []
  | Some lordPlacement =>
      let lordInfo := findPlanet lordOfYear in
      let dignityScore := js_or (DIGNITY_TABLE lordOfYear (pl_sign lordPlacement)) 0 in
      ((if neqb dignityScore 0 then
         [ mkFactor
             "lord_dignity"
             ("年度主星" ++ nameOf lordInfo ++ "尊贵度")
             "profectionLord"
             ((dignityScore / 5) * 15 * weight)
             "overall"
             (if gtb dignityScore 0
              then "年度主星" ++ nameOf lordInfo ++ "在" ++ pl_signName lordPlacement
                   ++ "力量强劲，全年运势加持"
              else "年度主星" ++ nameOf lordInfo ++ "在" ++ pl_signName lordPlacement
                   ++ "力量减弱，全年需更多努力") ]%string
       else [])
      ++ match houseInfluence (pl_house lordPlacement) with
         | Some (dim, name) =>
             [ mkFactor
                 ("lord_house_" ++ dim)
                 ("年度主星在" ++ showInteger (pl_house lordPlacement) ++ "宫")
                 "profectionLord"
                 (10 * weight)
                 dim
                 ("年度主星" ++ nameOf lordInfo ++ "在"
                  ++ showInteger (pl_house lordPlacement) ++ "宫，" ++ name
                  ++ "领域受到关注") ]%string
         | None => []
         end)%list
  end.

(** The table of lunar-phase effects, read as a map over its eight keys:
    the label a context carries is a phase name set by the callers. *)
Definition LUNAR_PHASE_EFFECTS (lunarPhase : string) : option (R * list string) :=
  if String.eqb lunarPhase "新月期" then Some (5, ["开始"; "播种"; "设定意图"])
  else if String.eqb lunarPhase "眉月期" then Some (-3, ["挣扎"; "突破"; "建立动力"])
  else if String.eqb lunarPhase "上弦月期" then Some (8, ["行动"; "决策"; "承诺"])
  else if String.eqb lunarPhase "盈凸月期" then Some (5, ["完善"; "准备"; "调整"])
  else if String.eqb lunarPhase "满月期" then Some (10, ["高峰"; "收获"; "照见"])
  else if String.eqb lunarPhase "亏凸月期" then Some (3, ["分享"; "传播"; "教导"])
  else if String.eqb lunarPhase "下弦月期" then Some (-5, ["释放"; "重估"; "转向"])
  else if String.eqb lunarPhase "残月期" then Some (-8, ["结束"; "休息"; "预备"])
  else None.

Definition calculateLunarPhaseFactor (lunarPhase : string) (weight : R)
  : list AppliedFactor :=
  match LUNAR_PHASE_EFFECTS lunarPhase with
  | Some (effect_overall, keywords) =>
      [ mkFactor "lunar_phase" lunarPhase "lunarPhase" (effect_overall * weight) "overall"
                 (lunarPhase ++ "：" ++ String.concat "、" keywords)%string ]
  | None => []
  end.

Definition PLANETARY_HOUR_EFFECTS (p : PlanetId) : R * string :=
  match p with
  | sun => (8, "career")
  | moon => (3, "relationship")
  | mercury => (5, "career")
  | venus => (7, "relationship")
  | mars => (-3, "health")
  | jupiter => (10, "finance")
  | saturn => (-5, "career")
  | uranus => (2, "spiritual")
  | neptune => (0, "spiritual")
  | pluto => (-2, "spiritual")
  | northNode => (3, "spiritual")
  | chiron => (0, "health")
  end%string.

Definition calculatePlanetaryHourFactor (planetaryHour : PlanetId) (weight : R)
  : list AppliedFactor :=
  let effect := PLANETARY_HOUR_EFFECTS planetaryHour in
  match findPlanet planetaryHour with
  | Some planetInfo =>
      mkFactor "planetary_hour"
               (planet_name planetInfo ++ "时")
               "planetaryHour"
               (fst effect * weight)
               "overall"
               ("当前为" ++ planet_name planetInfo ++ "时，"
                ++ (if gtb (fst effect) 0 then "能量提升" else "需要谨慎"))%string
      :: (if String.eqb (snd effect) "" then []
          else
            [ mkFactor ("planetary_hour_boost_" ++ snd effect)
                       (planet_name planetInfo ++ "时增益")
                       "planetaryHour"
                       (5 * weight)
                       (snd effect)
                       (planet_name planetInfo ++ "时有利于" ++ snd effect
                        ++ "相关事务") ]%string)
  | None => []
  end.

Definition elementGlyph (e : ElementType) : string :=
  match e with
  | fire => "火"
  | earth => "土"
  | air => "风"
  | water => "水"
  end.

(** The dominant element computed at the head of the source function is
    never read and is not modelled. *)
Definition calculatePersonalFactor (chart : NatalChart) (context : FactorContext)
  (weight : R) : list AppliedFactor :=
  ((match find (fun p => PlanetId_beq (pl_id p) moon) (planets chart) with
   | Some natalMoon =>
       match findSign (pl_sign natalMoon),
             findSign (cs_moonSign (currentState context)) with
       | Some natalMoonSign, Some transitMoonSign =>
           ((if ElementType_beq (sign_element natalMoonSign) (sign_element transitMoonSign)
            then
              [ mkFactor "moon_element_resonance" "月亮元素共鸣" "personal" (8 * weight)
                         "relationship"
                         ("今日月亮与你的本命月亮同为"
                          ++ elementGlyph (sign_element natalMoonSign)
                          ++ "象，情感共鸣增强")%string ]
            else [])
           ++ (if ZodiacId_beq (pl_sign natalMoon) (cs_moonSign (currentState context))
               then
                 [ mkFactor "moon_sign_exact" "月亮回归" "personal" (12 * weight)
                            "overall"
                            ("今日月亮回到你的本命月亮星座" ++ pl_signName natalMoon
                             ++ "，情感能量特别敏感")%string ]
               else []))%list
       | _, _ => []
       end
   | None => []
   end)
  ++ (let lordOfYear := cs_lordOfYear (currentState context) in
      if existsb (PlanetId_beq lordOfYear) (dominantPlanets chart) then
        [ mkFactor "lord_is_dominant" "主导行星主宰年" "personal" (10 * weight) "overall"
                   ("今年的年度主星" ++ nameOf (findPlanet lordOfYear)
                    ++ "正是你本命盘的主导行星之一，全年运势与个人特质高度共振")%string ]
      else []))%list.

(** ** influence-factors: custom factors *)

Definition option_string_eqb (a b : option string) : bool :=
  match a, b with
  | Some x, Some y => String.eqb x y
  | None, None => true
  | _, _ => false
  end.

(** [checkCustomCondition]; a comparison with an invalid date or with a
    missing parameter is false, and two [undefined] are equal. *)
Definition checkCustomCondition (condition : Condition) (context : FactorContext)
  : bool :=
  match condition with
  | cond_always => true
  | cond_date_range start end_ =>
      match start, end_ with
      | Some s, Some e =>
          (getTime s <=? getTime (fc_date context))%Z
          && (getTime (fc_date context) <=? getTime e)%Z
      | _, _ => false
      end
  | cond_transit transitPlanet =>
      existsb
        (fun t =>
           option_string_eqb (Some (PlanetId_string (planet1 t))) transitPlanet
           || option_string_eqb (Some (PlanetId_string (planet2 t))) transitPlanet)
        (activeTransits context)
  | cond_planet_in_sign planet sign =>
      let placement :=
        find (fun p => option_string_eqb (Some (PlanetId_string (pl_id p))) planet)
             (planets (fc_natalChart context)) in
      option_string_eqb
        (option_map (fun p => ZodiacId_string (pl_sign p)) placement) sign
  | cond_aspect => false
  | cond_custom => false
  end.

(** The factors one custom factor pushes: one for each effect that is
    not [undefined], in the order of the keys. *)
Definition customEffects (custom : CustomFactor) (weight : R) : list AppliedFactor :=
  flat_map
    (fun entry =>
       match snd entry with
       | Some value =>
           [ mkFactor (cf_id custom) (cf_name custom) "custom"
                      (value * 20 * weight) (fst entry) (cf_description custom) ]
       | None => []
       end)
    (cf_effects custom).

(** The sort key of a pushed factor: the priority of the first custom
    factor with its id, or 0. *)
Definition priorityOf (customFactors : list CustomFactor) (a : AppliedFactor) : R :=
  match find (fun c => String.eqb (cf_id c) (factor_id a)) customFactors with
  | Some c => js_or (cf_priority c) 0
  | None => 0
  end.

Definition applyCustomFactors (customFactors : list CustomFactor)
  (context : FactorContext) (weight : R) : list AppliedFactor :=
  let factors :=
    flat_map
      (fun custom =>
         if negb (checkCustomCondition (cf_condition custom) context) then []
         else customEffects custom weight)
      customFactors in
  sort_desc (priorityOf customFactors) factors.

(** ** influence-factors: the pipeline *)

(** [adjustedScores.dimensions[dim] += adjustment], when that dimension
    is defined. *)
Definition addToDimension (d : Dimensions) (dim : string) (a : R) : Dimensions :=
  if String.eqb dim "career" then
    mkDimensions (career d + a) (relationship d) (health d) (finance d) (spiritual d)
  else if String.eqb dim "relationship" then
    mkDimensions (career d) (relationship d + a) (health d) (finance d) (spiritual d)
  else if String.eqb dim "health" then
    mkDimensions (career d) (relationship d) (health d + a) (finance d) (spiritual d)
  else if String.eqb dim "finance" then
    mkDimensions (career d) (relationship d) (health d) (finance d + a) (spiritual d)
  else if String.eqb dim "spiritual" then
    mkDimensions (career d) (relationship d) (health d) (finance d) (spiritual d + a)
  else d.

(** One pass of the loop over the factors: the scores and the running
    total of the adjustments to [overall]. *)
Definition applyFactor (acc : Scores * R) (factor : AppliedFactor) : Scores * R :=
  let adjustedScores := fst acc in
  let totalOverallAdjustment := snd acc in
  if String.eqb (dimension factor) "overall" then
    (mkScores (overall adjustedScores + adjustment factor) (dimensions adjustedScores),
     totalOverallAdjustment + adjustment factor)
  else
    (mkScores (overall adjustedScores)
              (addToDimension (dimensions adjustedScores) (dimension factor)
                              (adjustment factor)),
     totalOverallAdjustment).

Definition clampOverall (x : R) : R := Math_max (-100) (Math_min 100 x).
Definition clampDimension (x : R) : R := Math_max 0 (Math_min 100 x).

Definition clampScores (s : Scores) : Scores :=
  mkScores (clampOverall (overall s))
           (mkDimensions (clampDimension (career (dimensions s)))
                         (clampDimension (relationship (dimensions s)))
                         (clampDimension (health (dimensions s)))
                         (clampDimension (finance (dimensions s)))
                         (clampDimension (spiritual (dimensions s)))).

Definition positiveFactors (allFactors : list AppliedFactor) : list AppliedFactor :=
  filter (fun f => gtb (adjustment f) 0) allFactors.

Definition negativeFactors (allFactors : list AppliedFactor) : list AppliedFactor :=
  filter (fun f => ltb (adjustment f) 0) allFactors.

(** The names one half of the summary lists: those of the first three
    entries. *)
Definition namedIn (factors : list AppliedFactor) : list string :=
  map factor_name (firstn 3 factors).

Definition isEmptyString (s : string) : bool := String.eqb s "".

(** The summary sentence, from the two filtered lists. *)
Definition summaryText (positiveFactors negativeFactors : list AppliedFactor) : string :=
  let summary := "" in
  let summary :=
    if negb (Nat.eqb (List.length positiveFactors) 0)
    then summary ++ "有利因子：" ++ String.concat "、" (namedIn positiveFactors)
    else summary in
  let summary :=
    if negb (Nat.eqb (List.length negativeFactors) 0)
    then (if isEmptyString summary then summary else summary ++ "；")
         ++ "需注意：" ++ String.concat "、" (namedIn negativeFactors)
    else summary in
  if isEmptyString summary then "当前无显著影响因子" else summary.

(** The sentence in closed form, from the names each half lists. *)
Definition sentenceOf (positiveNames negativeNames : list string) : string :=
  match positiveNames, negativeNames with
  | [], [] => "当前无显著影响因子"
  | _ :: _, [] => "有利因子：" ++ String.concat "、" positiveNames
  | [], _ :: _ => "需注意：" ++ String.concat "、" negativeNames
  | _ :: _, _ :: _ =>
      "有利因子：" ++ String.concat "、" positiveNames
      ++ "；" ++ "需注意：" ++ String.concat "、" negativeNames
  end%string.

Section Pipeline.

Variable Math_pow : R -> R -> R.

(** The nine generators, each run when its weight is positive, in the
    fixed order of the source. *)
Definition collectFactors (context : FactorContext) (config : InfluenceFactorConfig)
  : list AppliedFactor :=
  let w := weights config in
  ((if gtb (w_dignity w) 0
    then calculateDignityFactor (fc_natalChart context) (w_dignity w) else [])
   ++ (if gtb (w_aspectPhase w) 0
       then calculateAspectPhaseFactor (activeTransits context) (w_aspectPhase w)
       else [])
   ++ (if gtb (w_aspectOrb w) 0
       then calculateOrbDecayFactor Math_pow (activeTransits context) (w_aspectOrb w)
       else [])
   ++ (if gtb (w_outerPlanet w) 0
       then calculateOuterPlanetFactor (cs_age (currentState context)) (w_outerPlanet w)
       else [])
   ++ (if gtb (w_profectionLord w) 0
       then calculateProfectionLordFactor (fc_natalChart context)
              (cs_lordOfYear (currentState context)) (w_profectionLord w)
       else [])
   ++ (if gtb (w_lunarPhase w) 0
       then calculateLunarPhaseFactor (cs_lunarPhase (currentState context))
              (w_lunarPhase w)
       else [])
   ++ (if gtb (w_planetaryHour w) 0
       then calculatePlanetaryHourFactor (cs_planetaryHour (currentState context))
              (w_planetaryHour w)
       else [])
   ++ (if gtb (w_personal w) 0
       then calculatePersonalFactor (fc_natalChart context) context (w_personal w)
       else [])
   ++ (if gtb (w_custom w) 0
          && negb (Nat.eqb (List.length (customFactors config)) 0)
       then applyCustomFactors (customFactors config) context (w_custom w)
       else []))%list.

Definition applyInfluenceFactors (context : FactorContext)
  (config : InfluenceFactorConfig) : FactorResult :=
  if negb (enabled config) then
    mkResult (rawScores context) [] 0 "影响因子已禁用"
  else
    let allFactors := collectFactors context config in
    let adjusted := fold_left applyFactor allFactors (rawScores context, 0) in
    mkResult (clampScores (fst adjusted)) allFactors (snd adjusted)
             (summaryText (positiveFactors allFactors) (negativeFactors allFactors)).

End Pipeline.

(** ** influence-factors: notions used to state the properties *)

Definition overallInRange (s : Scores) : Prop := -100 <= overall s <= 100.

Definition dimensionsInRange (s : Scores) : Prop :=
  0 <= career (dimensions s) <= 100 /\
  0 <= relationship (dimensions s) <= 100 /\
  0 <= health (dimensions s) <= 100 /\
  0 <= finance (dimensions s) <= 100 /\
  0 <= spiritual (dimensions s) <= 100.

(** Two configurations that differ at most in the retrograde weight: the
    switch, the custom factors and the nine other weights agree. *)
Definition differOnlyInRetrograde (c1 c2 : InfluenceFactorConfig) : Prop :=
  enabled c1 = enabled c2 /\
  customFactors c1 = customFactors c2 /\
  w_dignity (weights c1) = w_dignity (weights c2) /\
  w_aspectPhase (weights c1) = w_aspectPhase (weights c2) /\
  w_aspectOrb (weights c1) = w_aspectOrb (weights c2) /\
  w_outerPlanet (weights c1) = w_outerPlanet (weights c2) /\
  w_profectionLord (weights c1) = w_profectionLord (weights c2) /\
  w_lunarPhase (weights c1) = w_lunarPhase (weights c2) /\
  w_planetaryHour (weights c1) = w_planetaryHour (weights c2) /\
  w_personal (weights c1) = w_personal (weights c2) /\
  w_custom (weights c1) = w_custom (weights c2).

(** A configuration with another retrograde weight and nothing else
    changed. *)
Definition withRetrograde (config : InfluenceFactorConfig) (r : R)
  : InfluenceFactorConfig :=
  let w := weights config in
  mkConfig (enabled config)
           (mkWeights (w_dignity w) r (w_aspectPhase w) (w_aspectOrb w)
                      (w_outerPlanet w) (w_profectionLord w) (w_lunarPhase w)
                      (w_planetaryHour w) (w_personal w) (w_custom w))
           (customFactors config).

(** Selection by signed magnitude: no positive factor left unnamed has a
    larger adjustment than a named one, and no negative factor left
    unnamed has a more negative adjustment than a named one. *)
Definition namesLargestContributors (allFactors : list AppliedFactor) : Prop :=
  (forall f g, In f (firstn 3 (positiveFactors allFactors)) ->
               In g (skipn 3 (positiveFactors allFactors)) ->
               adjustment g <= adjustment f) /\
  (forall f g, In f (firstn 3 (negativeFactors allFactors)) ->
               In g (skipn 3 (negativeFactors allFactors)) ->
               adjustment f <= adjustment g).

(** A context at age 30, during a waning gibbous moon and an hour of
    Jupiter, with mid-range raw scores and no active transit. *)
Definition sampleContext : FactorContext :=
  mkContext emptyChart (mkDate 0)
            (mkScores 50 (mkDimensions 50 50 50 50 50))
            (mkCurrentState 30 7 venus "亏凸月期" sun jupiter aries)
            [].

(** A custom factor worth 20 points of the overall score. *)
Definition bonusFactor : CustomFactor :=
  mkCustomFactor "bonus" "奖励" "custom bonus" cond_always [("overall", Some 1)] 0.

(** Only the lunar-phase, planetary-hour and custom generators run, each
    at full weight. *)
Definition lunarHourCustomConfig : InfluenceFactorConfig :=
  mkConfig true (mkWeights 0 0 0 0 0 0 1 1 0 1) [bonusFactor].

(** Custom effects far beyond the documented range, at a weight far
    beyond 1. *)
Definition extremeFactor : CustomFactor :=
  mkCustomFactor "extreme" "极端" "out of range" cond_always
                 [("overall", Some 1000000); ("career", Some (-1000000));
                  ("health", Some 1000000)] 0.

Definition extremeConfig : InfluenceFactorConfig :=
  mkConfig true (mkWeights 1 1 1 1 1 1 1 1 1 1000000) [extremeFactor].

Definition disabledConfig : InfluenceFactorConfig :=
  mkConfig false (mkWeights 0.8 0.6 0.7 0.9 0.85 0.75 0.5 0.3 0.8 1.0) [bonusFactor].

Close Scope string_scope.

(** ** ephemeris: all positions *)

(** [calculateAllPlanetPositions]: the record of the twelve positions, as
    the list of its entries in insertion order; an error thrown for a body
    ends the call. *)
Definition calculateAllPlanetPositions (date : Date)
  : Completion (list (string * PositionOutcome)) :=
  let jd := dateToJulianDay date in
  let planets := ["sun"; "moon"; "mercury"; "venus"; "mars"; "jupiter"; "saturn";
                  "uranus"; "neptune"; "pluto"; "northNode"; "chiron"]%string in
  mapM (fun planet =>
          match calculatePlanetPosition planet jd with
          | Thrown message => Throw message
          | outcome => Normal (planet, outcome)
          end) planets.

(** ** influence-factors: convenience functions *)

Section Convenience.

Variable Math_pow : R -> R -> R.

(** A missing [config] is the default configuration. *)
Definition configOrDefault (config : option InfluenceFactorConfig)
  : InfluenceFactorConfig :=
  match config with
  | Some c => c
  | None => DEFAULT_FACTOR_CONFIG
  end.

Definition getAdjustedScore (rawScore : R) (context : FactorContext)
  (config : option InfluenceFactorConfig) : R :=
  let result := applyInfluenceFactors Math_pow context (configOrDefault config) in
  overall (adjustedScores result).

Definition getFactorSummary (context : FactorContext)
  (config : option InfluenceFactorConfig) : string :=
  let result := applyInfluenceFactors Math_pow context (configOrDefault config) in
  summary result.

End Convenience.

(** The adjustments that a list of factors makes to one dimension, in the
    order of the factors. *)
Definition adjustmentsTo (dim : string) (factors : list AppliedFactor) : list R :=
  map adjustment (filter (fun f => String.eqb (dimension f) dim) factors).

(** The value of a loop [acc += x] over a list, from [start], in the
    order of the list. *)
Definition addedInOrder (start : R) (xs : list R) : R := fold_left Rplus xs start.

(** The totals of the two tallies of a chart. *)
Definition elementTotal (b : ElementBalance) : R :=
  bal_fire b + bal_earth b + bal_air b + bal_water b.

Definition modalityTotal (b : ModalityBalance) : R :=
  bal_cardinal b + bal_fixed b + bal_mutable b.

(** ** constants: houses *)

Record House := mkHouse {
  house_id : Z;
  house_name : string;
  house_theme : string;
  house_keywords : list string;
  house_angularType : string
}.

Open Scope string_scope.

Definition HOUSES : list House :=
  [ mkHouse 1 "第一宫" "自我" ["身份"; "外表"; "人格面具"; "生命力"] "angular";
    mkHouse 2 "第二宫" "资源" ["金钱"; "价值观"; "物质安全"; "自我价值"] "succedent";
    mkHouse 3 "第三宫" "沟通" ["思维"; "学习"; "兄弟姐妹"; "短途旅行"] "cadent";
    mkHouse 4 "第四宫" "根基" ["家庭"; "情感根基"; "父母"; "内在安全"] "angular";
    mkHouse 5 "第五宫" "创造" ["创意"; "恋爱"; "子女"; "娱乐"; "冒险"] "succedent";
    mkHouse 6 "第六宫" "服务" ["健康"; "日常工作"; "习惯"; "服务他人"] "cadent";
    mkHouse 7 "第七宫" "关系" ["伴侣"; "合作"; "契约"; "公开敌人"] "angular";
    mkHouse 8 "第八宫" "转化" ["共享资源"; "亲密"; "死亡重生"; "心理深度"] "succedent";
    mkHouse 9 "第九宫" "探索" ["高等教育"; "哲学"; "长途旅行"; "信仰"] "cadent";
    mkHouse 10 "第十宫" "成就" ["事业"; "社会地位"; "使命"; "公众形象"] "angular";
    mkHouse 11 "第十一宫" "愿景" ["友谊"; "团体"; "理想"; "社会贡献"] "succedent";
    mkHouse 12 "第十二宫" "超越" ["潜意识"; "隐藏"; "灵性"; "自我消融"] "cadent" ]%list.

(** ** profections *)

Record AnnualProfection := mkProfection {
  ap_year : R;
  ap_age : R;
  ap_house : Z;
  ap_houseName : string;
  ap_houseTheme : string;
  ap_houseKeywords : list string;
  ap_sign : ZodiacId;
  ap_signName : string;
  ap_lordOfYear : option PlanetId;
  ap_lordName : string;
  ap_lordSymbol : string;
  ap_lordNatalHouse : Z;
  ap_lordNatalSign : ZodiacId;
  ap_description : string
}.

(** [array[x]] for a numeric [x]: an element when [x] is a whole number
    from 0 to the length minus 1, [undefined] otherwise. *)
Definition js_index {A : Type} (l : list A) (x : R) : option A :=
  let k := Math_floor x in
  if Req_dec_T (IZR k) x
  then (if (k <? 0)%Z then None else nth_error l (Z.to_nat k))
  else None.

(** [x?.field || d] on strings and on house numbers. *)
Definition or_string (x : option string) (d : string) : string :=
  match x with
  | Some s => if isEmptyString s then d else s
  | None => d
  end.

Definition or_house (x : option Z) (d : Z) : Z :=
  match x with
  | Some h => if (h =? 0)%Z then d else h
  | None => d
  end.

(** [HOUSES.find(h => h.id === house)]. *)
Definition findHouse (house : Z) : option House :=
  find (fun h => (house_id h =? house)%Z) HOUSES.

Fixpoint assoc_Z {A : Type} (k : Z) (l : list (Z * A)) : option A :=
  match l with
  | [] => None
  | (k', v) :: rest => if (k' =? k)%Z then Some v else assoc_Z k rest
  end.

Definition generateProfectionDescription (house : Z)
  (theme signName lordName : string) (lordNatalHouse : Z) (lordNatalSign : string)
  : string :=
  let houseThemes : list (Z * string) :=
    [ (1%Z, "这是聚焦自我的一年。" ++ signName ++ "的能量染色你的身份表达。年度主星" ++ lordName ++ "在你的第" ++ showInteger lordNatalHouse ++ "宫，这一年的成长方向与该领域紧密相关。");
      (2%Z, "这是关于资源与价值的一年。" ++ signName ++ "的特质影响你如何看待金钱与自我价值。注意" ++ lordName ++ "在第" ++ showInteger lordNatalHouse ++ "宫的位置，它指引财务与价值观的发展方向。");
      (3%Z, "这是沟通与学习的一年。" ++ signName ++ "的方式将主导你的思维与表达。" ++ lordName ++ "所在的第" ++ showInteger lordNatalHouse ++ "宫领域会成为你学习和交流的重点。");
      (4%Z, "这是关于家庭与根基的一年。" ++ signName ++ "的能量渗透进你的私人生活与情感安全感。" ++ lordName ++ "在第" ++ showInteger lordNatalHouse ++ "宫提示你内在安全感的来源。");
      (5%Z, "这是创造与表达的一年。" ++ signName ++ "的色彩为你的创意和恋爱生活染上独特基调。" ++ lordName ++ "在第" ++ showInteger lordNatalHouse ++ "宫指向你喜悦和创造的源泉。");
      (6%Z, "这是服务与健康的一年。" ++ signName ++ "的方式影响你的日常习惯和工作态度。关注" ++ lordName ++ "在第" ++ showInteger lordNatalHouse ++ "宫的位置，它提示健康和效率的关键。");
      (7%Z, "这是关系与合作的一年。" ++ signName ++ "的特质会显著影响你的伴侣关系和重要合作。" ++ lordName ++ "在第" ++ showInteger lordNatalHouse ++ "宫揭示关系发展的关键领域。");
      (8%Z, "这是深度转化的一年。" ++ signName ++ "的能量引导你探索共享资源、亲密关系与心理深度。" ++ lordName ++ "在第" ++ showInteger lordNatalHouse ++ "宫指示蜕变的方向。");
      (9%Z, "这是探索与扩展的一年。" ++ signName ++ "的方式影响你的信仰、学习与远行。" ++ lordName ++ "在第" ++ showInteger lordNatalHouse ++ "宫提示智慧增长的路径。");
      (10%Z, "这是事业与成就的一年。" ++ signName ++ "的能量为你的公众形象和职业发展染色。" ++ lordName ++ "在第" ++ showInteger lordNatalHouse ++ "宫指向事业突破的关键。");
      (11%Z, "这是愿景与社群的一年。" ++ signName ++ "的特质影响你的理想与友谊。" ++ lordName ++ "在第" ++ showInteger lordNatalHouse ++ "宫揭示你在社群中的角色和目标。");
      (12%Z, "这是内省与超越的一年。" ++ signName ++ "的能量引导你探索潜意识与灵性维度。" ++ lordName ++ "在第" ++ showInteger lordNatalHouse ++ "宫提示需要释放和整合的领域。") ] in
  or_string (assoc_Z house houseThemes)
            ("第" ++ showInteger house ++ "宫年：" ++ theme).

Record Cycle := mkCycle {
  startYear : Z;
  endYear : Z;
  cycle_theme : string
}.

Record CycleAnalysis := mkCycleAnalysis {
  firstCycle : Cycle;
  secondCycle : Cycle;
  thirdCycle : Cycle;
  currentCycleNumber : Z;
  yearsIntoCurrentCycle : R
}.

Record LifeProfectionMap := mkLifeProfectionMap {
  profections : list AnnualProfection;
  currentYear : option AnnualProfection;
  upcomingYears : list AnnualProfection;
  cycleAnalysis : CycleAnalysis
}.

Record WheelEntry := mkWheelEntry {
  wheel_house : Z;
  wheel_sign : ZodiacId;
  wheel_signSymbol : string;
  wheel_lordSymbol : string;
  isCurrentYear : bool;
  wheel_theme : string
}.

Record SignificantYear := mkSignificantYear {
  sy_age : R;
  sy_year : R;
  sy_significance : string;
  sy_description : string
}.

Record ProfectionComparison := mkComparison {
  sameHouse : bool;
  sameLord : bool;
  sameSign : bool;
  similarity : R;
  comparison : string
}.

(** [===] on numbers and on a body identifier that may be [undefined]. *)
Definition eqb_number (x y : R) : bool := if Req_dec_T x y then true else false.

Definition option_PlanetId_eqb (a b : option PlanetId) : bool :=
  match a, b with
  | Some x, Some y => PlanetId_beq x y
  | None, None => true
  | _, _ => false
  end.

Section Profections.

(** [getFullYear] reads the year of a date in the time zone of the host. *)
Variable getFullYear : Date -> Z.

(** [calculateAnnualProfection]; reading [sign] of a missing house throws.
    Past that read [houseIndex] is a whole number, and [house] is kept as
    an integer. *)
Definition calculateAnnualProfection (natalChart : NatalChart) (age : R)
  : Completion AnnualProfection :=
  let houseIndex := js_rem age 12 in
  match js_index (houses natalChart) houseIndex with
  | None => Throw "TypeError"
  | Some houseCusp =>
      let house := (Math_floor houseIndex + 1)%Z in
      let sign := hc_sign houseCusp in
      let signData := findSign sign in
      let lordOfYear := option_map sign_ruler signData in
      let lordPlanet :=
        match lordOfYear with Some l => findPlanet l | None => None end in
      let lordNatalPlacement :=
        match lordOfYear with
        | Some l => find (fun p => PlanetId_beq (pl_id p) l) (planets natalChart)
        | None => None
        end in
      let houseData := findHouse house in
      let description :=
        generateProfectionDescription house
          (or_string (option_map house_theme houseData) "")
          (or_string (option_map sign_name signData) "")
          (or_string (option_map planet_name lordPlanet) "")
          (or_house (option_map pl_house lordNatalPlacement) 1)
          (or_string (option_map pl_signName lordNatalPlacement) "") in
      let birthYear := getFullYear (bd_date (birthData natalChart)) in
      Normal
        (mkProfection (IZR birthYear + age) age house
           (or_string (option_map house_name houseData)
                      ("第" ++ showInteger house ++ "宫"))
           (or_string (option_map house_theme houseData) "")
           (match houseData with Some h => house_keywords h | None => [] end)
           sign
           (or_string (option_map sign_name signData) "")
           lordOfYear
           (or_string (option_map planet_name lordPlanet) "")
           (or_string (option_map planet_symbol lordPlanet) "")
           (or_house (option_map pl_house lordNatalPlacement) 1)
           (match lordNatalPlacement with Some p => pl_sign p | None => aries end)
           description)
  end.

Definition analyzeCycles (natalChart : NatalChart) (currentAge : R) : CycleAnalysis :=
  let birthYear := getFullYear (bd_date (birthData natalChart)) in
  let currentCycleNumber := (Math_floor (currentAge / 12) + 1)%Z in
  let yearsIntoCurrentCycle := js_rem currentAge 12 in
  mkCycleAnalysis
    (mkCycle birthYear (birthYear + 11) "建立基础：形成自我认知与基本生存能力")
    (mkCycle (birthYear + 12) (birthYear + 23) "探索形成：社会化、教育与身份探索")
    (mkCycle (birthYear + 24) (birthYear + 35) "巩固实现：事业建立、关系稳定、责任承担")
    currentCycleNumber yearsIntoCurrentCycle.

(** [calculateLifeProfectionMap]; a missing [yearsToShow] is 12. *)
Definition calculateLifeProfectionMap (natalChart : NatalChart) (currentAge : R)
  (yearsToShow : option R) : Completion LifeProfectionMap :=
  let yearsToShow := match yearsToShow with Some y => y | None => 12 end in
  bind (mapM (fun age => calculateAnnualProfection natalChart (IZR (Z.of_nat age)))
             (seq 0 101)) (fun profections =>
  let currentYear := find (fun p => eqb_number (ap_age p) currentAge) profections in
  let upcomingYears :=
    filter (fun p => gtb (ap_age p) currentAge
                     && leb (ap_age p) (currentAge + yearsToShow)) profections in
  let cycleAnalysis := analyzeCycles natalChart currentAge in
  Normal (mkLifeProfectionMap profections currentYear upcomingYears cycleAnalysis)).

(** [getProfectionWheelData]; reading [sign] of a missing house throws. *)
Definition getProfectionWheelData (natalChart : NatalChart) (currentAge : R)
  : Completion (list WheelEntry) :=
  let currentHouse := js_rem currentAge 12 + 1 in
  mapM (fun i =>
          let house := (Z.of_nat i + 1)%Z in
          match nth_error (houses natalChart) i with
          | None => Throw "TypeError"
          | Some houseCusp =>
              let signData := findSign (hc_sign houseCusp) in
              let lordPlanet :=
                match option_map sign_ruler signData with
                | Some l => findPlanet l
                | None => None
                end in
              let houseData := findHouse house in
              Normal (mkWheelEntry house (hc_sign houseCusp)
                        (or_string (option_map sign_symbol signData) "")
                        (or_string (option_map planet_symbol lordPlanet) "")
                        (eqb_number (IZR house) currentHouse)
                        (or_string (option_map house_theme houseData) ""))
          end) (seq 0 12).

(** The ages that the loop [for (age = fromAge; age <= toAge; age++)]
    visits. *)
Definition agesFromTo (fromAge toAge : R) : list R :=
  if Rle_dec fromAge toAge
  then map (fun i => fromAge + IZR (Z.of_nat i))
           (seq 0 (Z.to_nat (Math_floor (toAge - fromAge) + 1)))
  else [].

Definition findSignificantProfectionYears (natalChart : NatalChart)
  (fromAge toAge : R) : Completion (list SignificantYear) :=
  let birthYear := getFullYear (bd_date (birthData natalChart)) in
  bind (mapM (fun age =>
                bind (calculateAnnualProfection natalChart age) (fun profection =>
                Normal
                  ((if existsb (Z.eqb (ap_house profection)) [1; 4; 7; 10]%Z
                    then [ mkSignificantYear age (IZR birthYear + age) "角宫年"
                             (ap_houseName profection ++ "（" ++ ap_houseTheme profection
                              ++ "）年份，通常带来更显著的外在变化和人生转折点") ]
                    else [])
                   ++ (if option_PlanetId_eqb (ap_lordOfYear profection) (Some sun)
                       then [ mkSignificantYear age (IZR birthYear + age) "太阳主宰年"
                                "自我表达和创造力的重要年份，适合追求个人目标" ]
                       else [])
                   ++ (if option_PlanetId_eqb (ap_lordOfYear profection) (Some saturn)
                       then [ mkSignificantYear age (IZR birthYear + age) "土星主宰年"
                                "结构化和责任承担的年份，可能面临限制但也能建立长久成果" ]
                       else []))%list))
             (agesFromTo fromAge toAge))
       (fun perAge => Normal (List.concat perAge)).

End Profections.

Definition compareProfectionYears (profection1 profection2 : AnnualProfection)
  : ProfectionComparison :=
  let sameHouse := (ap_house profection1 =? ap_house profection2)%Z in
  let sameLord :=
    option_PlanetId_eqb (ap_lordOfYear profection1) (ap_lordOfYear profection2) in
  let sameSign := ZodiacId_beq (ap_sign profection1) (ap_sign profection2) in
  let similarity := 0 in
  let similarity := if sameHouse then similarity + 50 else similarity in
  let similarity := if sameLord then similarity + 30 else similarity in
  let similarity := if sameSign then similarity + 20 else similarity in
  let comparison :=
    if geb similarity 80 then "这两年的主题高度相似，可以参考之前年份的经验"
    else if geb similarity 50 then "这两年有共同的主题元素，但表现方式会有所不同"
    else "这两年的主题差异较大，需要不同的应对策略" in
  mkComparison sameHouse sameLord sameSign similarity comparison.

Close Scope string_scope.

(** A profection moved to another year and age, everything else kept. *)
Definition withYearAndAge (p : AnnualProfection) (year age : R) : AnnualProfection :=
  mkProfection year age (ap_house p) (ap_houseName p) (ap_houseTheme p)
    (ap_houseKeywords p) (ap_sign p) (ap_signName p) (ap_lordOfYear p) (ap_lordName p)
    (ap_lordSymbol p) (ap_lordNatalHouse p) (ap_lordNatalSign p) (ap_description p).

(** ** data-processor: factor deduplication *)

(** The deduplication key of a factor, [type + "_" + name]. *)
Definition factorKey (f : AppliedFactor) : string :=
  (factor_type f ++ "_" ++ factor_name f)%string.

(** The loop of [deduplicateFactors]: [seen] is the set of keys met so
    far; a factor is kept when its key is new. *)
Fixpoint dedupLoop (seen : list string) (sorted : list AppliedFactor)
  : list AppliedFactor :=
  match sorted with
  | [] => []
  | factor :: rest =>
      let key := factorKey factor in
      if mem_string key seen then dedupLoop seen rest
      else factor :: dedupLoop (key :: seen) rest
  end.

Definition deduplicateFactors (factors : list AppliedFactor) : list AppliedFactor :=
  let sorted := sort_desc (fun f => Math_abs (adjustment f)) factors in
  dedupLoop [] sorted.

(** ** aspects: the score of a list of aspects *)

Record AspectScore := mkAspectScore {
  score_total : R;
  score_harmonious : R;
  score_tense : R;
  score_neutral : R
}.

(** [ASPECTS.find(a => a.id === id)]. *)
Definition findAspect (id : AspectId) : option AspectDef :=
  find (fun a => AspectId_beq (aspect_id a) id) ASPECTS.

(** One pass of the loop of [calculateAspectScore], on the three running
    sums (harmonious, tense, neutral). *)
Definition addAspectScore (acc : R * R * R) (aspect : AspectData) : R * R * R :=
  let '(harmonious, tense, neutral) := acc in
  match findAspect (aspectType aspect) with
  | None => acc
  | Some aspectDef =>
      let score := weight aspect in
      if String.eqb (aspect_harmony aspectDef) "harmonious"
      then (harmonious + score, tense, neutral)
      else if String.eqb (aspect_harmony aspectDef) "tense"
      then (harmonious, tense + score, neutral)
      else (harmonious, tense, neutral + score)
  end.

Definition calculateAspectScore (aspects : list AspectData) : AspectScore :=
  let '(harmonious, tense, neutral) := fold_left addAspectScore aspects (0, 0, 0) in
  mkAspectScore (harmonious - tense * 0.5 + neutral * 0.3) harmonious tense neutral.

(** The weights of the aspects whose type is in a list, added from 0 in
    the order of the aspects. *)
Definition weightOfTypes (types : list AspectId) (aspects : list AspectData) : R :=
  addedInOrder 0
    (map weight (filter (fun a => existsb (AspectId_beq (aspectType a)) types) aspects)).

(** ** daily-forecast: the phase of the Moon *)

Record MoonPhase := mkMoonPhase {
  mp_phase : string;
  mp_illumination : R;
  mp_angle : R
}.

(** How a call of [calculateMoonPhase] ends: with a phase, with the
    record of a NaN angle (no comparison holds, so the phase is the last
    one and the illumination is NaN), or with a thrown error.  The angle
    is NaN for the Invalid Date, whose Julian day is NaN. *)
Inductive MoonPhaseOutcome :=
| PhaseReturned (phase : MoonPhase)
| PhaseOfNaN (phase : string)
| PhaseThrown (message : string).

Definition calculateMoonPhase (date : DateValue) : MoonPhaseOutcome :=
  match date with
  | InvalidDate => PhaseOfNaN "残月"
  | ValidDate date =>
      let jd := dateToJulianDay date in
      match calculatePlanetPosition "sun" jd with
      | Thrown message => PhaseThrown message
      | sunOutcome =>
          match calculatePlanetPosition "moon" jd with
          | Thrown message => PhaseThrown message
          | moonOutcome =>
              match sunOutcome, moonOutcome with
              | Returned sunPos, Returned moonPos =>
                  let angle := normalizeAngle (longitude moonPos - longitude sunPos) in
                  let illumination := (1 - cos (angle * PI / 180)) / 2 * 100 in
                  let phase :=
                    if ltb angle 22.5 || geb angle 337.5 then "新月"
                    else if ltb angle 67.5 then "眉月"
                    else if ltb angle 112.5 then "上弦月"
                    else if ltb angle 157.5 then "盈凸月"
                    else if ltb angle 202.5 then "满月"
                    else if ltb angle 247.5 then "亏凸月"
                    else if ltb angle 292.5 then "下弦月"
                    else "残月" in
                  PhaseReturned (mkMoonPhase phase illumination angle)
              | _, _ => PhaseOfNaN "残月"
              end
          end
      end
  end%string.

(** ** binary64: the operations where rounding, NaN and infinity decide

    The few functions whose result at an ordinary input is decided by the
    rounding of binary64 or by NaN are given a second time over the
    machine numbers, under the same names. *)

Module Binary64.

(** [x % y] on binary64: NaN for a NaN operand, an infinite dividend or a
    zero divisor; the dividend for an infinite divisor or a zero dividend;
    else the exact remainder of the truncated division, which is always
    representable, with the sign of the dividend. *)
Definition js_rem (x y : float) : float :=
  match Prim2SF x, Prim2SF y with
  | S754_nan, _ | _, S754_nan => nan
  | S754_infinity _, _ => nan
  | _, S754_zero _ => nan
  | _, S754_infinity _ => x
  | S754_zero _, _ => x
  | S754_finite sx mx ex, S754_finite _ my ey =>
      let e := Z.min ex ey in
      let X := (Z.pos mx * 2 ^ (ex - e))%Z in
      let Y := (Z.pos my * 2 ^ (ey - e))%Z in
      match (X mod Y)%Z with
      | Z.pos p =>
          SF2Prim (binary_normalize prec emax (if sx then Z.neg p else Z.pos p) e false)
      | _ => if sx then (-0)%float else 0%float
      end
  end.

(** [normalizeAngle]: [angle % 360], plus 360 when negative; the sum is
    rounded. *)
Definition normalizeAngle (angle : float) : float :=
  let result := js_rem angle 360 in
  if (result <? 0)%float then (result + 360)%float else result.

(** [Math.min] and [Math.max] of two numbers: NaN when either is NaN, and
    -0 below +0. *)
Definition Math_min (x y : float) : float :=
  if is_nan x || is_nan y then nan
  else if (x <? y)%float then x
  else if (y <? x)%float then y
  else if get_sign x then x else y.

Definition Math_max (x y : float) : float :=
  if is_nan x || is_nan y then nan
  else if (x <? y)%float then y
  else if (y <? x)%float then x
  else if get_sign x then y else x.

Definition clampOverall (x : float) : float := Math_max (-100) (Math_min 100 x).
Definition clampDimension (x : float) : float := Math_max 0 (Math_min 100 x).

(** [Number.MAX_VALUE], the largest finite number. *)
Definition Number_MAX_VALUE : float := 0x1.fffffffffffffp+1023%float.

(** The adjustment [applyCustomFactors] gives one effect:
    [value * 20 * weight]. *)
Definition customAdjustment (value weight : float) : float :=
  (value * 20 * weight)%float.

(** The overall score of [applyInfluenceFactors]: the loop adds the
    adjustment of each factor whose dimension is ['overall'] to the raw
    score, in the order of the factors, and the result is clamped. *)
Definition adjustedOverall (rawOverall : float) (adjustments : list float) : float :=
  clampOverall (fold_left PrimFloat.add adjustments rawOverall).

(** A dimension score, likewise, from the adjustments of the factors that
    target the dimension. *)
Definition adjustedDimension (rawDimension : float) (adjustments : list float) : float :=
  clampDimension (fold_left PrimFloat.add adjustments rawDimension).

End Binary64.

(* ================================================================== *)
(** * Part II: properties *)
(* ================================================================== *)

(** ** Remainder and normalisation *)

Lemma Int_part_bounds (x : R) : IZR (Int_part x) <= x < IZR (Int_part x) + 1.
Proof.
  destruct (base_Int_part x) as [H1 H2]. split; lra.
Qed.

Lemma Int_part_unit (x : R) : 0 <= x < 1 -> Int_part x = 0%Z.
Proof.
  intros H. symmetry. apply Int_part_spec. simpl. lra.
Qed.

(** The remainder by a positive modulus lies strictly between [-m] and [m]
    and carries the sign of the dividend. *)
Lemma js_rem_sign (x m : R) :
  0 < m ->
  (0 <= x -> 0 <= js_rem x m < m) /\ (x < 0 -> - m < js_rem x m <= 0).
Proof.
  intros Hm. unfold js_rem, Math_trunc.
  assert (Hq : x = m * (x / m)) by (field; lra).
  split; intros Hx.
  - assert (0 <= x / m) by (apply Rmult_le_pos; [lra | left; apply Rinv_0_lt_compat; lra]).
    destruct (Rle_dec 0 (x / m)) as [_ | n]; [| lra].
    pose proof (Int_part_bounds (x / m)) as [Hl Hu].
    assert (m * IZR (Int_part (x / m)) <= m * (x / m)) by (apply Rmult_le_compat_l; lra).
    assert (m * (x / m) < m * (IZR (Int_part (x / m)) + 1)) by (apply Rmult_lt_compat_l; lra).
    lra.
  - assert (x / m < 0).
    { apply Ropp_lt_cancel. rewrite Ropp_0.
      replace (- (x / m)) with ((- x) * / m) by (unfold Rdiv; ring).
      apply Rmult_lt_0_compat; [lra | apply Rinv_0_lt_compat; lra]. }
    destruct (Rle_dec 0 (x / m)) as [n | _]; [lra |].
    pose proof (Int_part_bounds (- (x / m))) as [Hl Hu].
    rewrite opp_IZR.
    assert (m * IZR (Int_part (- (x / m))) <= m * (- (x / m))) by (apply Rmult_le_compat_l; lra).
    assert (m * (- (x / m)) < m * (IZR (Int_part (- (x / m))) + 1)) by (apply Rmult_lt_compat_l; lra).
    lra.
Qed.

Lemma js_rem_small (x m : R) : 0 <= x < m -> js_rem x m = x.
Proof.
  intros [H0 Hm]. unfold js_rem, Math_trunc.
  assert (Hq : x = m * (x / m)) by (field; lra).
  assert (0 <= x / m < 1).
  { split.
    - apply Rmult_le_pos; [lra | left; apply Rinv_0_lt_compat; lra].
    - destruct (Rlt_dec (x / m) 1) as [Hlt | Hge]; [exact Hlt |].
      assert (m * 1 <= m * (x / m)) by (apply Rmult_le_compat_l; lra). lra. }
  destruct (Rle_dec 0 (x / m)); [| lra].
  rewrite Int_part_unit by assumption. simpl. ring.
Qed.

Lemma normalizeAngle_range (a : R) : 0 <= normalizeAngle a < 360.
Proof.
  unfold normalizeAngle.
  destruct (js_rem_sign a 360 ltac:(lra)) as [Hpos Hneg].
  destruct (Rlt_dec a 0) as [Ha | Ha].
  - specialize (Hneg Ha). destruct (Rlt_dec (js_rem a 360) 0); lra.
  - specialize (Hpos ltac:(lra)). destruct (Rlt_dec (js_rem a 360) 0); lra.
Qed.

Lemma normalizeAngle_fixed (a : R) : 0 <= a < 360 -> normalizeAngle a = a.
Proof.
  intros H. unfold normalizeAngle. rewrite js_rem_small by assumption.
  destruct (Rlt_dec a 0); lra.
Qed.

(** Normalisation up to whole turns. *)

Lemma normalizeAngle_turns (x : R) : exists k : Z, normalizeAngle x = x - 360 * IZR k.
Proof.
  unfold normalizeAngle, js_rem.
  set (t := Math_trunc (x / 360)).
  destruct (Rlt_dec (x - 360 * IZR t) 0).
  - exists (t - 1)%Z. rewrite minus_IZR. lra.
  - exists t. reflexivity.
Qed.

Lemma normalizeAngle_unique (x y : R) (k : Z) :
  0 <= y < 360 -> y = x - 360 * IZR k -> normalizeAngle x = y.
Proof.
  intros Hy Hk.
  destruct (normalizeAngle_turns x) as [k' Hk'].
  pose proof (normalizeAngle_range x) as Hr.
  assert (Hd : normalizeAngle x - y = 360 * IZR (k - k')) by (rewrite minus_IZR; lra).
  assert (H1 : (k - k' < 1)%Z) by (apply lt_IZR; lra).
  assert (H2 : (-1 < k - k')%Z) by (apply lt_IZR; lra).
  assert (Hz : (k - k' = 0)%Z) by lia.
  rewrite Hz in Hd. lra.
Qed.

Lemma normalizeAngle_above (x : R) : 360 <= x < 720 -> normalizeAngle x = x - 360.
Proof.
  intros H. apply normalizeAngle_unique with 1%Z; lra.
Qed.

Lemma normalizeAngle_below (x : R) : -360 <= x < 0 -> normalizeAngle x = x + 360.
Proof.
  intros H. apply normalizeAngle_unique with (-1)%Z; lra.
Qed.

Example normalizeAngle_370 : normalizeAngle 370 = 10.
Proof. apply normalizeAngle_unique with 1%Z; lra. Qed.

Example normalizeAngle_minus_10 : normalizeAngle (-10) = 350.
Proof. apply normalizeAngle_unique with (-1)%Z; lra. Qed.

Example js_rem_minus_370 : js_rem (-370) 360 = -10.
Proof.
  unfold js_rem, Math_trunc.
  destruct (Rle_dec 0 (-370 / 360)) as [H | _]; [lra |].
  replace (Int_part (- (-370 / 360))) with 1%Z
    by (apply Int_part_spec; split; lra).
  simpl. lra.
Qed.

(** In exact arithmetic [normalizeAngle] lands in the half-open interval
    [0,360), and normalising twice is the same as normalising once. *)
Lemma normalizeAngle_range_idempotent (theta : R) :
  (0 <= normalizeAngle theta /\ normalizeAngle theta < 360) /\
  normalizeAngle (normalizeAngle theta) = normalizeAngle theta.
Proof.
  pose proof (normalizeAngle_range theta) as H.
  split; [exact H |]. apply normalizeAngle_fixed. exact H.
Qed.

(** C9, on the binary64 numbers of the code, fails at the angle -1e-20:
    the remainder by 360 is the angle itself, which is negative, and the
    sum of it and 360 rounds to exactly 360, so the result is not below
    360; normalising that result once more gives 0, a different number. *)
Theorem normalizeAngle_binary64_reaches_360 :
  Binary64.js_rem (-1e-20) 360 = (-1e-20)%float /\
  Binary64.normalizeAngle (-1e-20) = 360%float /\
  (Binary64.normalizeAngle (-1e-20) <? 360)%float = false /\
  Binary64.normalizeAngle (Binary64.normalizeAngle (-1e-20)) = 0%float.
Proof.
  repeat split; reflexivity.
Qed.

(** ** The J2000 reference instant *)

Lemma instant_J2000_civil :
  getUTCFullYear instant_J2000 = 2000%Z /\ getUTCMonth instant_J2000 = 0%Z /\
  getUTCDate instant_J2000 = 1%Z /\ getUTCHours instant_J2000 = 12%Z /\
  getUTCMinutes instant_J2000 = 0%Z /\ getUTCSeconds instant_J2000 = 0%Z.
Proof. repeat split; vm_compute; reflexivity. Qed.

Ltac floor_is z :=
  match goal with
  | |- context [Math_floor ?x] =>
      replace (Math_floor x) with z
        by (unfold Math_floor; apply Int_part_spec; split; lra)
  end.

Lemma dateToJulianDay_J2000 : dateToJulianDay instant_J2000 = 2451545.0.
Proof.
  destruct instant_J2000_civil as (Hy & Hm & Hd & Hh & Hmin & Hs).
  unfold dateToJulianDay. rewrite Hy, Hm, Hd, Hh, Hmin, Hs.
  destruct (Rle_dec (0 + 1) 2) as [_ | n]; [| lra].
  floor_is 19%Z. floor_is 4%Z. floor_is 2452653%Z. floor_is 428%Z.
  lra.
Qed.

Example dateToJulianDay_epoch : dateToJulianDay (mkDate 0) = 2440587.5.
Proof.
  unfold dateToJulianDay.
  replace (getUTCFullYear (mkDate 0)) with 1970%Z by (vm_compute; reflexivity).
  replace (getUTCMonth (mkDate 0)) with 0%Z by (vm_compute; reflexivity).
  replace (getUTCDate (mkDate 0)) with 1%Z by (vm_compute; reflexivity).
  replace (getUTCHours (mkDate 0)) with 0%Z by (vm_compute; reflexivity).
  replace (getUTCMinutes (mkDate 0)) with 0%Z by (vm_compute; reflexivity).
  replace (getUTCSeconds (mkDate 0)) with 0%Z by (vm_compute; reflexivity).
  destruct (Rle_dec (0 + 1) 2) as [_ | n]; [| lra].
  floor_is 19%Z. floor_is 4%Z. floor_is 2441696%Z. floor_is 428%Z.
  lra.
Qed.

(** Just below a full turn the sine is negative and small. *)
Lemma sin_near_full_turn (d : R) :
  0 < d < 45 -> - (d * 4 / 180) < sin ((360 - d) * DEG_TO_RAD) < 0.
Proof.
  intros [H0 H45]. unfold DEG_TO_RAD.
  pose proof PI_RGT_0 as Hpi0. pose proof PI_4 as Hpi4.
  set (x := d * (PI / 180)).
  assert (Hx0 : 0 < x) by (unfold x; apply Rmult_lt_0_compat; lra).
  assert (Hxd : x <= d * 4 / 180).
  { unfold x. replace (d * 4 / 180) with (d * (4 / 180)) by lra.
    apply Rmult_le_compat_l; lra. }
  assert (HxPI : x < PI).
  { unfold x. replace PI with (180 * (PI / 180)) at 2 by lra.
    apply Rmult_lt_compat_r; lra. }
  replace ((360 - d) * (PI / 180)) with (- x + 2 * INR 1 * PI) by (unfold x; simpl; lra).
  rewrite sin_period, sin_neg.
  pose proof (sin_gt_0 x Hx0 HxPI). pose proof (sin_lt_x x Hx0). lra.
Qed.

Lemma sun_longitude_J2000 :
  Rabs (longitude (calculateSunPosition J2000) - 280.5) < 1.
Proof.
  unfold calculateSunPosition. cbn [longitude].
  replace ((J2000 - J2000) / 36525) with 0 by lra.
  replace (280.4664567 + 36000.76983 * 0 + 0.0003032 * 0 * 0) with 280.4664567 by lra.
  replace (357.5291092 + 35999.0502909 * 0) with 357.5291092 by lra.
  rewrite (normalizeAngle_fixed 280.4664567) by lra.
  rewrite (normalizeAngle_fixed 357.5291092) by lra.
  replace 357.5291092 with (360 - 2.4708908) by lra.
  pose proof (sin_near_full_turn 2.4708908 ltac:(lra)) as Hs1.
  set (M := (360 - 2.4708908) * DEG_TO_RAD) in *.
  pose proof (SIN_bound (2 * M)) as Hs2. pose proof (SIN_bound (3 * M)) as Hs3.
  set (s1 := sin M) in *. set (s2 := sin (2 * M)) in *. set (s3 := sin (3 * M)) in *.
  rewrite normalizeAngle_fixed by lra.
  apply Rabs_def1; lra.
Qed.

(** C8: the time value [instant_J2000] is the civil timestamp
    2000-01-01T12:00:00Z; [dateToJulianDay] returns exactly 2451545.0 for
    it; and the Sun's ecliptic longitude at that Julian day is within one
    degree of 280.5. *)
Theorem known_instant_J2000 :
  (getUTCFullYear instant_J2000 = 2000%Z /\ getUTCMonth instant_J2000 = 0%Z /\
   getUTCDate instant_J2000 = 1%Z /\ getUTCHours instant_J2000 = 12%Z /\
   getUTCMinutes instant_J2000 = 0%Z /\ getUTCSeconds instant_J2000 = 0%Z) /\
  dateToJulianDay instant_J2000 = 2451545.0 /\
  Rabs (longitude (calculateSunPosition (dateToJulianDay instant_J2000)) - 280.5) < 1.
Proof.
  split; [exact instant_J2000_civil |].
  split; [exact dateToJulianDay_J2000 |].
  rewrite dateToJulianDay_J2000.
  replace 2451545.0 with J2000 by (unfold J2000; lra).
  exact sun_longitude_J2000.
Qed.

(** ** Equal houses partition the circle *)

Section EqualHouses.

Variable asc : R.
Hypothesis asc_range : 0 <= asc < 360.

Let cusps := equalHouseCusps asc.

Lemma cusp_nth_error (i : nat) :
  (i < 12)%nat -> nth_error cusps i = Some (normalizeAngle (asc + INR i * 30)).
Proof.
  intros Hi. unfold cusps, equalHouseCusps.
  do 12 (destruct i as [| i]; [reflexivity |]). lia.
Qed.

Lemma cusp_nth (i : nat) :
  (i < 12)%nat -> nth i cusps 0 = normalizeAngle (asc + INR i * 30).
Proof.
  intros Hi. apply nth_error_nth. apply cusp_nth_error. exact Hi.
Qed.

Lemma INR_below_12 (i : nat) : (i < 12)%nat -> 0 <= INR i <= 11.
Proof.
  intros Hi. split; [apply pos_INR |].
  rewrite INR_IZR_INZ. apply IZR_le. lia.
Qed.

(** Cusp [i], and the cusp after it, in closed form. *)
Lemma cusp_start (i : nat) :
  (i < 12)%nat ->
  normalizeAngle (asc + INR i * 30) =
  if Rlt_dec (asc + INR i * 30) 360 then asc + INR i * 30 else asc + INR i * 30 - 360.
Proof.
  intros Hi. pose proof (INR_below_12 i Hi).
  destruct (Rlt_dec (asc + INR i * 30) 360).
  - apply normalizeAngle_fixed. lra.
  - apply normalizeAngle_above. lra.
Qed.

Lemma cusp_next (i : nat) :
  (i < 12)%nat ->
  normalizeAngle (asc + INR ((i + 1) mod 12) * 30) =
  if Rlt_dec (asc + INR i * 30 + 30) 360
  then asc + INR i * 30 + 30 else asc + INR i * 30 + 30 - 360.
Proof.
  intros Hi. pose proof (INR_below_12 i Hi) as Hb.
  destruct (Nat.eq_dec i 11) as [-> | Hne].
  - change ((11 + 1) mod 12)%nat with 0%nat.
    replace (INR 0) with 0 by reflexivity.
    replace (INR 11) with 11 by (rewrite INR_IZR_INZ; reflexivity).
    destruct (Rlt_dec (asc + 11 * 30 + 30) 360); [lra |].
    rewrite normalizeAngle_fixed; lra.
  - rewrite Nat.mod_small by lia. rewrite plus_INR. change (INR 1) with 1.
    replace (asc + (INR i + 1) * 30) with (asc + INR i * 30 + 30) by ring.
    assert (INR i <= 10).
    { rewrite INR_IZR_INZ. apply IZR_le. lia. }
    destruct (Rlt_dec (asc + INR i * 30 + 30) 360).
    + apply normalizeAngle_fixed. lra.
    + apply normalizeAngle_above. lra.
Qed.

(** A normalised longitude passes the test of house [i + 1] exactly when
    its offset from the ascendant lies in the [i]-th span of 30 degrees. *)
Lemma inHouse_offset (L : R) (i : nat) :
  0 <= L < 360 -> (i < 12)%nat ->
  (inHouse L cusps i = true <->
   INR i * 30 <= normalizeAngle (L - asc) < INR i * 30 + 30).
Proof.
  intros HL Hi. pose proof (INR_below_12 i Hi) as Hb.
  unfold inHouse.
  rewrite (cusp_nth_error i Hi).
  rewrite (cusp_nth_error ((i + 1) mod 12)) by (apply Nat.mod_upper_bound; lia).
  rewrite (cusp_start i Hi), (cusp_next i Hi).
  assert (HD : normalizeAngle (L - asc) =
               if Rlt_dec (L - asc) 0 then L - asc + 360 else L - asc).
  { destruct (Rlt_dec (L - asc) 0).
    - apply normalizeAngle_below. lra.
    - apply normalizeAngle_fixed. lra. }
  rewrite HD. unfold geb, leb, ltb.
  destruct (Rlt_dec (asc + INR i * 30) 360);
    destruct (Rlt_dec (asc + INR i * 30 + 30) 360);
    destruct (Rlt_dec (L - asc) 0);
    repeat match goal with
           | |- context [Rlt_dec ?a ?b] => destruct (Rlt_dec a b)
           | |- context [Rle_dec ?a ?b] => destruct (Rle_dec a b)
           end;
    simpl; split; intros; try discriminate; try reflexivity; try lra.
Qed.

Lemma offset_span (D : R) :
  0 <= D < 360 -> exists i, (i < 12)%nat /\ INR i * 30 <= D < INR i * 30 + 30.
Proof.
  intros HD.
  pose proof (Int_part_bounds (D / 30)) as [Hl Hu].
  set (k := Int_part (D / 30)) in *.
  assert (Hk0 : (-1 < k)%Z) by (apply lt_IZR; lra).
  assert (Hk12 : (k < 12)%Z) by (apply lt_IZR; lra).
  exists (Z.to_nat k). split; [lia |].
  rewrite INR_IZR_INZ, Z2Nat.id by lia. lra.
Qed.

Lemma span_unique (D : R) (i j : nat) :
  INR i * 30 <= D < INR i * 30 + 30 ->
  INR j * 30 <= D < INR j * 30 + 30 -> i = j.
Proof.
  intros Hi Hj.
  assert (H1 : (i < j + 1)%nat) by (apply INR_lt; rewrite plus_INR; simpl; lra).
  assert (H2 : (j < i + 1)%nat) by (apply INR_lt; rewrite plus_INR; simpl; lra).
  lia.
Qed.

(** Each arc to the next cusp measures 30 degrees. *)
Lemma arcToNext_30 (i : nat) : (i < 12)%nat -> arcToNext cusps i = 30.
Proof.
  intros Hi. pose proof (INR_below_12 i Hi) as Hb.
  unfold arcToNext.
  rewrite (cusp_nth i Hi).
  rewrite (cusp_nth ((i + 1) mod 12)) by (apply Nat.mod_upper_bound; lia).
  rewrite (cusp_start i Hi), (cusp_next i Hi).
  destruct (Rlt_dec (asc + INR i * 30) 360);
    destruct (Rlt_dec (asc + INR i * 30 + 30) 360).
  - apply normalizeAngle_unique with 0%Z; lra.
  - apply normalizeAngle_unique with (-1)%Z; lra.
  - lra.
  - apply normalizeAngle_unique with 0%Z; lra.
Qed.

Lemma sumOfArcs_360 : sumOfArcs cusps = 360.
Proof.
  unfold sumOfArcs.
  rewrite (map_ext_in (arcToNext cusps) (fun _ => 30)).
  - simpl. lra.
  - intros i Hin. apply in_seq in Hin. apply arcToNext_30. lia.
Qed.

End EqualHouses.

Lemma find_unique {A : Type} (f : A -> bool) (l : list A) (x : A) :
  In x l -> f x = true -> (forall y, In y l -> f y = true -> y = x) ->
  find f l = Some x.
Proof.
  induction l as [| a l IH]; intros Hin Hfx Huniq; [contradiction |].
  simpl. destruct (f a) eqn:Hfa.
  - f_equal. apply Huniq; [left; reflexivity | exact Hfa].
  - destruct Hin as [-> | Hin]; [congruence |].
    apply IH; auto. intros y Hy. apply Huniq. right. exact Hy.
Qed.

(** For equal-house cusps, [getHouse] returns the one house whose test the
    longitude passes. *)
Lemma getHouse_equalHouses (asc lon : R) :
  0 <= asc < 360 ->
  exists i, (i < 12)%nat /\
    getHouse lon (equalHouseCusps asc) = (Z.of_nat i + 1)%Z /\
    forall j, (j < 12)%nat ->
      (inHouse (normalizeAngle lon) (equalHouseCusps asc) j = true <-> j = i).
Proof.
  intros Hasc.
  pose proof (normalizeAngle_range lon) as HL.
  set (L := normalizeAngle lon) in *.
  destruct (offset_span (normalizeAngle (L - asc)) (normalizeAngle_range _)) as (i & Hi & Hspan).
  assert (Hiff : forall j, (j < 12)%nat ->
                   (inHouse L (equalHouseCusps asc) j = true <-> j = i)).
  { intros j Hj. rewrite (inHouse_offset asc Hasc L j HL Hj). split.
    - intros Hspan'. exact (span_unique _ _ _ Hspan' Hspan).
    - intros ->. exact Hspan. }
  exists i. split; [exact Hi |]. split; [| exact Hiff].
  unfold getHouse. fold L.
  rewrite (find_unique _ _ i); [reflexivity | | |].
  - apply in_seq. lia.
  - apply Hiff; [exact Hi | reflexivity].
  - intros y Hy Hfy. apply in_seq in Hy. apply Hiff; [lia | exact Hfy].
Qed.

(** ** The radicand of the square root within the range of dates *)

Lemma Rabs_le_inv (a b : R) : Rabs a <= b -> - b <= a <= b.
Proof.
  unfold Rabs. destruct (Rcase_abs a); lra.
Qed.

Lemma centuries_in_range (jd : R) :
  inDateRange jd -> -2739 <= (jd - J2000) / 36525 <= 2739.
Proof.
  unfold inDateRange, J2000. intros H.
  apply Rabs_le_inv in H. split; lra.
Qed.

Lemma radicand_of_bounds (elements : OrbitalElements) (jd : R) :
  -1 <= el_e elements + el_eRate elements * ((jd - J2000) / 36525) <= 1 ->
  0 <= radicand elements jd.
Proof.
  unfold radicand. cbv zeta.
  set (e := el_e elements + el_eRate elements * ((jd - J2000) / 36525)).
  intros H. nra.
Qed.

(** Within the range of dates the eccentricity of every entry but
    Saturn's stays within 1 in magnitude. *)
Lemma radicand_nonnegative (elements : OrbitalElements) (jd : R) :
  inDateRange jd ->
  In elements [elements_mercury; elements_venus; elements_earth; elements_mars;
               elements_jupiter; elements_uranus; elements_neptune; elements_pluto] ->
  0 <= radicand elements jd.
Proof.
  intros Hjd Hin. apply centuries_in_range in Hjd.
  apply radicand_of_bounds.
  set (T := (jd - J2000) / 36525) in *.
  simpl in Hin.
  repeat (destruct Hin as [<- | Hin]; [simpl; lra |]).
  contradiction.
Qed.

(** Saturn's eccentricity leaves [-1,1] about 2067 centuries after J2000
    and about 1856 centuries before it. *)
Lemma saturn_radicand_negative (jd : R) :
  radicand elements_saturn jd < 0 <->
  (jd - J2000) / 36525 < (0.05386179 - 1) / 0.00050991 \/
  (0.05386179 + 1) / 0.00050991 < (jd - J2000) / 36525.
Proof.
  unfold radicand. cbv zeta. simpl.
  set (T := (jd - J2000) / 36525).
  assert (Hlow : (0.05386179 - 1) / 0.00050991 * 0.00050991 = 0.05386179 - 1)
    by (field; lra).
  assert (Hhigh : (0.05386179 + 1) / 0.00050991 * 0.00050991 = 0.05386179 + 1)
    by (field; lra).
  set (lo := (0.05386179 - 1) / 0.00050991) in *.
  set (hi := (0.05386179 + 1) / 0.00050991) in *.
  set (e := 0.05386179 + - 0.00050991 * T).
  assert (He : e = 0.05386179 - 0.00050991 * T) by (unfold e; lra).
  split.
  - intros H. destruct (Rlt_dec T lo) as [Hl | Hl]; [left; exact Hl |].
    right. destruct (Rlt_dec hi T) as [Hh | Hh]; [exact Hh | exfalso].
    assert (-1 <= e <= 1) by (split; nra). nra.
  - intros [H | H].
    + assert (1 < e) by nra. nra.
    + assert (e < -1) by nra. nra.
Qed.

Lemma saturn_radicand_near_J2000 (jd : R) :
  Rabs (jd - J2000) <= 36525000 -> 0 <= radicand elements_saturn jd.
Proof.
  intros H. apply Rabs_le_inv in H. apply radicand_of_bounds.
  assert (HT : -1000 <= (jd - J2000) / 36525 <= 1000) by (split; lra).
  set (T := (jd - J2000) / 36525) in *. simpl. lra.
Qed.

Lemma near_J2000_inDateRange (jd : R) :
  Rabs (jd - J2000) <= 36525000 -> inDateRange jd.
Proof.
  unfold inDateRange, J2000. intros H. apply Rabs_le_inv in H.
  apply Rabs_le. lra.
Qed.

(** The outcome for each of the twelve recognised bodies. *)
Lemma calculatePlanetPosition_PlanetId (p : PlanetId) (jd : R) :
  calculatePlanetPosition (PlanetId_string p) jd =
  match p with
  | sun => Returned (calculateSunPosition jd)
  | moon => Returned (calculateMoonPosition jd)
  | northNode => Returned (calculateNorthNodePosition jd)
  | chiron => Returned (calculateChironPosition jd)
  | mercury => if Rlt_dec (radicand elements_mercury jd) 0 then ReturnedNaN
               else Returned (keplerianPosition elements_mercury jd)
  | venus => if Rlt_dec (radicand elements_venus jd) 0 then ReturnedNaN
             else Returned (keplerianPosition elements_venus jd)
  | mars => if Rlt_dec (radicand elements_mars jd) 0 then ReturnedNaN
            else Returned (keplerianPosition elements_mars jd)
  | jupiter => if Rlt_dec (radicand elements_jupiter jd) 0 then ReturnedNaN
               else Returned (keplerianPosition elements_jupiter jd)
  | saturn => if Rlt_dec (radicand elements_saturn jd) 0 then ReturnedNaN
              else Returned (keplerianPosition elements_saturn jd)
  | uranus => if Rlt_dec (radicand elements_uranus jd) 0 then ReturnedNaN
              else Returned (keplerianPosition elements_uranus jd)
  | neptune => if Rlt_dec (radicand elements_neptune jd) 0 then ReturnedNaN
               else Returned (keplerianPosition elements_neptune jd)
  | pluto => if Rlt_dec (radicand elements_pluto jd) 0 then ReturnedNaN
             else Returned (keplerianPosition elements_pluto jd)
  end.
Proof.
  destruct p; reflexivity.
Qed.

(** A recognised body never makes the call throw. *)
Lemma planet_position_not_thrown (p : PlanetId) (jd : R) (message : string) :
  calculatePlanetPosition (PlanetId_string p) jd <> Thrown message.
Proof.
  rewrite calculatePlanetPosition_PlanetId.
  destruct p; try discriminate;
    match goal with |- context [Rlt_dec ?x 0] => destruct (Rlt_dec x 0) end;
    discriminate.
Qed.

(** Within the range of dates, a recognised body has a position unless it
    is Saturn with a negative radicand, which has a record of NaN. *)
Lemma planet_position_cases (p : PlanetId) (jd : R) :
  inDateRange jd ->
  (~ (p = saturn /\ radicand elements_saturn jd < 0) /\
   exists pos, calculatePlanetPosition (PlanetId_string p) jd = Returned pos) \/
  (p = saturn /\ radicand elements_saturn jd < 0 /\
   calculatePlanetPosition (PlanetId_string p) jd = ReturnedNaN).
Proof.
  intros Hjd. rewrite calculatePlanetPosition_PlanetId.
  destruct p;
    try (left; split; [intros [H _]; discriminate H | eexists; reflexivity]);
    try (match goal with
         | |- context [Rlt_dec (radicand ?el jd) 0] =>
             pose proof (radicand_nonnegative el jd Hjd ltac:(simpl; tauto)) as Hr;
             destruct (Rlt_dec (radicand el jd) 0) as [Hn | _]; [lra |];
             left; split; [intros [H _]; discriminate H | eexists; reflexivity]
         end).
  destruct (Rlt_dec (radicand elements_saturn jd) 0) as [Hn | Hn].
  - right. repeat split. exact Hn.
  - left. split; [intros [_ H]; exact (Hn H) | eexists; reflexivity].
Qed.

(** No more than a thousand centuries from J2000 every recognised body has
    a position. *)
Lemma planet_position_returned (p : PlanetId) (jd : R) :
  Rabs (jd - J2000) <= 36525000 ->
  exists pos, calculatePlanetPosition (PlanetId_string p) jd = Returned pos.
Proof.
  intros H.
  destruct (planet_position_cases p jd (near_J2000_inDateRange jd H))
    as [[_ Hpos] | (_ & Hn & _)]; [exact Hpos |].
  pose proof (saturn_radicand_near_J2000 jd H). lra.
Qed.

(** ** Inverting a completed computation *)

Lemma bind_Normal {A B : Type} (c : Completion A) (k : A -> Completion B) (b : B) :
  bind c k = Normal b -> exists a, c = Normal a /\ k a = Normal b.
Proof.
  destruct c as [a | m]; simpl; intros H; [eauto | discriminate H].
Qed.

Lemma mapM_Normal {A B : Type} (f : A -> Completion B) (l : list A) (ys : list B) :
  mapM f l = Normal ys -> Forall2 (fun x y => f x = Normal y) l ys.
Proof.
  revert ys. induction l as [| x l IH]; intros ys H; simpl in H.
  - injection H as <-. constructor.
  - apply bind_Normal in H. destruct H as (y & Hy & H).
    apply bind_Normal in H. destruct H as (ys' & Hys & H).
    injection H as <-. constructor; [exact Hy | apply IH; exact Hys].
Qed.

Lemma Forall2_in_r {A B : Type} (P : A -> B -> Prop) (l : list A) (ys : list B) (y : B) :
  Forall2 P l ys -> In y ys -> exists x, In x l /\ P x y.
Proof.
  induction 1 as [| x y' l ys Hxy _ IH]; intros Hin; [contradiction |].
  destruct Hin as [<- | Hin]; [exists x; split; [left; reflexivity | exact Hxy] |].
  destruct (IH Hin) as (x' & Hx' & HP). exists x'. split; [right; exact Hx' | exact HP].
Qed.

Lemma Forall2_in_l {A B : Type} (P : A -> B -> Prop) (l : list A) (ys : list B) (x : A) :
  Forall2 P l ys -> In x l -> exists y, In y ys /\ P x y.
Proof.
  induction 1 as [| x' y l ys Hxy _ IH]; intros Hin; [contradiction |].
  destruct Hin as [<- | Hin]; [exists y; split; [left; reflexivity | exact Hxy] |].
  destruct (IH Hin) as (y' & Hy' & HP). exists y'. split; [right; exact Hy' | exact HP].
Qed.

Lemma Forall2_map_eq {A B C : Type} (P : A -> B -> Prop) (g : B -> C) (h : A -> C)
  (l : list A) (ys : list B) :
  Forall2 P l ys -> (forall x y, P x y -> g y = h x) -> map g ys = map h l.
Proof.
  induction 1 as [| x y l ys Hxy _ IH]; intros Hgh; [reflexivity |].
  simpl. rewrite (Hgh x y Hxy), (IH Hgh). reflexivity.
Qed.

(** ** The natal chart *)

Lemma mapM_map {A B C : Type} (f : A -> Completion B) (g : B -> C) (h : A -> C)
  (P : B -> Prop) (l : list A) :
  (forall x, In x l -> exists y, f x = Normal y /\ g y = h x /\ P y) ->
  exists ys, mapM f l = Normal ys /\ map g ys = map h l /\ Forall P ys.
Proof.
  induction l as [| x l IH]; intros H.
  - exists []. repeat split. constructor.
  - destruct (H x (or_introl eq_refl)) as (y & Hy & Hg & HP).
    destruct IH as (ys & Hys & Hmap & HF).
    { intros x' Hin. apply H. right. exact Hin. }
    exists (y :: ys). simpl. rewrite Hy. simpl. rewrite Hys. simpl.
    repeat split; [congruence | constructor; assumption].
Qed.

Lemma getZodiacSign_total (lon : R) : exists s, getZodiacSign lon = Some s.
Proof.
  unfold getZodiacSign, Math_floor.
  pose proof (normalizeAngle_range lon) as Hr.
  pose proof (Int_part_bounds (normalizeAngle lon / 30)) as [Hl Hu].
  set (k := Int_part (normalizeAngle lon / 30)) in *.
  assert (Hk0 : (-1 < k)%Z) by (apply lt_IZR; lra).
  assert (Hk12 : (k < 12)%Z) by (apply lt_IZR; lra).
  destruct (Z.ltb_spec k 0) as [Hneg | _]; [lia |].
  destruct (nth_error ZODIAC_SIGNS (Z.to_nat k)) as [s |] eqn:Hn; [eauto |].
  apply nth_error_None in Hn. simpl in Hn. lia.
Qed.

Lemma placePlanet_Normal (jd : R) (houseCusps : list R) (planet : Planet)
  (y : PlanetPlacement * PlanetPosition) :
  placePlanet jd houseCusps planet = Normal y ->
  exists position sign,
    calculatePlanetPosition (PlanetId_string (planet_id planet)) jd = Returned position /\
    getZodiacSign (longitude position) = Some sign /\
    y = (mkPlacement (planet_id planet) (planet_name planet) (planet_symbol planet)
                     (longitude position) (latitude position)
                     (sign_id sign) (sign_name sign) (sign_symbol sign)
                     (getSignDegree (longitude position))
                     (getHouse (longitude position) houseCusps) false
                     (calculateDignity (planet_id planet) (sign_id sign)),
         mkPlanetPosition (planet_id planet) (longitude position) (latitude position)
                          None).
Proof.
  unfold placePlanet.
  destruct (calculatePlanetPosition _ jd) as [position | | m]; try discriminate.
  destruct (getZodiacSign (longitude position)) as [sign |] eqn:Hs; [| discriminate].
  intros H. injection H as <-. exists position, sign. repeat split. exact Hs.
Qed.

Lemma placePlanet_normal (jd : R) (houseCusps : list R) (planet : Planet) :
  Rabs (jd - J2000) <= 36525000 ->
  exists y, placePlanet jd houseCusps planet = Normal y.
Proof.
  intros Hjd. unfold placePlanet.
  destruct (planet_position_returned (planet_id planet) jd Hjd) as [position ->].
  destruct (getZodiacSign_total (longitude position)) as [s ->].
  eexists. reflexivity.
Qed.

Lemma houseOfCusp_Normal (index : nat) (cusp : R) (h : HouseCusp) :
  houseOfCusp index cusp = Normal h ->
  exists sign, getZodiacSign cusp = Some sign /\
    h = mkHouseCusp (Z.of_nat index + 1) cusp (sign_id sign) (getSignDegree cusp).
Proof.
  unfold houseOfCusp. destruct (getZodiacSign cusp) as [sign |]; [| discriminate].
  intros H. injection H as <-. eauto.
Qed.

Lemma houseOfCusp_normal (ic : nat * R) :
  exists h, houseOfCusp (fst ic) (snd ic) = Normal h /\
    hc_longitude h = snd ic /\ hc_house h = (Z.of_nat (fst ic) + 1)%Z.
Proof.
  unfold houseOfCusp.
  destruct (getZodiacSign_total (snd ic)) as [s ->].
  eexists. repeat split.
Qed.

Lemma calculateAscendant_range (jd lat lon : R) :
  0 <= calculateAscendant jd lat lon < 360.
Proof.
  unfold calculateAscendant. apply normalizeAngle_range.
Qed.

(** The parts of a returned chart. *)
Lemma calculateNatalChart_Normal (bd : BirthData) (chart : NatalChart) :
  calculateNatalChart bd = Normal chart ->
  exists placed hs ascSign,
    mapM (placePlanet (dateToJulianDay (bd_date bd))
            (equalHouseCusps
               (calculateAscendant (dateToJulianDay (bd_date bd))
                  (bd_latitude bd) (bd_longitude bd))))
         PLANETS = Normal placed /\
    mapM (fun ic => houseOfCusp (fst ic) (snd ic))
         (combine (seq 0 12)
            (equalHouseCusps
               (calculateAscendant (dateToJulianDay (bd_date bd))
                  (bd_latitude bd) (bd_longitude bd)))) = Normal hs /\
    getZodiacSign (calculateAscendant (dateToJulianDay (bd_date bd))
                     (bd_latitude bd) (bd_longitude bd)) = Some ascSign /\
    birthData chart = bd /\
    julianDay chart = dateToJulianDay (bd_date bd) /\
    planets chart = map fst placed /\
    houses chart = hs /\
    ascendant chart = calculateAscendant (dateToJulianDay (bd_date bd))
                        (bd_latitude bd) (bd_longitude bd) /\
    midheaven chart = calculateMidheaven (dateToJulianDay (bd_date bd))
                        (bd_longitude bd) /\
    aspects chart = calculateAllAspects (map snd placed) defaultAspectTypes /\
    (elementBalance chart, modalityBalance chart) = tallyBalance (map fst placed) /\
    dominantPlanets chart =
      map fst (firstn 3 (sort_desc snd
                           (map (planetScore (calculateAllAspects (map snd placed)
                                                defaultAspectTypes))
                                (map fst placed)))) /\
    chartRuler chart = sign_ruler ascSign.
Proof.
  unfold calculateNatalChart, calculateHouseCusps. cbv zeta.
  intros H.
  apply bind_Normal in H. destruct H as (placed & Hplaced & H).
  apply bind_Normal in H. destruct H as (hs & Hhs & H).
  destruct (getZodiacSign _) as [ascSign |] eqn:Hsign; [| discriminate H].
  injection H as <-.
  exists placed, hs, ascSign. cbn.
  repeat split; try assumption.
  destruct (tallyBalance (map fst placed)); reflexivity.
Qed.

(** No more than a thousand centuries from J2000 the chart is returned. *)
Lemma calculateNatalChart_returns (bd : BirthData) :
  Rabs (dateToJulianDay (bd_date bd) - J2000) <= 36525000 ->
  exists chart, calculateNatalChart bd = Normal chart.
Proof.
  intros Hjd. unfold calculateNatalChart, calculateHouseCusps.
  set (jd := dateToJulianDay (bd_date bd)) in *.
  set (asc := calculateAscendant jd (bd_latitude bd) (bd_longitude bd)) in *.
  set (houseCusps := equalHouseCusps asc).
  destruct (mapM_map (placePlanet jd houseCusps) (fun _ => tt) (fun _ => tt)
              (fun _ => True) PLANETS) as (placed & -> & _).
  { intros x _. destruct (placePlanet_normal jd houseCusps x Hjd) as (y & Hy). eauto. }
  destruct (mapM_map (fun ic => houseOfCusp (fst ic) (snd ic)) hc_longitude snd
              (fun _ => True)
              (combine (seq 0 (List.length houseCusps)) houseCusps))
    as (hs & -> & _).
  { intros ic _. destruct (houseOfCusp_normal ic) as (h & Hh & Hl & _). eauto. }
  destruct (getZodiacSign_total asc) as [ascSign Hs].
  cbn [bind]. rewrite Hs. eauto.
Qed.

Lemma map_fst_combine {A B : Type} (l : list A) (l' : list B) :
  List.length l = List.length l' -> map fst (combine l l') = l.
Proof.
  revert l'. induction l as [| x l IH]; intros [| y l'] H; try discriminate H.
  - reflexivity.
  - simpl. f_equal. apply IH. injection H as H. exact H.
Qed.

Lemma map_snd_combine {A B : Type} (l : list A) (l' : list B) :
  List.length l = List.length l' -> map snd (combine l l') = l'.
Proof.
  revert l'. induction l as [| x l IH]; intros [| y l'] H; try discriminate H.
  - reflexivity.
  - simpl. f_equal. apply IH. injection H as H. exact H.
Qed.

(** The houses of a returned chart carry the cusps in order. *)
Lemma houses_of_cusps (cusps : list R) (hs : list HouseCusp) :
  mapM (fun ic => houseOfCusp (fst ic) (snd ic))
       (combine (seq 0 (List.length cusps)) cusps) = Normal hs ->
  map hc_longitude hs = cusps /\
  map hc_house hs = map (fun i => (Z.of_nat i + 1)%Z) (seq 0 (List.length cusps)).
Proof.
  intros H. apply mapM_Normal in H.
  assert (Hlen : List.length (seq 0 (List.length cusps)) = List.length cusps)
    by apply length_seq.
  split.
  - rewrite (Forall2_map_eq _ hc_longitude snd _ _ H).
    + apply map_snd_combine. exact Hlen.
    + intros [i c] h Hh. apply houseOfCusp_Normal in Hh.
      destruct Hh as (sign & _ & ->). reflexivity.
  - rewrite (Forall2_map_eq _ hc_house (fun ic => (Z.of_nat (fst ic) + 1)%Z) _ _ H).
    + rewrite <- (map_map fst (fun i => (Z.of_nat i + 1)%Z)).
      rewrite map_fst_combine; [reflexivity | exact Hlen].
    + intros [i c] h Hh. apply houseOfCusp_Normal in Hh.
      destruct Hh as (sign & _ & ->). reflexivity.
Qed.

(** C6: in every chart [calculateNatalChart] returns, the twelve house
    cusps are the ascendant plus successive multiples of 30 degrees,
    normalised; the arcs from each cusp to the next sum to exactly 360
    degrees; and every planet's longitude passes the test of exactly one of
    the twelve houses, which is the house [getHouse] assigned to it. *)
Theorem natal_chart_house_partition (bd : BirthData) (chart : NatalChart) :
  calculateNatalChart bd = Normal chart ->
  let cusps := map hc_longitude (houses chart) in
  cusps = map (fun i => normalizeAngle (ascendant chart + INR i * 30)) (seq 0 12) /\
  sumOfArcs cusps = 360 /\
  forall p, In p (planets chart) ->
    exists i, (i < 12)%nat /\
      pl_house p = (Z.of_nat i + 1)%Z /\
      pl_house p = getHouse (pl_longitude p) cusps /\
      forall j, (j < 12)%nat ->
        (inHouse (normalizeAngle (pl_longitude p)) cusps j = true <-> j = i).
Proof.
  intros Hchart.
  destruct (calculateNatalChart_Normal bd chart Hchart)
    as (placed & hs & ascSign & Hplaced & Hhs & _ & _ & _ & Hp & Hh & Ha & _).
  set (jd := dateToJulianDay (bd_date bd)) in *.
  pose proof (calculateAscendant_range jd (bd_latitude bd) (bd_longitude bd)) as Hasc.
  set (asc := calculateAscendant jd (bd_latitude bd) (bd_longitude bd)) in *.
  cbv zeta. rewrite Hp, Hh, Ha.
  destruct (houses_of_cusps (equalHouseCusps asc) hs Hhs) as [Hcusps _].
  rewrite Hcusps. split; [reflexivity |].
  split; [apply sumOfArcs_360; exact Hasc |].
  intros p Hin. apply in_map_iff in Hin. destruct Hin as (y & <- & Hy).
  apply mapM_Normal in Hplaced.
  destruct (Forall2_in_r _ _ _ y Hplaced Hy) as (planet & _ & Hpl).
  apply placePlanet_Normal in Hpl. destruct Hpl as (position & sign & _ & _ & ->).
  cbn [fst pl_house pl_longitude].
  destruct (getHouse_equalHouses asc (longitude position) Hasc) as (i & Hi & Hg & Hiff).
  exists i. split; [exact Hi |].
  repeat split; auto; apply Hiff; auto.
Qed.

(** The chart of the J2000 instant is returned. *)
Lemma chart_of_J2000_returned (lat lon : R) :
  exists chart,
    calculateNatalChart (mkBirthData instant_J2000 lat lon "UTC" None) = Normal chart.
Proof.
  apply calculateNatalChart_returns. cbn [bd_date].
  rewrite dateToJulianDay_J2000. unfold J2000.
  replace (2451545.0 - 2451545.0) with 0 by lra. rewrite Rabs_R0. lra.
Qed.

Lemma natal_chart_house_partition_witness :
  exists chart,
    calculateNatalChart (mkBirthData instant_J2000 0 0 "UTC" None) = Normal chart /\
    let cusps := map hc_longitude (houses chart) in
    cusps = map (fun i => normalizeAngle (ascendant chart + INR i * 30)) (seq 0 12) /\
    sumOfArcs cusps = 360 /\
    forall p, In p (planets chart) ->
      exists i, (i < 12)%nat /\
        pl_house p = (Z.of_nat i + 1)%Z /\
        pl_house p = getHouse (pl_longitude p) cusps /\
        forall j, (j < 12)%nat ->
          (inHouse (normalizeAngle (pl_longitude p)) cusps j = true <-> j = i).
Proof.
  destruct (chart_of_J2000_returned 0 0) as [chart Hchart].
  exists chart. split; [exact Hchart |].
  apply (natal_chart_house_partition
           (mkBirthData instant_J2000 0 0 "UTC" None) chart Hchart).
Defined.

(** ** Aspect detection in the two orders *)

Lemma angleDifference_sym (a b : R) : angleDifference a b = angleDifference b a.
Proof.
  unfold angleDifference, Math_abs.
  pose proof (normalizeAngle_range a). pose proof (normalizeAngle_range b).
  set (x := normalizeAngle a) in *. set (y := normalizeAngle b) in *.
  repeat match goal with
         | |- context [Rlt_dec ?u ?v] => destruct (Rlt_dec u v)
         end;
    unfold Rabs;
    repeat match goal with
           | |- context [Rcase_abs ?u] => destruct (Rcase_abs u)
           end; lra.
Qed.

(** The reverse offset is the complement of the forward one. *)
Lemma normalizeAngle_reverse (a b : R) :
  normalizeAngle (a - b) =
  if Req_dec_T (normalizeAngle (b - a)) 0 then 0 else 360 - normalizeAngle (b - a).
Proof.
  destruct (normalizeAngle_turns (b - a)) as [k Hk].
  pose proof (normalizeAngle_range (b - a)) as Hr.
  destruct (Req_dec_T (normalizeAngle (b - a)) 0) as [Hz | Hnz].
  - apply normalizeAngle_unique with (- k)%Z; [lra |]. rewrite opp_IZR. lra.
  - apply normalizeAngle_unique with (- k - 1)%Z; [lra |].
    rewrite minus_IZR, opp_IZR. lra.
Qed.

Ltac decide_reals :=
  repeat match goal with
         | |- context [Rlt_dec ?u ?v] => destruct (Rlt_dec u v)
         | |- context [Rle_dec ?u ?v] => destruct (Rle_dec u v)
         | |- context [Req_dec_T ?u ?v] => destruct (Req_dec_T u v)
         end.

(** The direction flag of the two orders, for known speeds. *)
Lemma direction_swap (d speed1 speed2 : R) :
  0 <= d < 360 ->
  let d' := if Req_dec_T d 0 then 0 else 360 - d in
  let fwd := (ltb d 180 && gtb (speed1 - speed2) 0)
             || (geb d 180 && ltb (speed1 - speed2) 0) in
  let bwd := (ltb d' 180 && gtb (speed2 - speed1) 0)
             || (geb d' 180 && ltb (speed2 - speed1) 0) in
  if Req_dec_T speed1 speed2 then bwd = fwd
  else if Req_dec_T d 0 then bwd = negb fwd
  else if Req_dec_T d 180 then bwd = negb fwd
  else bwd = fwd.
Proof.
  intros Hd. cbv zeta. unfold geb, gtb, leb, ltb.
  decide_reals; simpl; try reflexivity; try lra.
Qed.

(** C7, as amended: detection in the two orders succeeds or fails together
    and, when it succeeds, yields the same aspect type, exact and actual
    angle, orb, strength and weight, with the two bodies exchanged.  The
    direction flag is [true] in both orders when a speed is missing; with
    both speeds known it is the same in both orders, except that it flips
    when the speeds differ and the bodies are exactly 0 or 180 degrees
    apart. *)
Theorem detectAspect_swap (p1 p2 : PlanetPosition) (aspectDef : AspectDef) :
  match detectAspect p1 p2 aspectDef, detectAspect p2 p1 aspectDef with
  | Some a, Some b =>
      (planet1 b = planet2 a /\ planet2 b = planet1 a) /\
      sameGeometry a b /\
      match pp_speed p1, pp_speed p2 with
      | Some speed1, Some speed2 =>
          let d := normalizeAngle (pp_longitude p2 - pp_longitude p1) in
          if Req_dec_T speed1 speed2 then applying b = applying a
          else if Req_dec_T d 0 then applying b = negb (applying a)
          else if Req_dec_T d 180 then applying b = negb (applying a)
          else applying b = applying a
      | _, _ => applying a = true /\ applying b = true
      end
  | None, None => True
  | _, _ => False
  end.
Proof.
  unfold detectAspect.
  rewrite (angleDifference_sym (pp_longitude p2) (pp_longitude p1)).
  set (orb0 := Math_abs (angleDifference (pp_longitude p1) (pp_longitude p2)
                         - aspect_angle aspectDef)).
  destruct (Rle_dec orb0 (aspect_orb aspectDef)); [| exact I].
  cbn [planet1 planet2 applying].
  split; [split; reflexivity |].
  split.
  - unfold sameGeometry. cbn. repeat split. lra.
  - destruct (pp_speed p1) as [speed1 |], (pp_speed p2) as [speed2 |];
      try (split; reflexivity).
    cbv zeta.
    rewrite (normalizeAngle_reverse (pp_longitude p1) (pp_longitude p2)).
    exact (direction_swap _ speed1 speed2 (normalizeAngle_range _)).
Qed.

Lemma angleDifference_0_5 : angleDifference 0 5 = 5.
Proof.
  unfold angleDifference, Math_abs.
  rewrite (normalizeAngle_fixed 0), (normalizeAngle_fixed 5) by lra.
  decide_reals; try lra. rewrite Rabs_left; lra.
Qed.

(** C7, as stated, fails: with the Sun at 0 degrees moving one degree a
    day and the Moon at 5 degrees standing still, the conjunction is
    detected in both orders and is applying in both, so the direction does
    not flip. *)
Lemma direction_does_not_flip : ~ swapFlipsDirection sun_at_0 moon_at_5 conjunctionDef.
Proof.
  unfold swapFlipsDirection, detectAspect, sun_at_0, moon_at_5, conjunctionDef.
  cbn [pp_longitude pp_speed pp_id aspect_angle aspect_orb aspect_weight aspect_id].
  rewrite (angleDifference_sym 5 0), angleDifference_0_5.
  replace (5 - 0) with 5 by lra. replace (0 - 5) with (-5) by lra.
  rewrite (normalizeAngle_fixed 5) by lra.
  rewrite (normalizeAngle_below (-5)) by lra.
  unfold Math_abs. rewrite (Rabs_right 5) by lra.
  destruct (Rle_dec 5 10) as [_ | n]; [| lra].
  cbn [applying]. unfold geb, gtb, leb, ltb.
  decide_reals; simpl; try lra; intros [_ H]; discriminate H.
Qed.

(** ** Outcomes of [calculatePlanetPosition] *)

Lemma PlanetId_strings_spec :
  PlanetId_strings =
  map PlanetId_string
      [sun; moon; mercury; venus; mars; jupiter; saturn;
       uranus; neptune; pluto; northNode; chiron]
  /\ PlanetId_strings = map (fun p => PlanetId_string (planet_id p)) PLANETS.
Proof. split; reflexivity. Qed.

Lemma mem_string_In (k : string) (l : list string) :
  mem_string k l = true <-> In k l.
Proof.
  unfold mem_string. rewrite existsb_exists. split.
  - intros (x & Hin & Heq). apply String.eqb_eq in Heq. subst. exact Hin.
  - intros Hin. exists k. split; [exact Hin | apply String.eqb_refl].
Qed.

Lemma isPlanetId_true (planetId : string) :
  isPlanetId planetId = true -> exists p, planetId = PlanetId_string p.
Proof.
  unfold isPlanetId. rewrite mem_string_In.
  destruct PlanetId_strings_spec as [-> _]. rewrite in_map_iff.
  intros (p & <- & _). exists p. reflexivity.
Qed.

Lemma earth_position (jd : R) :
  calculatePlanetPosition "earth" jd =
  if Rlt_dec (radicand elements_earth jd) 0 then ReturnedNaN
  else Returned (keplerianPosition elements_earth jd).
Proof. reflexivity. Qed.

Lemma earth_position_returned (jd : R) :
  inDateRange jd ->
  calculatePlanetPosition "earth" jd = Returned (keplerianPosition elements_earth jd).
Proof.
  intros Hjd. rewrite earth_position.
  pose proof (radicand_nonnegative elements_earth jd Hjd ltac:(simpl; tauto)) as Hr.
  destruct (Rlt_dec (radicand elements_earth jd) 0); [lra | reflexivity].
Qed.

Lemma PlanetId_string_saturn (p : PlanetId) :
  PlanetId_string p = "saturn"%string <-> p = saturn.
Proof.
  split; [| intros ->; reflexivity].
  destruct p; intros H; try discriminate H; reflexivity.
Qed.

Lemma inherited_member_NaN (planetId : string) (jd : R) :
  mem_string planetId Object_prototype_names = true ->
  calculatePlanetPosition planetId jd = ReturnedNaN.
Proof.
  rewrite mem_string_In. unfold Object_prototype_names. simpl.
  intros H. repeat (destruct H as [<- | H]; [reflexivity |]). contradiction.
Qed.

Lemma mem_string_cons_false (k x : string) (l : list string) :
  mem_string k (x :: l) = false -> String.eqb k x = false /\ mem_string k l = false.
Proof.
  unfold mem_string. simpl. apply orb_false_elim.
Qed.

Lemma unknown_thrown (planetId : string) (jd : R) :
  isPlanetId planetId = false -> planetId <> "earth"%string ->
  mem_string planetId Object_prototype_names = false ->
  calculatePlanetPosition planetId jd = Thrown ("Unknown planet: " ++ planetId).
Proof.
  unfold isPlanetId, PlanetId_strings. intros Hp He Hi.
  apply String.eqb_neq in He.
  repeat match type of Hp with
         | mem_string _ (_ :: _) = false =>
             apply mem_string_cons_false in Hp; destruct Hp as [? Hp]
         end.
  unfold calculatePlanetPosition, ORBITAL_ELEMENTS, ORBITAL_ELEMENTS_own.
  cbn [assoc].
  repeat match goal with
         | H : String.eqb planetId _ = false |- _ => rewrite H; clear H
         end.
  rewrite Hi. reflexivity.
Qed.

(** C4, as amended: for an identifier that is not the name of a member
    every object inherits, the call throws, with the message
    "Unknown planet: " followed by the identifier, exactly when the
    identifier is none of the twelve recognised bodies and is not "earth",
    which has an entry in the table of orbital elements.  For the Julian
    day of a date, the call returns a record of NaN exactly for "saturn"
    on the days for which Saturn's eccentricity has left [-1,1], so that
    the radicand of the square root is negative; and it returns a position
    in every other case of a recognised body or of "earth". *)
Theorem calculatePlanetPosition_outcomes (planetId : string) (jd : R) :
  mem_string planetId Object_prototype_names = false ->
  ((exists message, calculatePlanetPosition planetId jd = Thrown message) <->
   (isPlanetId planetId = false /\ planetId <> "earth"%string)) /\
  (forall message, calculatePlanetPosition planetId jd = Thrown message ->
                   message = ("Unknown planet: " ++ planetId)%string) /\
  (inDateRange jd ->
   (calculatePlanetPosition planetId jd = ReturnedNaN <->
    (planetId = "saturn"%string /\ radicand elements_saturn jd < 0)) /\
   ((exists pos, calculatePlanetPosition planetId jd = Returned pos) <->
    ((isPlanetId planetId = true \/ planetId = "earth"%string) /\
     ~ (planetId = "saturn"%string /\ radicand elements_saturn jd < 0)))).
Proof.
  intros Hi.
  destruct (isPlanetId planetId) eqn:Hp.
  - destruct (isPlanetId_true _ Hp) as [p ->].
    split; [| split].
    + split; [| intros (H & _); discriminate H].
      intros [m H]. exfalso. exact (planet_position_not_thrown p jd m H).
    + intros m H. exfalso. exact (planet_position_not_thrown p jd m H).
    + intros Hjd.
      destruct (planet_position_cases p jd Hjd)
        as [(Hnot & pos & Hpos) | (Hsat & Hneg & Hnan)].
      * rewrite Hpos. split.
        -- split; [intros H; discriminate H |].
           intros [Hs Hr]. exfalso. apply Hnot.
           split; [apply PlanetId_string_saturn; exact Hs | exact Hr].
        -- split; [| intros _; eauto].
           intros _. split; [left; reflexivity |].
           intros [Hs Hr]. apply Hnot.
           split; [apply PlanetId_string_saturn; exact Hs | exact Hr].
      * rewrite Hnan. subst p. split.
        -- split; [intros _; split; [reflexivity | exact Hneg] | reflexivity].
        -- split; [intros [pos H]; discriminate H |].
           intros [_ Hnot]. exfalso. apply Hnot. split; [reflexivity | exact Hneg].
  - destruct (String.eqb_spec planetId "earth") as [-> | He].
    + split; [| split].
      * rewrite earth_position.
        split; [| intros (_ & H); congruence].
        intros [m H]. destruct (Rlt_dec (radicand elements_earth jd) 0); discriminate H.
      * rewrite earth_position. intros m H.
        destruct (Rlt_dec (radicand elements_earth jd) 0); discriminate H.
      * intros Hjd. rewrite (earth_position_returned jd Hjd). split.
        -- split; [intros H; discriminate H | intros [H _]; discriminate H].
        -- split; [| intros _; eauto].
           intros _. split; [right; reflexivity | intros [H _]; discriminate H].
    + rewrite (unknown_thrown _ jd Hp He Hi). split; [| split].
      * split; [intros _; auto | intros _; eauto].
      * intros m H. congruence.
      * intros _. split.
        -- split; [intros H; discriminate H |].
           intros [Hs _]. subst planetId. discriminate Hp.
        -- split; [intros [pos H]; discriminate H |].
           intros [[H | H] _]; [discriminate H | contradiction].
Qed.

Lemma calculatePlanetPosition_outcomes_witness :
  mem_string "saturn" Object_prototype_names = false /\
  ((exists message, calculatePlanetPosition "saturn" J2000 = Thrown message) <->
   (isPlanetId "saturn" = false /\ "saturn"%string <> "earth"%string)) /\
  (forall message, calculatePlanetPosition "saturn" J2000 = Thrown message ->
                   message = ("Unknown planet: " ++ "saturn")%string) /\
  (inDateRange J2000 ->
   (calculatePlanetPosition "saturn" J2000 = ReturnedNaN <->
    ("saturn"%string = "saturn"%string /\ radicand elements_saturn J2000 < 0)) /\
   ((exists pos, calculatePlanetPosition "saturn" J2000 = Returned pos) <->
    ((isPlanetId "saturn" = true \/ "saturn"%string = "earth"%string) /\
     ~ ("saturn"%string = "saturn"%string /\ radicand elements_saturn J2000 < 0)))).
Proof.
  split; [reflexivity |].
  apply (calculatePlanetPosition_outcomes "saturn" J2000). reflexivity.
Defined.

(** On the Julian day of the time value 6.6e15, which a date can hold,
    the call returns a record of NaN for Saturn, and on the day of J2000
    it returns a position. *)
Lemma saturn_position_far_future :
  inDateRange (2440587.5 + 6600000000000000 / 86400000) /\
  calculatePlanetPosition "saturn" (2440587.5 + 6600000000000000 / 86400000)
  = ReturnedNaN /\
  calculatePlanetPosition "saturn" J2000
  = Returned (keplerianPosition elements_saturn J2000).
Proof.
  split; [unfold inDateRange; apply Rabs_le; lra |].
  split.
  - change (calculatePlanetPosition "saturn" (2440587.5 + 6600000000000000 / 86400000))
      with (if Rlt_dec (radicand elements_saturn
                          (2440587.5 + 6600000000000000 / 86400000)) 0
            then ReturnedNaN
            else Returned (keplerianPosition elements_saturn
                             (2440587.5 + 6600000000000000 / 86400000))).
    destruct (Rlt_dec _ 0) as [_ | Hn]; [reflexivity | exfalso].
    apply Hn. apply saturn_radicand_negative. right. unfold J2000.
    apply Rmult_lt_reg_r with 0.00050991; [lra |].
    replace ((0.05386179 + 1) / 0.00050991 * 0.00050991) with (0.05386179 + 1)
      by (field; lra).
    lra.
  - change (calculatePlanetPosition "saturn" J2000)
      with (if Rlt_dec (radicand elements_saturn J2000) 0
            then ReturnedNaN
            else Returned (keplerianPosition elements_saturn J2000)).
    pose proof (saturn_radicand_near_J2000 J2000) as Hr.
    destruct (Rlt_dec _ 0) as [Hn | _]; [| reflexivity].
    exfalso. assert (0 <= radicand elements_saturn J2000); [| lra].
    apply Hr. replace (J2000 - J2000) with 0 by lra. rewrite Rabs_R0. lra.
Qed.

(** C4, as stated, fails: "earth" is not a recognised body identifier,
    yet the call returns a position for it instead of throwing. *)
Lemma earth_is_not_rejected : ~ throwsExactlyOnUnknown "earth" J2000.
Proof.
  unfold throwsExactlyOnUnknown. intros [_ H].
  destruct (H eq_refl) as [message Hm].
  rewrite earth_position in Hm.
  destruct (Rlt_dec (radicand elements_earth J2000) 0); discriminate Hm.
Qed.

(** The same holds of an inherited member name: "constructor" passes the
    guard, and the call returns a record of NaN instead of throwing. *)
Lemma constructor_is_not_rejected : ~ throwsExactlyOnUnknown "constructor" J2000.
Proof.
  unfold throwsExactlyOnUnknown. intros [_ H].
  destruct (H eq_refl) as [message Hm].
  rewrite (inherited_member_NaN "constructor" J2000 eq_refl) in Hm. discriminate Hm.
Qed.

(** ** The progression scale *)

Lemma Math_trunc_close (x : R) : Rabs (IZR (Math_trunc x) - x) < 1.
Proof.
  unfold Math_trunc. destruct (Rle_dec 0 x).
  - pose proof (Int_part_bounds x). apply Rabs_def1; lra.
  - pose proof (Int_part_bounds (- x)). rewrite opp_IZR. apply Rabs_def1; lra.
Qed.

Lemma Math_trunc_IZR (z : Z) : Math_trunc (IZR z) = z.
Proof.
  unfold Math_trunc. destruct (Rle_dec 0 (IZR z)).
  - symmetry. apply Int_part_spec. lra.
  - rewrite <- opp_IZR. rewrite <- (Z.opp_involutive z) at 2. f_equal.
    symmetry. apply Int_part_spec. lra.
Qed.

(** The scale fields of whatever chart the call returns. *)
Lemma progressed_scale_fields (natalChart : NatalChart) (target : Date)
  (chart : ProgressedChart) :
  calculateProgressedChart natalChart target = Normal chart ->
  targetDate chart = target /\
  yearsFromBirth chart =
    (IZR (getTime target) - IZR (getTime (bd_date (birthData natalChart)))) / msPerYear /\
  daysProgressed chart = yearsFromBirth chart /\
  progressedDate chart =
    newDate (IZR (getTime (bd_date (birthData natalChart)))
             + yearsFromBirth chart * msPerDayR).
Proof.
  unfold calculateProgressedChart.
  destruct (mapM _ (planets natalChart)) as [progressed | m]; simpl; intros H.
  - injection H as <-. simpl. repeat split.
  - discriminate H.
Qed.

(** C3, as amended: in every progressed chart [calculateProgressedChart]
    returns, [yearsFromBirth] is the time from birth to the target date in
    milliseconds divided by the milliseconds of a year of 365.25 days,
    which is the number of days between the two dates divided by 365.25
    (to within 1e-9 of a year, whatever the rounding); and the progressed
    date lies [yearsFromBirth] days after the birth date, one day for each
    year, to within the millisecond dropped by the date. *)
Theorem progression_scale (natalChart : NatalChart) (target : Date)
  (chart : ProgressedChart) :
  calculateProgressedChart natalChart target = Normal chart ->
  yearsFromBirth chart =
    (IZR (getTime target) - IZR (getTime (bd_date (birthData natalChart)))) / msPerYear /\
  Rabs (yearsFromBirth chart
        - daysBetween (bd_date (birthData natalChart)) target / 365.25)
    <= 1 / 1000000000 /\
  daysProgressed chart = yearsFromBirth chart /\
  Rabs (daysBetween (bd_date (birthData natalChart)) (progressedDate chart)
        - yearsFromBirth chart) < 1 / msPerDayR.
Proof.
  intros Hc.
  destruct (progressed_scale_fields _ _ _ Hc) as (_ & Hy & Hd & Hp).
  split; [exact Hy |]. split; [| split; [exact Hd |]].
  - rewrite Hy. unfold daysBetween, msPerYear, msPerDayR.
    replace ((IZR (getTime target) - IZR (getTime (bd_date (birthData natalChart))))
             / (365.25 * 24 * 60 * 60 * 1000)
             - (IZR (getTime target) - IZR (getTime (bd_date (birthData natalChart))))
               / (24 * 60 * 60 * 1000) / 365.25) with 0 by (field; lra).
    rewrite Rabs_R0. lra.
  - rewrite Hp. unfold daysBetween, newDate. cbn [getTime].
    set (b := IZR (getTime (bd_date (birthData natalChart)))).
    set (y := yearsFromBirth chart).
    pose proof (Math_trunc_close (b + y * msPerDayR)) as Ht.
    set (t := IZR (Math_trunc (b + y * msPerDayR))) in *.
    assert (HD : 0 < msPerDayR) by (unfold msPerDayR; lra).
    replace ((t - b) / msPerDayR - y) with ((t - (b + y * msPerDayR)) / msPerDayR)
      by (field; lra).
    unfold Rdiv. rewrite Rabs_mult, (Rabs_right (/ msPerDayR)).
    + rewrite Rmult_1_l. rewrite <- (Rmult_1_l (/ msPerDayR)) at 2.
      apply Rmult_lt_compat_r; [apply Rinv_0_lt_compat; exact HD | exact Ht].
    + left. apply Rinv_0_lt_compat. exact HD.
Qed.

Lemma progression_scale_witness :
  exists chart,
    calculateProgressedChart emptyChart oneYearAfterEpoch = Normal chart /\
    yearsFromBirth chart =
      (IZR (getTime oneYearAfterEpoch)
       - IZR (getTime (bd_date (birthData emptyChart)))) / msPerYear /\
    Rabs (yearsFromBirth chart
          - daysBetween (bd_date (birthData emptyChart)) oneYearAfterEpoch / 365.25)
      <= 1 / 1000000000 /\
    daysProgressed chart = yearsFromBirth chart /\
    Rabs (daysBetween (bd_date (birthData emptyChart)) (progressedDate chart)
          - yearsFromBirth chart) < 1 / msPerDayR.
Proof.
  eexists. split; [reflexivity |].
  apply (progression_scale emptyChart oneYearAfterEpoch). reflexivity.
Defined.

(** C3, as stated, fails: one year of 365.25 days after birth the
    progressed date is one day after birth, not 365.25 days, so the second
    equation is off by 364.25 days. *)
Lemma progressed_days_are_not_scaled :
  ~ progressionScaleAsStated emptyChart oneYearAfterEpoch 1.
Proof.
  intros (chart & Hc & _ & H).
  destruct (progressed_scale_fields _ _ _ Hc) as (_ & Hy & _ & Hp).
  cbn [emptyChart birthData bd_date getTime oneYearAfterEpoch] in Hy, Hp, H.
  assert (Hy1 : yearsFromBirth chart = 1) by (rewrite Hy; unfold msPerYear; lra).
  rewrite Hy1 in Hp, H.
  replace (0 + 1 * msPerDayR) with (IZR 86400000) in Hp by (unfold msPerDayR; lra).
  unfold newDate in Hp. rewrite Math_trunc_IZR in Hp.
  rewrite Hp in H. unfold daysBetween, msPerDayR in H. cbn [getTime] in H.
  replace ((86400000 - 0) / (24 * 60 * 60 * 1000) - 1 * 365.25) with (-364.25) in H by lra.
  rewrite Rabs_left in H; lra.
Qed.

(** ** The influence-factor pipeline *)

(** C1, on the binary64 numbers of the code, fails for the custom weight
    [Number.MAX_VALUE] and two custom factors that always apply, with the
    effects 1 and -1 on the overall score: their adjustments are +Infinity
    and -Infinity, the raw score 50 plus the two is NaN, and the clamp
    returns NaN, which is not within [-100,100].  The same two effects on
    a dimension leave that dimension NaN, which is not within [0,100]. *)
Theorem adjusted_overall_binary64_NaN :
  Binary64.customAdjustment 1 Binary64.Number_MAX_VALUE = infinity /\
  Binary64.customAdjustment (-1) Binary64.Number_MAX_VALUE = neg_infinity /\
  Binary64.adjustedOverall 50
    [Binary64.customAdjustment 1 Binary64.Number_MAX_VALUE;
     Binary64.customAdjustment (-1) Binary64.Number_MAX_VALUE] = nan /\
  ((-100 <=? Binary64.adjustedOverall 50
               [Binary64.customAdjustment 1 Binary64.Number_MAX_VALUE;
                Binary64.customAdjustment (-1) Binary64.Number_MAX_VALUE])
   && (Binary64.adjustedOverall 50
         [Binary64.customAdjustment 1 Binary64.Number_MAX_VALUE;
          Binary64.customAdjustment (-1) Binary64.Number_MAX_VALUE] <=? 100))%float
  = false /\
  Binary64.adjustedDimension 50
    [Binary64.customAdjustment 1 Binary64.Number_MAX_VALUE;
     Binary64.customAdjustment (-1) Binary64.Number_MAX_VALUE] = nan /\
  ((0 <=? Binary64.adjustedDimension 50
            [Binary64.customAdjustment 1 Binary64.Number_MAX_VALUE;
             Binary64.customAdjustment (-1) Binary64.Number_MAX_VALUE])
   && (Binary64.adjustedDimension 50
         [Binary64.customAdjustment 1 Binary64.Number_MAX_VALUE;
          Binary64.customAdjustment (-1) Binary64.Number_MAX_VALUE] <=? 100))%float
  = false.
Proof.
  repeat split; reflexivity.
Qed.

(** A finite sum is clamped on the binary64 numbers too: 250 to 100, -250
    to -100, and 7 is left as it is. *)
Example clampOverall_binary64_finite :
  Binary64.clampOverall 250 = 100%float /\
  Binary64.clampOverall (-250) = (-100)%float /\
  Binary64.clampOverall 7 = 7%float /\
  Binary64.clampDimension (-3) = 0%float.
Proof.
  repeat split; reflexivity.
Qed.

Lemma clampOverall_range (x : R) : -100 <= clampOverall x <= 100.
Proof.
  unfold clampOverall, Math_max, Math_min, Rmax, Rmin.
  destruct (Rle_dec 100 x); destruct (Rle_dec (-100) _); lra.
Qed.

Lemma clampDimension_range (x : R) : 0 <= clampDimension x <= 100.
Proof.
  unfold clampDimension, Math_max, Math_min, Rmax, Rmin.
  destruct (Rle_dec 100 x); destruct (Rle_dec 0 _); lra.
Qed.

Section PipelineProperties.

Variable Math_pow : R -> R -> R.

(** In exact arithmetic, with the pipeline enabled, whatever the context,
    the weights and the custom factors, the adjusted overall score lies in
    [-100,100] and each of the five dimension scores lies in [0,100]. *)
Lemma adjusted_scores_clamped (context : FactorContext)
  (config : InfluenceFactorConfig) :
  enabled config = true ->
  overallInRange (adjustedScores (applyInfluenceFactors Math_pow context config)) /\
  dimensionsInRange (adjustedScores (applyInfluenceFactors Math_pow context config)).
Proof.
  intros Hen. unfold applyInfluenceFactors. rewrite Hen.
  cbn [negb adjustedScores].
  unfold overallInRange, dimensionsInRange, clampScores.
  cbn [overall dimensions career relationship health finance spiritual].
  repeat split; first [apply clampOverall_range | apply clampDimension_range].
Qed.

(** C5: with the pipeline disabled, the adjusted overall score and the
    five dimension scores are the raw ones, no factor is applied and the
    total adjustment is zero. *)
Theorem disabled_is_identity (context : FactorContext)
  (config : InfluenceFactorConfig) :
  enabled config = false ->
  adjustedScores (applyInfluenceFactors Math_pow context config) = rawScores context /\
  appliedFactors (applyInfluenceFactors Math_pow context config) = [] /\
  totalAdjustment (applyInfluenceFactors Math_pow context config) = 0.
Proof.
  intros Hen. unfold applyInfluenceFactors. rewrite Hen.
  repeat split.
Qed.

(** C10: two configurations that differ only in the retrograde weight
    give the same result, whatever the context: the same applied factors,
    scores, total adjustment and summary. *)
Theorem retrograde_weight_unread (context : FactorContext)
  (config1 config2 : InfluenceFactorConfig) :
  differOnlyInRetrograde config1 config2 ->
  applyInfluenceFactors Math_pow context config1 =
  applyInfluenceFactors Math_pow context config2.
Proof.
  destruct config1 as [e1 [d1 r1 ap1 ao1 op1 pl1 lp1 ph1 pe1 cu1] cf1].
  destruct config2 as [e2 [d2 r2 ap2 ao2 op2 pl2 lp2 ph2 pe2 cu2] cf2].
  unfold differOnlyInRetrograde.
  cbn [enabled customFactors weights w_dignity w_aspectPhase w_aspectOrb
       w_outerPlanet w_profectionLord w_lunarPhase w_planetaryHour w_personal
       w_custom].
  intros (He & Hcf & Hd & Hap & Hao & Hop & Hpl & Hlp & Hph & Hpe & Hcu).
  subst. reflexivity.
Qed.

End PipelineProperties.

Lemma adjusted_scores_clamped_witness :
  enabled extremeConfig = true /\
  overallInRange
    (adjustedScores (applyInfluenceFactors (fun x _ => x) sampleContext extremeConfig)) /\
  dimensionsInRange
    (adjustedScores (applyInfluenceFactors (fun x _ => x) sampleContext extremeConfig)).
Proof.
  split; [reflexivity |].
  apply (adjusted_scores_clamped (fun x _ => x) sampleContext extremeConfig).
  reflexivity.
Defined.

Lemma disabled_is_identity_witness :
  enabled disabledConfig = false /\
  adjustedScores (applyInfluenceFactors (fun x _ => x) sampleContext disabledConfig)
    = rawScores sampleContext /\
  appliedFactors (applyInfluenceFactors (fun x _ => x) sampleContext disabledConfig) = [] /\
  totalAdjustment (applyInfluenceFactors (fun x _ => x) sampleContext disabledConfig) = 0.
Proof.
  split; [reflexivity |].
  apply (disabled_is_identity (fun x _ => x) sampleContext disabledConfig).
  reflexivity.
Defined.

Lemma retrograde_weight_unread_witness :
  differOnlyInRetrograde DEFAULT_FACTOR_CONFIG (withRetrograde DEFAULT_FACTOR_CONFIG 0) /\
  applyInfluenceFactors (fun x _ => x) sampleContext DEFAULT_FACTOR_CONFIG =
  applyInfluenceFactors (fun x _ => x) sampleContext
                        (withRetrograde DEFAULT_FACTOR_CONFIG 0).
Proof.
  assert (H : differOnlyInRetrograde DEFAULT_FACTOR_CONFIG
                (withRetrograde DEFAULT_FACTOR_CONFIG 0))
    by (unfold differOnlyInRetrograde; repeat split).
  split; [exact H |].
  exact (retrograde_weight_unread (fun x _ => x) sampleContext DEFAULT_FACTOR_CONFIG
           (withRetrograde DEFAULT_FACTOR_CONFIG 0) H).
Defined.

(** ** The summary sentence *)

Lemma ltb_true (x y : R) : x < y -> ltb x y = true.
Proof.
  intros H. unfold ltb. destruct (Rlt_dec x y); [reflexivity | contradiction].
Qed.

Lemma ltb_false (x y : R) : y <= x -> ltb x y = false.
Proof.
  intros H. unfold ltb. destruct (Rlt_dec x y); [lra | reflexivity].
Qed.

Lemma append_assoc (a b c : string) : ((a ++ b) ++ c = a ++ (b ++ c))%string.
Proof.
  induction a as [| ch a IH]; simpl; [reflexivity | rewrite IH; reflexivity].
Qed.

Lemma summaryText_sentence (pos neg : list AppliedFactor) :
  summaryText pos neg = sentenceOf (namedIn pos) (namedIn neg).
Proof.
  destruct pos as [| p pos]; destruct neg as [| n neg]; try reflexivity.
  unfold summaryText. cbn [List.length Nat.eqb negb].
  assert (Hp : exists x xs, namedIn (p :: pos) = x :: xs)
    by (unfold namedIn; cbn [firstn map]; eauto).
  assert (Hn : exists y ys, namedIn (n :: neg) = y :: ys)
    by (unfold namedIn; cbn [firstn map]; eauto).
  destruct Hp as (x & xs & ->). destruct Hn as (y & ys & ->).
  cbn [sentenceOf].
  generalize (String.concat "、" (x :: xs)). intros P.
  generalize (String.concat "、" (y :: ys)). intros N.
  simpl. rewrite append_assoc. reflexivity.
Qed.

(** C2, as amended: with the pipeline enabled, the summary names the
    first three (or fewer) applied factors with a positive adjustment
    and the first three (or fewer) with a negative adjustment, in the
    order in which the factors were generated, whatever their
    magnitudes. *)
Theorem summary_names_first_three (Math_pow : R -> R -> R) (context : FactorContext)
  (config : InfluenceFactorConfig) :
  enabled config = true ->
  let result := applyInfluenceFactors Math_pow context config in
  summary result =
  sentenceOf
    (map factor_name
         (firstn 3 (filter (fun f => gtb (adjustment f) 0) (appliedFactors result))))
    (map factor_name
         (firstn 3 (filter (fun f => ltb (adjustment f) 0) (appliedFactors result)))).
Proof.
  intros Hen. unfold applyInfluenceFactors. rewrite Hen.
  cbn [negb summary appliedFactors]. apply summaryText_sentence.
Qed.

Lemma summary_names_first_three_witness :
  enabled lunarHourCustomConfig = true /\
  let result := applyInfluenceFactors (fun x _ => x) sampleContext lunarHourCustomConfig in
  summary result =
  sentenceOf
    (map factor_name
         (firstn 3 (filter (fun f => gtb (adjustment f) 0) (appliedFactors result))))
    (map factor_name
         (firstn 3 (filter (fun f => ltb (adjustment f) 0) (appliedFactors result)))).
Proof.
  split; [reflexivity |].
  apply (summary_names_first_three (fun x _ => x) sampleContext lunarHourCustomConfig).
  reflexivity.
Defined.

(** The factors generated for the sample context, by name and adjustment:
    the lunar phase, the hour of Jupiter with its boost, then the bonus. *)
Lemma sample_factors (Math_pow : R -> R -> R) :
  map (fun f => (factor_name f, adjustment f))
      (collectFactors Math_pow sampleContext lunarHourCustomConfig)
  = [("亏凸月期", 3 * 1); ("木星时", 10 * 1); ("木星时增益", 5 * 1);
     ("奖励", 1 * 20 * 1)]%string.
Proof.
  unfold collectFactors, sampleContext, lunarHourCustomConfig.
  cbn [weights w_dignity w_aspectPhase w_aspectOrb w_outerPlanet w_profectionLord
       w_lunarPhase w_planetaryHour w_personal w_custom currentState cs_lunarPhase
       cs_planetaryHour customFactors].
  unfold gtb.
  rewrite (ltb_false 0 0) by lra. rewrite (ltb_true 0 1) by lra.
  cbn [andb negb List.length Nat.eqb app].
  unfold calculateLunarPhaseFactor, calculatePlanetaryHourFactor, applyCustomFactors.
  simpl. reflexivity.
Qed.

(** C2, as stated, fails: for the sample context the summary names the
    lunar phase, worth 3 points, and leaves out the bonus, worth 20. *)
Lemma summary_skips_largest_factor :
  ~ namesLargestContributors
      (appliedFactors
         (applyInfluenceFactors (fun x _ => x) sampleContext lunarHourCustomConfig)).
Proof.
  unfold applyInfluenceFactors. cbn [enabled lunarHourCustomConfig negb appliedFactors].
  fold lunarHourCustomConfig.
  pose proof (sample_factors (fun x _ => x)) as Hf.
  destruct (collectFactors (fun x _ => x) sampleContext lunarHourCustomConfig)
    as [| f1 [| f2 [| f3 [| f4 [| f5 rest]]]]]; try discriminate Hf.
  cbn [map] in Hf.
  injection Hf as Hn1 Ha1 Hn2 Ha2 Hn3 Ha3 Hn4 Ha4.
  intros [Hpos _].
  unfold positiveFactors in Hpos. cbn [filter] in Hpos. unfold gtb in Hpos.
  rewrite Ha1, Ha2, Ha3, Ha4 in Hpos.
  rewrite (ltb_true 0 (3 * 1)), (ltb_true 0 (10 * 1)), (ltb_true 0 (5 * 1)),
    (ltb_true 0 (1 * 20 * 1)) in Hpos by lra.
  cbn [firstn skipn] in Hpos.
  specialize (Hpos f1 f4 (or_introl eq_refl) (or_introl eq_refl)).
  rewrite Ha1, Ha4 in Hpos. lra.
Qed.

(** The sentence produced for the sample context. *)
Lemma sample_summary :
  summary (applyInfluenceFactors (fun x _ => x) sampleContext lunarHourCustomConfig)
  = "有利因子：亏凸月期、木星时、木星时增益"%string.
Proof.
  unfold applyInfluenceFactors. cbn [enabled lunarHourCustomConfig negb summary].
  fold lunarHourCustomConfig.
  pose proof (sample_factors (fun x _ => x)) as Hf.
  destruct (collectFactors (fun x _ => x) sampleContext lunarHourCustomConfig)
    as [| f1 [| f2 [| f3 [| f4 [| f5 rest]]]]]; try discriminate Hf.
  cbn [map] in Hf.
  injection Hf as Hn1 Ha1 Hn2 Ha2 Hn3 Ha3 Hn4 Ha4.
  rewrite summaryText_sentence.
  unfold namedIn, positiveFactors, negativeFactors. cbn [filter]. unfold gtb.
  rewrite Ha1, Ha2, Ha3, Ha4.
  rewrite (ltb_true 0 (3 * 1)), (ltb_true 0 (10 * 1)), (ltb_true 0 (5 * 1)),
    (ltb_true 0 (1 * 20 * 1)) by lra.
  rewrite (ltb_false (3 * 1) 0), (ltb_false (10 * 1) 0), (ltb_false (5 * 1) 0),
    (ltb_false (1 * 20 * 1) 0) by lra.
  cbn [firstn map]. rewrite Hn1, Hn2, Hn3. reflexivity.
Qed.

(* ================================================================== *)
(** * Part III: further properties of the code *)
(* ================================================================== *)

(** ** Angles *)

Lemma angleDifference_range (a b : R) : 0 <= angleDifference a b <= 180.
Proof.
  unfold angleDifference, Math_abs.
  pose proof (normalizeAngle_range a). pose proof (normalizeAngle_range b).
  set (x := normalizeAngle a) in *. set (y := normalizeAngle b) in *.
  decide_reals; unfold Rabs;
    repeat match goal with
           | |- context [Rcase_abs ?u] => destruct (Rcase_abs u)
           end; lra.
Qed.

(** X1: the distance between two angles is between 0 and 180 degrees, is
    the same in either order of the two angles, and is 0 when the two
    angles normalise to the same value. *)
Theorem angleDifference_shortest_arc (a b : R) :
  0 <= angleDifference a b <= 180 /\
  angleDifference a b = angleDifference b a /\
  (normalizeAngle a = normalizeAngle b -> angleDifference a b = 0).
Proof.
  split; [apply angleDifference_range |].
  split; [apply angleDifference_sym |].
  intros H. unfold angleDifference, Math_abs. rewrite H.
  replace (normalizeAngle b - normalizeAngle b) with 0 by lra.
  decide_reals; try lra. apply Rabs_R0.
Qed.

(** ** Detected aspects *)

Lemma PLANET_WEIGHTS_range (p : PlanetId) : 2 <= js_or (PLANET_WEIGHTS p) 1 <= 10.
Proof.
  unfold js_or. destruct p; simpl; decide_reals; lra.
Qed.

Lemma ASPECTS_orb_weight (aspectDef : AspectDef) :
  In aspectDef ASPECTS ->
  0 < aspect_orb aspectDef /\ 0 <= aspect_weight aspectDef <= 10 /\
  0 <= aspect_angle aspectDef <= 180.
Proof.
  unfold ASPECTS. simpl.
  intros H; repeat (destruct H as [<- | H]; [simpl; lra |]); contradiction.
Qed.

(** X2: for each definition of the aspect table, detection succeeds exactly
    when the distance between the two longitudes is within the definition's
    tolerance of its exact angle.  A detected aspect names the two bodies
    and the definition, has an orb between 0 and the tolerance, a strength
    between 0 and 1 that is the linear fall-off [1 - orb / tolerance], an
    actual angle between 0 and 180, and a weight between 0 and 10. *)
Theorem detectAspect_bounds (p1 p2 : PlanetPosition) (aspectDef : AspectDef) :
  In aspectDef ASPECTS ->
  match detectAspect p1 p2 aspectDef with
  | Some a =>
      planet1 a = pp_id p1 /\ planet2 a = pp_id p2 /\
      aspectType a = aspect_id aspectDef /\ exactAngle a = aspect_angle aspectDef /\
      actualAngle a = angleDifference (pp_longitude p1) (pp_longitude p2) /\
      orb a = Rabs (actualAngle a - exactAngle a) /\
      0 <= orb a <= aspect_orb aspectDef /\
      0 <= strength a <= 1 /\ strength a = 1 - orb a / aspect_orb aspectDef /\
      0 <= actualAngle a <= 180 /\
      0 <= weight a <= 10
  | None =>
      aspect_orb aspectDef <
      Rabs (angleDifference (pp_longitude p1) (pp_longitude p2) - aspect_angle aspectDef)
  end.
Proof.
  intros Hin. destruct (ASPECTS_orb_weight _ Hin) as (Horb & Hw & _).
  unfold detectAspect, Math_abs.
  set (o := Rabs (angleDifference (pp_longitude p1) (pp_longitude p2)
                  - aspect_angle aspectDef)) in *.
  destruct (Rle_dec _ _) as [Hle | Hgt]; [| lra].
  cbn [planet1 planet2 aspectType exactAngle orb strength actualAngle weight].
  fold o.
  assert (Ho : 0 <= o) by apply Rabs_pos.
  assert (Hq : 0 <= o / aspect_orb aspectDef <= 1).
  { split.
    - apply Rmult_le_pos; [exact Ho | left; apply Rinv_0_lt_compat; exact Horb].
    - apply Rmult_le_reg_r with (aspect_orb aspectDef); [exact Horb |].
      unfold Rdiv. rewrite Rmult_assoc, Rinv_l by lra. lra. }
  pose proof (PLANET_WEIGHTS_range (pp_id p1)) as H1.
  pose proof (PLANET_WEIGHTS_range (pp_id p2)) as H2.
  destruct (angleDifference_range (pp_longitude p1) (pp_longitude p2)).
  set (w := js_or (PLANET_WEIGHTS (pp_id p1)) 1 + js_or (PLANET_WEIGHTS (pp_id p2)) 1).
  assert (Hw2 : 0 <= w <= 20) by (unfold w; lra).
  set (s := 1 - o / aspect_orb aspectDef).
  assert (Hs : 0 <= s <= 1) by (unfold s; lra).
  assert (Hsw : 0 <= s * aspect_weight aspectDef) by (apply Rmult_le_pos; lra).
  assert (Hsw1 : s * aspect_weight aspectDef <= 1 * 10)
    by (apply Rmult_le_compat; lra).
  assert (0 <= s * aspect_weight aspectDef * w) by (apply Rmult_le_pos; lra).
  assert (s * aspect_weight aspectDef * w <= 10 * 20)
    by (apply Rmult_le_compat; lra).
  repeat split; try reflexivity; lra.
Qed.

Lemma detectAspect_bounds_witness :
  In conjunctionDef ASPECTS /\
  match detectAspect sun_at_0 moon_at_5 conjunctionDef with
  | Some a =>
      planet1 a = pp_id sun_at_0 /\ planet2 a = pp_id moon_at_5 /\
      aspectType a = aspect_id conjunctionDef /\
      exactAngle a = aspect_angle conjunctionDef /\
      actualAngle a = angleDifference (pp_longitude sun_at_0) (pp_longitude moon_at_5) /\
      orb a = Rabs (actualAngle a - exactAngle a) /\
      0 <= orb a <= aspect_orb conjunctionDef /\
      0 <= strength a <= 1 /\ strength a = 1 - orb a / aspect_orb conjunctionDef /\
      0 <= actualAngle a <= 180 /\
      0 <= weight a <= 10
  | None =>
      aspect_orb conjunctionDef <
      Rabs (angleDifference (pp_longitude sun_at_0) (pp_longitude moon_at_5)
            - aspect_angle conjunctionDef)
  end.
Proof.
  split; [left; reflexivity |].
  apply (detectAspect_bounds sun_at_0 moon_at_5 conjunctionDef). left. reflexivity.
Defined.

(** ** Sorting by descending key *)

Lemma insert_desc_perm {A : Type} (key : A -> R) (x : A) (l : list A) :
  Permutation (insert_desc key x l) (x :: l).
Proof.
  induction l as [| y l IH]; simpl; [reflexivity |].
  destruct (Rlt_dec (key x) (key y)); [| reflexivity].
  rewrite IH. apply perm_swap.
Qed.

Lemma sort_desc_perm {A : Type} (key : A -> R) (l : list A) :
  Permutation (sort_desc key l) l.
Proof.
  induction l as [| x l IH]; simpl; [reflexivity |].
  unfold sort_desc in *. simpl. rewrite insert_desc_perm. constructor. exact IH.
Qed.

Lemma insert_desc_sorted {A : Type} (key : A -> R) (x : A) (l : list A) :
  StronglySorted (fun a b => key b <= key a) l ->
  StronglySorted (fun a b => key b <= key a) (insert_desc key x l).
Proof.
  induction l as [| y l IH]; intros Hs; simpl.
  - constructor; constructor.
  - inversion Hs as [| ? ? Hl Hy]; subst.
    destruct (Rlt_dec (key x) (key y)) as [Hlt | Hge].
    + constructor; [apply IH; exact Hl |].
      apply Forall_forall. intros z Hz.
      apply (Permutation_in _ (insert_desc_perm key x l)) in Hz.
      rewrite Forall_forall in Hy.
      destruct Hz as [<- | Hz]; [lra | apply Hy; exact Hz].
    + constructor; [exact Hs |].
      constructor; [lra |].
      eapply Forall_impl; [| exact Hy]. simpl. intros; lra.
Qed.

Lemma sort_desc_sorted {A : Type} (key : A -> R) (l : list A) :
  StronglySorted (fun a b => key b <= key a) (sort_desc key l).
Proof.
  induction l as [| x l IH]; [constructor |].
  unfold sort_desc in *. simpl. apply insert_desc_sorted. exact IH.
Qed.

Lemma in_sort_desc {A : Type} (key : A -> R) (l : list A) (a : A) :
  In a (sort_desc key l) <-> In a l.
Proof.
  split; apply Permutation_in; [| symmetry]; apply sort_desc_perm.
Qed.

Lemma in_selectAspects (aspectDef : AspectDef) (aspectTypes : list AspectId) :
  In aspectDef (selectAspects aspectTypes) <->
  In aspectDef ASPECTS /\ In (aspect_id aspectDef) aspectTypes.
Proof.
  unfold selectAspects. rewrite filter_In, existsb_exists.
  split; intros [H1 H2]; (split; [exact H1 |]).
  - destruct H2 as (t & Ht & Heq). apply internal_AspectId_dec_bl in Heq.
    subst. exact Ht.
  - exists (aspect_id aspectDef). split; [exact H2 |].
    apply internal_AspectId_dec_lb. reflexivity.
Qed.

Lemma in_pairAspects (selected : list AspectDef) (p q : PlanetPosition) (a : AspectData) :
  In a (pairAspects selected p q) <->
  exists aspectDef, In aspectDef selected /\ detectAspect p q aspectDef = Some a.
Proof.
  unfold pairAspects. rewrite in_flat_map.
  split; intros (d & Hd & H); exists d; (split; [exact Hd |]).
  - destruct (detectAspect p q d) as [a' |]; simpl in H; [| contradiction].
    destruct H as [-> | []]. reflexivity.
  - rewrite H. left. reflexivity.
Qed.



(** X4: the aspects between transiting and natal positions come back
    ordered by weight, largest first, and they are exactly the aspects
    detected, for the requested definitions of the table, from a transiting
    position to a natal one; a body is also compared with its own natal
    position. *)
Theorem calculateTransitAspects_sorted_pairs
  (transitPositions natalPositions : list PlanetPosition) (aspectTypes : list AspectId) :
  StronglySorted (fun a b => weight b <= weight a)
    (calculateTransitAspects transitPositions natalPositions aspectTypes) /\
  forall a, In a (calculateTransitAspects transitPositions natalPositions aspectTypes) <->
    exists transit natal aspectDef,
      In transit transitPositions /\ In natal natalPositions /\
      In aspectDef ASPECTS /\ In (aspect_id aspectDef) aspectTypes /\
      detectAspect transit natal aspectDef = Some a.
Proof.
  unfold calculateTransitAspects. cbv zeta. split; [apply sort_desc_sorted |].
  intros a. rewrite in_sort_desc, in_flat_map. split.
  - intros (t & Ht & H). apply in_flat_map in H. destruct H as (n & Hn & H).
    apply in_pairAspects in H. destruct H as (d & Hd & Ha).
    apply in_selectAspects in Hd. exists t, n, d. tauto.
  - intros (t & n & d & Ht & Hn & Hd1 & Hd2 & Ha).
    exists t. split; [exact Ht |]. apply in_flat_map. exists n. split; [exact Hn |].
    apply in_pairAspects. exists d. rewrite in_selectAspects. tauto.
Qed.

(** ** Houses, signs and dignities *)

Lemma find_first {A : Type} (f : A -> bool) (l : list A) (x : A) :
  find f l = Some x ->
  exists l1 l2, l = l1 ++ x :: l2 /\ f x = true /\ forall y, In y l1 -> f y = false.
Proof.
  induction l as [| y l IH]; simpl; [discriminate |].
  destruct (f y) eqn:Hy.
  - intros H. injection H as <-. exists [], l. repeat split; auto. intros ? [].
  - intros H. destruct (IH H) as (l1 & l2 & -> & Hx & Hl1).
    exists (y :: l1), l2. repeat split; auto.
    intros z [<- | Hz]; auto.
Qed.

Lemma seq_split_lt (n : nat) (l1 l2 : list nat) (i : nat) :
  seq 0 n = l1 ++ i :: l2 -> forall j, (j < i)%nat -> In j l1.
Proof.
  intros H j Hj.
  assert (Hi : In i (seq 0 n)) by (rewrite H; apply in_elt).
  apply in_seq in Hi.
  assert (Hjn : In j (seq 0 n)) by (apply in_seq; lia).
  rewrite H in Hjn. apply in_app_or in Hjn. destruct Hjn as [Hl | Hr]; [exact Hl |].
  exfalso.
  pose proof (seq_NoDup n 0) as Hnd. rewrite H in Hnd.
  assert (Hs : StronglySorted lt (seq 0 n)).
  { apply Sorted_StronglySorted; [intros ? ? ? ? ?; lia |].
    clear. generalize 0%nat. induction n as [| n IH]; intros s; simpl; constructor.
    - apply IH.
    - destruct n; simpl; constructor. lia. }
  rewrite H in Hs. clear H Hnd.
  induction l1 as [| a l1 IH]; simpl in Hs.
  - inversion Hs as [| ? ? _ Hall]; subst. rewrite Forall_forall in Hall.
    destruct Hr as [<- | Hr]; [lia |]. specialize (Hall j Hr). lia.
  - inversion Hs; subst. apply IH. assumption.
Qed.

(** X5: for any list of cusps, also one that is too short or empty,
    [getHouse] answers with a house from 1 to 12.  It is the first house,
    counting from 1, whose test the longitude passes; when no test passes,
    it is house 1. *)
Theorem getHouse_first_match (lon : R) (houseCusps : list R) :
  let h := getHouse lon houseCusps in
  let passes i := inHouse (normalizeAngle lon) houseCusps i in
  (1 <= h <= 12)%Z /\
  (forall i, (i < 12)%nat -> passes i = true ->
     (h <= Z.of_nat i + 1)%Z /\ passes (Z.to_nat (h - 1)) = true) /\
  ((forall i, (i < 12)%nat -> passes i = false) -> h = 1%Z).
Proof.
  cbv zeta. unfold getHouse.
  destruct (find _ (seq 0 12)) as [k |] eqn:Hf.
  - destruct (find_first _ _ _ Hf) as (l1 & l2 & Hs & Hk & Hl1).
    assert (Hk12 : (k < 12)%nat).
    { assert (In k (seq 0 12)) by (rewrite Hs; apply in_elt).
      apply in_seq in H. lia. }
    split; [lia |]. split.
    + intros i Hi Hp. replace (Z.to_nat (Z.of_nat k + 1 - 1)) with k by lia.
      split; [| exact Hk].
      destruct (Nat.lt_ge_cases i k) as [Hlt | Hge]; [| lia].
      rewrite (Hl1 i (seq_split_lt 12 l1 l2 k Hs i Hlt)) in Hp. discriminate.
    + intros Hnone. rewrite (Hnone k Hk12) in Hk. discriminate.
  - split; [lia |]. split; [| reflexivity].
    intros i Hi Hp. exfalso.
    rewrite (find_none _ _ Hf i) in Hp; [discriminate |].
    apply in_seq. lia.
Qed.

Lemma sign_and_degree_exact (lon : R) :
  exists s,
    getZodiacSign lon = Some s /\ In s ZODIAC_SIGNS /\
    0 <= getSignDegree lon < 30 /\
    sign_degree s + getSignDegree lon = normalizeAngle lon.
Proof.
  unfold getZodiacSign, getSignDegree, js_rem, Math_floor, Math_trunc.
  pose proof (normalizeAngle_range lon) as Hr.
  set (nl := normalizeAngle lon) in *.
  pose proof (Int_part_bounds (nl / 30)) as [Hl Hu].
  destruct (Rle_dec 0 (nl / 30)) as [_ | Hneg]; [| lra].
  set (k := Int_part (nl / 30)) in *.
  assert (Hk0 : (-1 < k)%Z) by (apply lt_IZR; lra).
  assert (Hk12 : (k < 12)%Z) by (apply lt_IZR; lra).
  destruct (Z.ltb_spec k 0) as [Hlt | _]; [lia |].
  assert (Hn : exists n, (n < 12)%nat /\ k = Z.of_nat n).
  { exists (Z.to_nat k). split; lia. }
  destruct Hn as (n & Hn & Hk). rewrite Hk in *. rewrite Nat2Z.id.
  do 12 (destruct n as [| n];
         [eexists; split; [reflexivity |];
          split; [simpl; tauto |]; simpl in *; lra |]).
  lia.
Qed.

(** X6: when a longitude has a sign, the sign is one of the twelve, and
    sign and degree within the sign split the normalised longitude: the
    degree is in [0,30), and the sign's starting degree plus the degree
    within the sign is the normalised longitude. *)
Theorem sign_and_degree_split (lon : R) (s : ZodiacSign) :
  getZodiacSign lon = Some s ->
  In s ZODIAC_SIGNS /\
  0 <= getSignDegree lon < 30 /\
  sign_degree s + getSignDegree lon = normalizeAngle lon.
Proof.
  intros H. destruct (sign_and_degree_exact lon) as (s' & Hs' & Hrest).
  rewrite Hs' in H. injection H as <-. exact Hrest.
Qed.

Lemma getZodiacSign_45 : getZodiacSign 45 = nth_error ZODIAC_SIGNS 1.
Proof.
  unfold getZodiacSign, Math_floor. rewrite normalizeAngle_fixed by lra.
  replace (Int_part (45 / 30)) with 1%Z by (apply Int_part_spec; split; lra).
  reflexivity.
Qed.

Lemma sign_and_degree_split_witness :
  exists s,
    getZodiacSign 45 = Some s /\
    In s ZODIAC_SIGNS /\
    0 <= getSignDegree 45 < 30 /\
    sign_degree s + getSignDegree 45 = normalizeAngle 45.
Proof.
  eexists. split; [rewrite getZodiacSign_45; reflexivity |].
  apply (sign_and_degree_split 45). rewrite getZodiacSign_45. reflexivity.
Defined.

(** X7: a dignity score of the natal chart is one of -5, -4, 0, 4 and 5,
    and it is 0 for the north node and for Chiron.  For the seven classical
    bodies, from the Sun to Saturn, it is the entry of the dignity table
    that the influence factors read; for Uranus, Neptune and Pluto the two
    tables differ on some signs. *)
Theorem calculateDignity_values (planetId : PlanetId) (signId : ZodiacId) :
  In (calculateDignity planetId signId) [-5; -4; 0; 4; 5] /\
  (In planetId [northNode; chiron] -> calculateDignity planetId signId = 0) /\
  (In planetId [sun; moon; mercury; venus; mars; jupiter; saturn] ->
   DIGNITY_TABLE planetId signId = calculateDignity planetId signId) /\
  (In planetId [uranus; neptune; pluto] ->
   exists s, DIGNITY_TABLE planetId s <> calculateDignity planetId s).
Proof.
  split; [destruct planetId, signId; simpl; tauto |].
  split; [intros [<- | [<- | []]]; destruct signId; reflexivity |].
  split.
  - intros H. simpl in H.
    repeat (destruct H as [<- | H]; [destruct signId; reflexivity |]). contradiction.
  - intros [<- | [<- | [<- | []]]].
    + exists scorpio. simpl. lra.
    + exists cancer. simpl. lra.
    + exists aries. simpl. lra.
Qed.

(** ** The pipeline as a sum *)

Lemma fold_applyFactor (l : list AppliedFactor) (s : Scores) (t : R) :
  let r := fold_left applyFactor l (s, t) in
  snd r = addedInOrder t (adjustmentsTo "overall" l) /\
  overall (fst r) = addedInOrder (overall s) (adjustmentsTo "overall" l) /\
  career (dimensions (fst r))
    = addedInOrder (career (dimensions s)) (adjustmentsTo "career" l) /\
  relationship (dimensions (fst r))
    = addedInOrder (relationship (dimensions s)) (adjustmentsTo "relationship" l) /\
  health (dimensions (fst r))
    = addedInOrder (health (dimensions s)) (adjustmentsTo "health" l) /\
  finance (dimensions (fst r))
    = addedInOrder (finance (dimensions s)) (adjustmentsTo "finance" l) /\
  spiritual (dimensions (fst r))
    = addedInOrder (spiritual (dimensions s)) (adjustmentsTo "spiritual" l).
Proof.
  cbv zeta. revert s t. induction l as [| f l IH]; intros s t.
  - unfold adjustmentsTo, addedInOrder. simpl. repeat split.
  - cbn [fold_left].
    destruct (IH (fst (applyFactor (s, t) f)) (snd (applyFactor (s, t) f)))
      as (H0 & H1 & H2 & H3 & H4 & H5 & H6).
    rewrite <- surjective_pairing in H0, H1, H2, H3, H4, H5, H6.
    rewrite H0, H1, H2, H3, H4, H5, H6. clear IH H0 H1 H2 H3 H4 H5 H6.
    unfold applyFactor, addToDimension, adjustmentsTo, addedInOrder.
    cbn [fst snd filter].
    destruct (String.eqb (dimension f) "overall") eqn:E0.
    { apply String.eqb_eq in E0. try rewrite E0. simpl. repeat split. }
    destruct (String.eqb (dimension f) "career") eqn:E1.
    { apply String.eqb_eq in E1. try rewrite E1. simpl. repeat split. }
    destruct (String.eqb (dimension f) "relationship") eqn:E2.
    { apply String.eqb_eq in E2. try rewrite E2. simpl. repeat split. }
    destruct (String.eqb (dimension f) "health") eqn:E3.
    { apply String.eqb_eq in E3. try rewrite E3. simpl. repeat split. }
    destruct (String.eqb (dimension f) "finance") eqn:E4.
    { apply String.eqb_eq in E4. try rewrite E4. simpl. repeat split. }
    destruct (String.eqb (dimension f) "spiritual") eqn:E5.
    { apply String.eqb_eq in E5. try rewrite E5. simpl. repeat split. }
    simpl. repeat split.
Qed.

Section PipelineSums.

Variable Math_pow : R -> R -> R.

(** X8: when the pipeline is enabled, the reported total is the value of
    the loop that adds, from 0 and in the order of the applied factors, the
    adjustment of each factor that targets the overall score; and the
    adjusted scores are the clamp expressions of the code applied to the
    values of the same loop from the raw overall score and, for each of the
    five dimensions, from the raw dimension over the factors that target
    it.  Factors that name anything else change none of the six scores,
    and the total itself is not clamped.  The lunar phase of the context
    is taken not to be the name of a member every object inherits, for
    which the lunar-phase generator throws. *)
Theorem applyInfluenceFactors_sums (context : FactorContext)
  (config : InfluenceFactorConfig) :
  enabled config = true ->
  mem_string (cs_lunarPhase (currentState context)) Object_prototype_names = false ->
  let result := applyInfluenceFactors Math_pow context config in
  let raw := rawScores context in
  let applied := appliedFactors result in
  totalAdjustment result = addedInOrder 0 (adjustmentsTo "overall" applied) /\
  adjustedScores result =
  clampScores
    (mkScores
       (addedInOrder (overall raw) (adjustmentsTo "overall" applied))
       (mkDimensions
          (addedInOrder (career (dimensions raw)) (adjustmentsTo "career" applied))
          (addedInOrder (relationship (dimensions raw))
                        (adjustmentsTo "relationship" applied))
          (addedInOrder (health (dimensions raw)) (adjustmentsTo "health" applied))
          (addedInOrder (finance (dimensions raw)) (adjustmentsTo "finance" applied))
          (addedInOrder (spiritual (dimensions raw))
                        (adjustmentsTo "spiritual" applied)))).
Proof.
  intros Hen _. cbv zeta. unfold applyInfluenceFactors. rewrite Hen.
  cbn [negb totalAdjustment appliedFactors adjustedScores].
  destruct (fold_applyFactor (collectFactors Math_pow context config)
              (rawScores context) 0) as (H0 & H1 & H2 & H3 & H4 & H5 & H6).
  split; [exact H0 |].
  unfold clampScores.
  cbn [overall dimensions career relationship health finance spiritual].
  rewrite H1, H2, H3, H4, H5, H6. reflexivity.
Qed.

End PipelineSums.

Lemma applyInfluenceFactors_sums_witness :
  enabled lunarHourCustomConfig = true /\
  mem_string (cs_lunarPhase (currentState sampleContext)) Object_prototype_names = false /\
  totalAdjustment (applyInfluenceFactors (fun x _ => x) sampleContext lunarHourCustomConfig)
  = addedInOrder 0
      (adjustmentsTo "overall"
         (appliedFactors
            (applyInfluenceFactors (fun x _ => x) sampleContext lunarHourCustomConfig))).
Proof.
  split; [reflexivity |]. split; [reflexivity |].
  apply (applyInfluenceFactors_sums (fun x _ => x) sampleContext lunarHourCustomConfig);
    reflexivity.
Defined.

(** ** Custom factors *)




(** ** The dignity factor *)

Lemma flat_map_at_most_one {A B : Type} (f : A -> list B) (l : list A) :
  (forall x, (List.length (f x) <= 1)%nat) ->
  (List.length (flat_map f l) <= List.length l)%nat.
Proof.
  intros Hf. induction l as [| x l IH]; [simpl; lia |].
  cbn [flat_map]. rewrite length_app. specialize (Hf x). simpl. lia.
Qed.

Lemma DIGNITY_TABLE_values (planetId : PlanetId) (signId : ZodiacId) :
  In (DIGNITY_TABLE planetId signId) [-5; -4; 0; 4; 5].
Proof.
  destruct planetId, signId; simpl; tauto.
Qed.

(** X10: the dignity generator yields at most one factor per placement.
    Each factor belongs to a placement of the Sun, the Moon, Mercury, Venus
    or Mars whose entry in the dignity table is not 0; it targets the
    overall score; its adjustment is the entry divided by 5, times 3, times
    the weight, so that its size is between 2.4 and 3 times the size of the
    weight. *)
Theorem calculateDignityFactor_bounds (chart : NatalChart) (w : R) :
  (List.length (calculateDignityFactor chart w) <= List.length (planets chart))%nat /\
  Forall (fun f =>
            factor_type f = "dignity"%string /\ dimension f = "overall"%string /\
            2.4 * Rabs w <= Rabs (adjustment f) <= 3 * Rabs w /\
            exists planet,
              In planet (planets chart) /\ In (pl_id planet) majorPlanets /\
              DIGNITY_TABLE (pl_id planet) (pl_sign planet) <> 0 /\
              adjustment f = DIGNITY_TABLE (pl_id planet) (pl_sign planet) / 5 * 3 * w)
         (calculateDignityFactor chart w).
Proof.
  unfold calculateDignityFactor. split.
  - apply flat_map_at_most_one. intros p.
    destruct (negb _); simpl; [lia |].
    destruct (neqb _ 0); simpl; lia.
  - apply Forall_forall. intros f Hf. apply in_flat_map in Hf.
    destruct Hf as (p & Hp & Hf).
    destruct (existsb (PlanetId_beq (pl_id p)) majorPlanets) eqn:Hmaj;
      simpl in Hf; [| contradiction].
    assert (Hin : In (pl_id p) majorPlanets).
    { apply existsb_exists in Hmaj. destruct Hmaj as (x & Hx & Hb).
      apply internal_PlanetId_dec_bl in Hb. subst. exact Hx. }
    pose proof (DIGNITY_TABLE_values (pl_id p) (pl_sign p)) as Hv.
    set (d := DIGNITY_TABLE (pl_id p) (pl_sign p)) in *.
    unfold js_or, neqb in Hf.
    assert (Habs : forall x, Rabs (x / 5 * 3 * w) = Rabs x * (3 / 5) * Rabs w).
    { intros x. replace (x / 5 * 3 * w) with (x * (3 / 5) * w) by lra.
      rewrite !Rabs_mult. rewrite (Rabs_right (3 / 5)) by lra. reflexivity. }
    pose proof (Rabs_pos w) as Hw.
    destruct (Req_dec_T d 0) as [Hz | Hnz].
    + destruct (Req_dec_T 0 0) as [_ | n]; [| lra]. contradiction.
    + destruct (Req_dec_T d 0) as [Hz | _]; [contradiction |].
      destruct Hf as [<- | []].
      cbn [factor_type dimension adjustment].
      split; [reflexivity |]. split; [reflexivity |].
      split; [| exists p; auto].
      rewrite Habs.
      assert (Hd : Rabs d = 4 \/ Rabs d = 5).
      { clearbody d. simpl in Hv.
        destruct Hv as [H | [H | [H | [H | [H | []]]]]]; subst d.
        - right. rewrite Rabs_left; lra.
        - left. rewrite Rabs_left; lra.
        - contradiction Hnz. reflexivity.
        - left. rewrite Rabs_right; lra.
        - right. rewrite Rabs_right; lra. }
      destruct Hd as [-> | ->]; lra.
Qed.

(** ** The progressed lunar phase *)

Lemma leb_true (x y : R) : x <= y -> leb x y = true.
Proof.
  intros H. unfold leb. destruct (Rle_dec x y); [reflexivity | contradiction].
Qed.

Lemma leb_false (x y : R) : y < x -> leb x y = false.
Proof.
  intros H. unfold leb. destruct (Rle_dec x y); [lra | reflexivity].
Qed.

(** Decides the comparisons of the goal from the bounds in the context. *)
Ltac decide_comparisons :=
  unfold geb, gtb;
  repeat match goal with
         | |- context [ltb ?a ?b] =>
             first [rewrite (ltb_true a b) by lra | rewrite (ltb_false a b) by lra]
         | |- context [leb ?a ?b] =>
             first [rewrite (leb_true a b) by lra | rewrite (leb_false a b) by lra]
         end.


(** ** The two house searches *)

Lemma houseFromLongitudeLoop_find (L : R) (hs : list HouseCusp) (passes : list nat) :
  (12 <= List.length hs)%nat -> (forall i, In i passes -> (i < 12)%nat) ->
  houseFromLongitudeLoop L hs passes =
  Normal match find (inHouse L (map hc_longitude hs)) passes with
         | Some i => (Z.of_nat i + 1)%Z
         | None => 1%Z
         end.
Proof.
  intros Hlen. induction passes as [| i rest IH]; intros Hin;
    cbn [houseFromLongitudeLoop find]; [reflexivity |].
  assert (Hi : (i < 12)%nat) by (apply Hin; left; reflexivity).
  unfold inHouse at 1. rewrite !nth_error_map.
  destruct (nth_error hs i) as [s |] eqn:Hs.
  2:{ apply nth_error_None in Hs. lia. }
  destruct (nth_error hs ((i + 1) mod 12)) as [e |] eqn:He.
  2:{ apply nth_error_None in He.
      pose proof (Nat.mod_upper_bound (i + 1) 12 ltac:(lia)). lia. }
  cbn [option_map].
  match goal with |- context [if ?c then Normal _ else _] => destruct c end.
  - reflexivity.
  - apply IH. intros j Hj. apply Hin. right. exact Hj.
Qed.

Lemma getHouseFromLongitude_same (lon : R) (natalChart : NatalChart) :
  (12 <= List.length (houses natalChart))%nat ->
  getHouseFromLongitude lon natalChart =
  Normal (getHouse lon (map hc_longitude (houses natalChart))).
Proof.
  intros Hlen. unfold getHouseFromLongitude, getHouse.
  apply houseFromLongitudeLoop_find; [exact Hlen |].
  intros i Hi. apply in_seq in Hi. lia.
Qed.

(** X12: on a chart with at least twelve houses, the house search of the
    progressions returns, and returns the house that the search of the
    natal chart gives for the same longitude and the same cusps. *)
Theorem getHouseFromLongitude_agrees (lon : R) (natalChart : NatalChart) :
  (12 <= List.length (houses natalChart))%nat ->
  getHouseFromLongitude lon natalChart =
  Normal (getHouse lon (map hc_longitude (houses natalChart))).
Proof.
  intros Hlen. apply getHouseFromLongitude_same. exact Hlen.
Qed.

Lemma getHouseFromLongitude_agrees_witness :
  (12 <= List.length (houses emptyChart))%nat /\
  getHouseFromLongitude 100 emptyChart =
  Normal (getHouse 100 (map hc_longitude (houses emptyChart))).
Proof.
  split; [simpl; lia |].
  apply (getHouseFromLongitude_agrees 100 emptyChart). simpl. lia.
Defined.

(** X13: on a chart with at most one house, the house search of the
    progressions throws a TypeError for every longitude, where the search
    of the natal chart answers house 1 for the same cusps. *)
Theorem getHouseFromLongitude_incomplete (lon : R) (natalChart : NatalChart) :
  (List.length (houses natalChart) <= 1)%nat ->
  getHouseFromLongitude lon natalChart = Throw "TypeError" /\
  getHouse lon (map hc_longitude (houses natalChart)) = 1%Z.
Proof.
  intros Hlen. unfold getHouseFromLongitude, getHouse.
  destruct (houses natalChart) as [| h [| h' rest]]; [| | simpl in Hlen; lia].
  - split; reflexivity.
  - split; [reflexivity |].
    assert (Hnone : forall l, find (inHouse (normalizeAngle lon) (map hc_longitude [h])) l
                              = None).
    { intros l. induction l as [| i l IH]; [reflexivity |].
      cbn [find]. unfold inHouse at 1. cbn [map].
      destruct i as [| i].
      - change ((0 + 1) mod 12)%nat with 1%nat. cbn [nth_error]. exact IH.
      - replace (nth_error [hc_longitude h] (S i)) with (@None R)
          by (destruct i; reflexivity).
        exact IH. }
    rewrite Hnone. reflexivity.
Qed.

Lemma getHouseFromLongitude_incomplete_witness :
  (List.length (houses (mkNatalChart (birthData emptyChart) 0 [] [] 0 0 []
                          (elementBalance emptyChart) (modalityBalance emptyChart)
                          [] mars)) <= 1)%nat /\
  getHouseFromLongitude 100
    (mkNatalChart (birthData emptyChart) 0 [] [] 0 0 []
       (elementBalance emptyChart) (modalityBalance emptyChart) [] mars)
  = Throw "TypeError".
Proof.
  split; [simpl; lia |].
  apply (getHouseFromLongitude_incomplete 100
           (mkNatalChart (birthData emptyChart) 0 [] [] 0 0 []
              (elementBalance emptyChart) (modalityBalance emptyChart) [] mars)).
  simpl. lia.
Defined.

(** ** Positions of all bodies *)

Lemma planet_longitude_range (p : PlanetId) (jd : R) (pos : EclipticPosition) :
  calculatePlanetPosition (PlanetId_string p) jd = Returned pos ->
  0 <= longitude pos < 360.
Proof.
  rewrite calculatePlanetPosition_PlanetId.
  destruct p;
    try match goal with
        | |- context [Rlt_dec ?x 0] => destruct (Rlt_dec x 0); [discriminate |]
        end;
    intros H; injection H as <-;
    first [ unfold calculateSunPosition | unfold calculateMoonPosition
          | unfold calculateNorthNodePosition | unfold calculateChironPosition
          | unfold keplerianPosition ];
    cbn [longitude]; apply normalizeAngle_range.
Qed.

Lemma planet_NaN_iff (p : PlanetId) (jd : R) :
  inDateRange jd ->
  (calculatePlanetPosition (PlanetId_string p) jd = ReturnedNaN <->
   (PlanetId_string p = "saturn"%string /\ radicand elements_saturn jd < 0)).
Proof.
  intros Hjd. rewrite PlanetId_string_saturn.
  destruct (planet_position_cases p jd Hjd)
    as [(Hnot & pos & Hpos) | (Hsat & Hneg & Hnan)].
  - rewrite Hpos. split; [intros H; discriminate H | intros H; contradiction].
  - rewrite Hnan. split; [intros _; auto | reflexivity].
Qed.

(** X14: for every date, the positions of all bodies are produced without
    an error: twelve entries, keyed by the twelve body identifiers in table
    order, each holding what [calculatePlanetPosition] returns for the
    date's Julian day; an entry that is a position has its longitude
    between 0 and 360; and, the Julian day being that of a date, an entry
    is a record of NaN exactly when it is Saturn's and the radicand of the
    square root is negative on that day. *)
Theorem calculateAllPlanetPositions_total (date : Date) :
  exists positions,
    calculateAllPlanetPositions date = Normal positions /\
    map fst positions = PlanetId_strings /\
    Forall (fun entry =>
              snd entry = calculatePlanetPosition (fst entry) (dateToJulianDay date) /\
              (forall message, snd entry <> Thrown message) /\
              (forall pos, snd entry = Returned pos -> 0 <= longitude pos <= 360) /\
              (inDateRange (dateToJulianDay date) ->
               (snd entry = ReturnedNaN <->
                (fst entry = "saturn"%string /\
                 radicand elements_saturn (dateToJulianDay date) < 0))))
           positions.
Proof.
  unfold calculateAllPlanetPositions. cbv zeta.
  set (jd := dateToJulianDay date).
  destruct (mapM_map
              (fun planet =>
                 match calculatePlanetPosition planet jd with
                 | Thrown message => Throw message
                 | outcome => Normal (planet, outcome)
                 end)
              fst (fun x => x)
              (fun entry =>
                 snd entry = calculatePlanetPosition (fst entry) jd /\
                 (forall message, snd entry <> Thrown message) /\
                 (forall pos, snd entry = Returned pos -> 0 <= longitude pos <= 360) /\
                 (inDateRange jd ->
                  (snd entry = ReturnedNaN <->
                   (fst entry = "saturn"%string /\ radicand elements_saturn jd < 0))))
              PlanetId_strings) as (ys & Hys & Hmap & HP).
  { intros x Hx.
    assert (Hp : exists p, x = PlanetId_string p).
    { apply mem_string_In in Hx. apply isPlanetId_true in Hx. exact Hx. }
    destruct Hp as (p & ->).
    pose proof (planet_position_not_thrown p jd) as Hnt.
    pose proof (planet_longitude_range p jd) as Hlon.
    pose proof (planet_NaN_iff p jd) as Hnan.
    destruct (calculatePlanetPosition (PlanetId_string p) jd) as [pos | | m] eqn:Hout.
    - eexists. split; [reflexivity |]. split; [reflexivity |].
      cbn [fst snd]. rewrite Hout.
      split; [reflexivity |]. split; [intros m H; discriminate H |].
      split; [| exact Hnan].
      intros pos0 H. destruct (Hlon pos0 H). lra.
    - eexists. split; [reflexivity |]. split; [reflexivity |].
      cbn [fst snd]. rewrite Hout.
      split; [reflexivity |]. split; [intros m H; discriminate H |].
      split; [intros pos0 H; discriminate H | exact Hnan].
    - exfalso. exact (Hnt m eq_refl). }
  exists ys. rewrite map_id in Hmap. auto.
Qed.

(** ** The shape of a natal chart *)

Lemma NoDup_firstn {A : Type} (n : nat) (l : list A) : NoDup l -> NoDup (firstn n l).
Proof.
  intros H. rewrite <- (firstn_skipn n l) in H. apply NoDup_app_remove_r in H. exact H.
Qed.

Lemma map_fst_planetScore (aspects : list AspectData) (l : list PlanetPlacement) :
  map fst (map (planetScore aspects) l) = map pl_id l.
Proof.
  rewrite map_map. apply map_ext. intros p. reflexivity.
Qed.

(** X15: every chart [calculateNatalChart] returns holds the twelve bodies
    in table order, none of them marked retrograde.  Each placement carries
    the longitude that the ephemeris returns for the chart's Julian day,
    between 0 and 360, the sign and the degree within the sign of that
    longitude, and the dignity of the body in that sign.  The twelve houses
    are numbered 1 to 12, the chart ruler is the ruler of the ascendant's
    sign, and the dominant bodies are three different bodies. *)
Theorem natal_chart_shape (bd : BirthData) (chart : NatalChart) :
  calculateNatalChart bd = Normal chart ->
  birthData chart = bd /\ julianDay chart = dateToJulianDay (bd_date bd) /\
  map pl_id (planets chart) = map planet_id PLANETS /\
  Forall (fun p =>
            pl_retrograde p = false /\
            0 <= pl_longitude p <= 360 /\
            (exists pos,
               calculatePlanetPosition (PlanetId_string (pl_id p)) (julianDay chart)
               = Returned pos /\
               pl_longitude p = longitude pos /\ pl_latitude p = latitude pos) /\
            (exists s, getZodiacSign (pl_longitude p) = Some s /\
                       pl_sign p = sign_id s /\ pl_signName p = sign_name s) /\
            pl_signDegree p = getSignDegree (pl_longitude p) /\
            pl_dignityScore p = calculateDignity (pl_id p) (pl_sign p))
         (planets chart) /\
  map hc_house (houses chart) = [1; 2; 3; 4; 5; 6; 7; 8; 9; 10; 11; 12]%Z /\
  (exists s, getZodiacSign (ascendant chart) = Some s /\
             chartRuler chart = sign_ruler s) /\
  List.length (dominantPlanets chart) = 3%nat /\ NoDup (dominantPlanets chart).
Proof.
  intros Hchart.
  destruct (calculateNatalChart_Normal bd chart Hchart)
    as (placed & hs & ascSign & Hplaced & Hhs & Hsign & Hbd & Hjd & Hp & Hh & Ha
        & _ & _ & _ & Hdom & Hruler).
  apply mapM_Normal in Hplaced.
  set (jd := dateToJulianDay (bd_date bd)) in *.
  set (asc := calculateAscendant jd (bd_latitude bd) (bd_longitude bd)) in *.
  assert (Hids : map pl_id (map fst placed) = map planet_id PLANETS).
  { rewrite map_map.
    apply (Forall2_map_eq _ (fun y => pl_id (fst y)) planet_id _ _ Hplaced).
    intros planet y Hy. apply placePlanet_Normal in Hy.
    destruct Hy as (position & sign & _ & _ & ->). reflexivity. }
  split; [exact Hbd |]. split; [exact Hjd |].
  rewrite Hp, Hh, Ha, Hjd, Hdom, Hruler.
  split; [exact Hids |].
  split.
  { apply Forall_forall. intros p Hin. apply in_map_iff in Hin.
    destruct Hin as (y & <- & Hy).
    destruct (Forall2_in_r _ _ _ y Hplaced Hy) as (planet & _ & Hpl).
    apply placePlanet_Normal in Hpl.
    destruct Hpl as (position & sign & Hpos & Hs & ->).
    cbn [fst pl_retrograde pl_longitude pl_latitude pl_id pl_sign pl_signName
         pl_signDegree pl_dignityScore].
    pose proof (planet_longitude_range _ _ _ Hpos) as Hr.
    split; [reflexivity |]. split; [lra |].
    split; [exists position; auto |].
    split; [exists sign; auto |]. split; reflexivity. }
  destruct (houses_of_cusps (equalHouseCusps asc) hs Hhs) as [_ Hnum].
  split; [rewrite Hnum; reflexivity |].
  split; [exists ascSign; auto |].
  set (scores := sort_desc snd _).
  assert (Hperm : Permutation (map fst scores) (map planet_id PLANETS)).
  { unfold scores. rewrite <- Hids, <- (map_fst_planetScore
      (calculateAllAspects (map snd placed) defaultAspectTypes) (map fst placed)).
    apply Permutation_map. apply sort_desc_perm. }
  rewrite <- firstn_map. split.
  - rewrite length_firstn. apply Permutation_length in Hperm.
    rewrite Hperm. reflexivity.
  - apply NoDup_firstn. apply (Permutation_NoDup (Permutation_sym Hperm)).
    simpl. repeat constructor; simpl; intuition discriminate.
Qed.

Lemma natal_chart_shape_witness :
  exists chart,
    calculateNatalChart (mkBirthData instant_J2000 40 116 "UTC" None) = Normal chart /\
    map pl_id (planets chart) = map planet_id PLANETS /\
    map hc_house (houses chart) = [1; 2; 3; 4; 5; 6; 7; 8; 9; 10; 11; 12]%Z /\
    List.length (dominantPlanets chart) = 3%nat.
Proof.
  destruct (chart_of_J2000_returned 40 116) as [chart Hchart].
  exists chart. split; [exact Hchart |].
  destruct (natal_chart_shape (mkBirthData instant_J2000 40 116 "UTC" None) chart Hchart)
    as (_ & _ & Hids & _ & Hhouses & _ & Hlen & _).
  auto.
Defined.

(** ** Element and modality tallies *)

Lemma findSign_total (z : ZodiacId) : exists s, findSign z = Some s /\ sign_id s = z.
Proof.
  destruct z; eexists; split; reflexivity.
Qed.

Lemma balanceWeight_or (p : PlanetId) :
  js_or (balanceWeight p) 1 = balanceWeight p /\ 1 <= balanceWeight p <= 4.
Proof.
  unfold js_or. destruct p; simpl; decide_reals; lra.
Qed.

Lemma tally_fold (l : list PlanetPlacement) (acc : ElementBalance * ModalityBalance) :
  let r :=
    fold_left
      (fun acc planet =>
         match findSign (pl_sign planet) with
         | Some sign =>
             let w := js_or (balanceWeight (pl_id planet)) 1 in
             (addElement (fst acc) (sign_element sign) w,
              addModality (snd acc) (sign_modality sign) w)
         | None => acc
         end) l acc in
  elementTotal (fst r)
  = elementTotal (fst acc) + fold_right Rplus 0 (map (fun p => balanceWeight (pl_id p)) l) /\
  modalityTotal (snd r)
  = modalityTotal (snd acc) + fold_right Rplus 0 (map (fun p => balanceWeight (pl_id p)) l).
Proof.
  cbv zeta. revert acc. induction l as [| p l IH]; intros acc.
  - simpl. split; lra.
  - cbn [fold_left map fold_right].
    destruct (findSign_total (pl_sign p)) as (s & -> & _).
    destruct (balanceWeight_or (pl_id p)) as [-> _].
    specialize (IH (addElement (fst acc) (sign_element s) (balanceWeight (pl_id p)),
                    addModality (snd acc) (sign_modality s) (balanceWeight (pl_id p)))).
    destruct IH as [-> ->]. cbn [fst snd].
    unfold elementTotal, modalityTotal, addElement, addModality.
    destruct (sign_element s), (sign_modality s); simpl; split; lra.
Qed.

Lemma tallyBalance_totals (l : list PlanetPlacement) :
  elementTotal (fst (tallyBalance l))
  = fold_right Rplus 0 (map (fun p => balanceWeight (pl_id p)) l) /\
  modalityTotal (snd (tallyBalance l))
  = fold_right Rplus 0 (map (fun p => balanceWeight (pl_id p)) l).
Proof.
  unfold tallyBalance.
  pose proof (tally_fold l (mkElementBalance 0 0 0 0, mkModalityBalance 0 0 0)) as H.
  cbv zeta in H. cbv zeta. destruct H as [He Hm].
  rewrite He, Hm. unfold elementTotal, modalityTotal. simpl. split; lra.
Qed.

(** X16: in every chart [calculateNatalChart] returns, the four element
    tallies add up to 26 and the three modality tallies add up to 26, the
    sum of the weights of the twelve bodies: every body is counted once,
    under the element and the modality of its sign. *)
Theorem natal_chart_balance_totals (bd : BirthData) (chart : NatalChart) :
  calculateNatalChart bd = Normal chart ->
  elementTotal (elementBalance chart) = 26 /\
  modalityTotal (modalityBalance chart) = 26 /\
  (elementBalance chart, modalityBalance chart) = tallyBalance (planets chart).
Proof.
  intros Hchart.
  destruct (calculateNatalChart_Normal bd chart Hchart)
    as (placed & hs & ascSign & Hplaced & _ & _ & _ & _ & Hp & _ & _ & _ & _ & Hbal & _).
  apply mapM_Normal in Hplaced.
  assert (Hids : map pl_id (map fst placed) = map planet_id PLANETS).
  { rewrite map_map.
    apply (Forall2_map_eq _ (fun y => pl_id (fst y)) planet_id _ _ Hplaced).
    intros planet y Hy. apply placePlanet_Normal in Hy.
    destruct Hy as (position & sign & _ & _ & ->). reflexivity. }
  destruct (tallyBalance_totals (map fst placed)) as [He Hm].
  assert (Hsum : fold_right Rplus 0 (map (fun p => balanceWeight (pl_id p)) (map fst placed))
                 = 26).
  { rewrite <- (map_map pl_id balanceWeight), Hids. simpl. lra. }
  rewrite Hsum in He, Hm. rewrite Hp.
  rewrite <- Hbal in He, Hm. cbn [fst snd] in He, Hm.
  split; [exact He |]. split; [exact Hm | exact Hbal].
Qed.

Lemma natal_chart_balance_totals_witness :
  exists chart,
    calculateNatalChart (mkBirthData instant_J2000 40 116 "UTC" None) = Normal chart /\
    elementTotal (elementBalance chart) = 26 /\
    modalityTotal (modalityBalance chart) = 26 /\
    (elementBalance chart, modalityBalance chart) = tallyBalance (planets chart).
Proof.
  destruct (chart_of_J2000_returned 40 116) as [chart Hchart].
  exists chart. split; [exact Hchart |].
  apply (natal_chart_balance_totals
           (mkBirthData instant_J2000 40 116 "UTC" None) chart Hchart).
Defined.

(** ** The Julian day is linear in time *)

Lemma Int_part_quot (a b : Z) : (0 < b)%Z -> Int_part (IZR a / IZR b) = (a / b)%Z.
Proof.
  intros Hb. symmetry. apply Int_part_spec.
  pose proof (Z.div_mod a b ltac:(lia)) as Hdm.
  pose proof (Z.mod_pos_bound a b Hb) as [Hm0 Hm1].
  assert (HbR : 0 < IZR b) by (apply IZR_lt; exact Hb).
  assert (Ha : IZR a = IZR b * IZR (a / b) + IZR (a mod b)).
  { rewrite <- mult_IZR, <- plus_IZR. f_equal. exact Hdm. }
  assert (Hq : IZR a / IZR b = IZR (a / b) + IZR (a mod b) / IZR b).
  { rewrite Ha. field. lra. }
  assert (H0 : 0 <= IZR (a mod b) / IZR b).
  { apply Rmult_le_pos; [apply IZR_le; exact Hm0 | left; apply Rinv_0_lt_compat; exact HbR]. }
  assert (H1 : IZR (a mod b) / IZR b < 1).
  { apply Rmult_lt_reg_r with (IZR b); [exact HbR |].
    unfold Rdiv. rewrite Rmult_assoc, Rinv_l by lra.
    rewrite Rmult_1_r, Rmult_1_l. apply IZR_lt. exact Hm1. }
  rewrite Hq. split; lra.
Qed.

(** The calendar date of a day number, in the terms of the Julian-day
    formula: [yy] and [mm] are the year and month after the shift of
    January and February to the end of the previous year. *)
Lemma civilFromDays_julian (n : Z) :
  let '(y, m, d) := civilFromDays n in
  let yy := if (m <=? 2)%Z then (y - 1)%Z else y in
  let mm := if (m <=? 2)%Z then (m + 12)%Z else m in
  ((1461 * (yy + 4716)) / 4 + ((153 * (mm - 3) + 2) / 5 + 122) + d + 2
   - yy / 100 + (yy / 100) / 4 = n + 2442112 /\
   3 <= mm <= 14 /\ 1 <= m <= 12 /\ 1 <= d <= 31)%Z.
Proof.
  unfold civilFromDays. cbv zeta.
  set (z := (n + 719468)%Z).
  set (era := (z / 146097)%Z).
  set (doe := (z - era * 146097)%Z).
  set (yoe := ((doe - doe / 1460 + doe / 36524 - doe / 146096) / 365)%Z).
  set (doy := (doe - (365 * yoe + yoe / 4 - yoe / 100))%Z).
  set (mp := ((5 * doy + 2) / 153)%Z).
  assert (H : (0 <= yoe <= 399 /\ 0 <= doy <= 365)%Z).
  { unfold doy, yoe, doe, era. Z.div_mod_to_equations. lia. }
  assert (Hmp : (0 <= mp <= 11)%Z) by (unfold mp; Z.div_mod_to_equations; lia).
  destruct (Z.ltb_spec mp 10).
  - destruct (Z.leb_spec (mp + 3) 2); [lia |].
    replace (mp + 3 - 3)%Z with mp by lia.
    repeat split; try lia.
    + unfold mp, doy, yoe, doe, era, z in *. Z.div_mod_to_equations. lia.
    + unfold mp in *. Z.div_mod_to_equations. lia.
    + unfold mp in *. Z.div_mod_to_equations. lia.
  - destruct (Z.leb_spec (mp - 9) 2); [| lia].
    replace (mp - 9 + 12 - 3)%Z with mp by lia.
    replace (yoe + era * 400 + 1 - 1)%Z with (yoe + era * 400)%Z by lia.
    repeat split; try lia.
    + unfold mp, doy, yoe, doe, era, z in *. Z.div_mod_to_equations. lia.
    + unfold mp in *. Z.div_mod_to_equations. lia.
    + unfold mp in *. Z.div_mod_to_equations. lia.
Qed.

Lemma floor_month_term (mm : Z) :
  (3 <= mm <= 14)%Z ->
  Math_floor (30.6001 * (IZR mm + 1)) = ((153 * (mm - 3) + 2) / 5 + 122)%Z.
Proof.
  intros H.
  assert (Hc : (mm = 3 \/ mm = 4 \/ mm = 5 \/ mm = 6 \/ mm = 7 \/ mm = 8 \/ mm = 9 \/
                mm = 10 \/ mm = 11 \/ mm = 12 \/ mm = 13 \/ mm = 14)%Z) by lia.
  unfold Math_floor.
  repeat (destruct Hc as [-> | Hc];
          [symmetry; apply Int_part_spec; vm_compute Z.div; simpl; lra |]).
  subst mm. symmetry. apply Int_part_spec. vm_compute Z.div. simpl. lra.
Qed.

Lemma floor_year_term (yy : Z) :
  Math_floor (365.25 * (IZR yy + 4716)) = ((1461 * (yy + 4716)) / 4)%Z.
Proof.
  unfold Math_floor. rewrite <- (Int_part_quot _ 4) by lia. f_equal.
  rewrite mult_IZR, plus_IZR. lra.
Qed.

Lemma time_of_day_seconds (t : Z) :
  let tod := TimeWithinDay t in
  (3600 * (tod / 3600000) + 60 * ((tod / 60000) mod 60) + (tod / 1000) mod 60
   = t / 1000 - 86400 * Day t)%Z.
Proof.
  unfold TimeWithinDay, Day, msPerDay. cbv zeta. Z.div_mod_to_equations. lia.
Qed.

(** X17: for every date, in the proleptic Gregorian calendar of the UTC
    getters, the Julian day is the number of whole seconds since the epoch
    divided by 86400, plus 2440587.5: the calendar formula is linear in
    time, and the milliseconds of the date are dropped. *)
Theorem dateToJulianDay_linear (date : Date) :
  dateToJulianDay date = IZR (getTime date / 1000) / 86400 + 2440587.5.
Proof.
  unfold dateToJulianDay, getUTCFullYear, getUTCMonth, getUTCDate,
    getUTCHours, getUTCMinutes, getUTCSeconds.
  set (t := getTime date).
  pose proof (civilFromDays_julian (Day t)) as Hc.
  pose proof (time_of_day_seconds t) as Ht. cbv zeta in Ht.
  destruct (civilFromDays (Day t)) as [[y m] d]. cbv zeta in Hc.
  destruct Hc as (Hsum & Hmm & Hm & Hd).
  replace (IZR (m - 1) + 1) with (IZR m) by (rewrite minus_IZR; lra).
  set (yy := if (m <=? 2)%Z then (y - 1)%Z else y) in *.
  set (mm := if (m <=? 2)%Z then (m + 12)%Z else m) in *.
  assert (Hy : (if Rle_dec (IZR m) 2 then IZR y - 1 else IZR y) = IZR yy).
  { unfold yy. destruct (Rle_dec (IZR m) 2) as [Hle | Hgt].
    - apply le_IZR in Hle. destruct (Z.leb_spec m 2); [| lia].
      rewrite minus_IZR. reflexivity.
    - destruct (Z.leb_spec m 2) as [Hle | _]; [| reflexivity].
      exfalso. apply Hgt. apply IZR_le. exact Hle. }
  assert (Hmo : (if Rle_dec (IZR m) 2 then IZR m + 12 else IZR m) = IZR mm).
  { unfold mm. destruct (Rle_dec (IZR m) 2) as [Hle | Hgt].
    - apply le_IZR in Hle. destruct (Z.leb_spec m 2); [| lia].
      rewrite plus_IZR. reflexivity.
    - destruct (Z.leb_spec m 2) as [Hle | _]; [| reflexivity].
      exfalso. apply Hgt. apply IZR_le. exact Hle. }
  rewrite Hy, Hmo.
  rewrite floor_year_term, (floor_month_term mm Hmm).
  unfold Math_floor.
  replace (IZR yy / 100) with (IZR yy / IZR 100) by reflexivity.
  rewrite (Int_part_quot yy 100) by lia.
  replace (IZR (yy / 100) / 4) with (IZR (yy / 100) / IZR 4) by reflexivity.
  rewrite (Int_part_quot (yy / 100) 4) by lia.
  set (h := (TimeWithinDay t / 3600000)%Z) in *.
  set (mi := ((TimeWithinDay t / 60000) mod 60)%Z) in *.
  set (s := ((TimeWithinDay t / 1000) mod 60)%Z) in *.
  assert (HtR : 3600 * IZR h + 60 * IZR mi + IZR s = IZR (t / 1000) - 86400 * IZR (Day t)).
  { rewrite <- !mult_IZR, <- !plus_IZR, <- minus_IZR. f_equal. exact Ht. }
  pose proof (f_equal IZR Hsum) as HsumR.
  repeat (rewrite plus_IZR in HsumR || rewrite minus_IZR in HsumR).
  repeat (rewrite plus_IZR || rewrite minus_IZR).
  lra.
Qed.

(** ** Annual profections *)

Lemma Int_part_IZR (z : Z) : Int_part (IZR z) = z.
Proof.
  symmetry. apply Int_part_spec. lra.
Qed.

Lemma Math_trunc_quot (a b : Z) :
  (0 < b)%Z -> Math_trunc (IZR a / IZR b) = Z.quot a b.
Proof.
  intros Hb. unfold Math_trunc.
  assert (HbR : 0 < IZR b) by (apply IZR_lt; exact Hb).
  destruct (Rle_dec 0 (IZR a / IZR b)) as [Hpos | Hneg].
  - assert (Ha : (0 <= a)%Z).
    { apply le_IZR. apply Rmult_le_reg_r with (/ IZR b);
        [apply Rinv_0_lt_compat; exact HbR |]. rewrite Rmult_0_l. exact Hpos. }
    rewrite Int_part_quot by exact Hb. symmetry. apply Z.quot_div_nonneg; lia.
  - assert (Ha : (a < 0)%Z).
    { apply lt_IZR. destruct (Rlt_dec (IZR a) 0) as [H | H]; [exact H |].
      exfalso. apply Hneg. apply Rmult_le_pos; [lra |].
      left. apply Rinv_0_lt_compat. exact HbR. }
    replace (- (IZR a / IZR b)) with (IZR (- a) / IZR b)
      by (rewrite opp_IZR; unfold Rdiv; ring).
    rewrite Int_part_quot by exact Hb.
    rewrite <- (Z.quot_div_nonneg (- a) b) by lia.
    rewrite Z.quot_opp_l by lia. lia.
Qed.

Lemma js_rem_IZR (a b : Z) :
  (0 < b)%Z -> js_rem (IZR a) (IZR b) = IZR (Z.rem a b).
Proof.
  intros Hb. unfold js_rem. rewrite Math_trunc_quot by exact Hb.
  rewrite <- mult_IZR, <- minus_IZR. f_equal.
  pose proof (Z.quot_rem' a b). lia.
Qed.

Lemma js_rem_12_nonneg (n : Z) : (0 <= n)%Z -> js_rem (IZR n) 12 = IZR (n mod 12).
Proof.
  intros Hn. rewrite (js_rem_IZR n 12) by lia. f_equal. apply Z.rem_mod_nonneg; lia.
Qed.

Lemma js_index_IZR {A : Type} (l : list A) (k : Z) :
  js_index l (IZR k) = if (k <? 0)%Z then None else nth_error l (Z.to_nat k).
Proof.
  unfold js_index, Math_floor. rewrite Int_part_IZR.
  destruct (Req_dec_T (IZR k) (IZR k)) as [_ | n]; [reflexivity | contradiction].
Qed.

Lemma findHouse_row (k : Z) :
  (0 <= k < 12)%Z ->
  exists h, nth_error HOUSES (Z.to_nat k) = Some h /\ findHouse (k + 1) = Some h /\
            house_id h = (k + 1)%Z /\ isEmptyString (house_name h) = false /\
            isEmptyString (house_theme h) = false.
Proof.
  intros Hk.
  assert (Hn : exists n, (n < 12)%nat /\ k = Z.of_nat n).
  { exists (Z.to_nat k). split; lia. }
  destruct Hn as (n & Hn & ->). rewrite Nat2Z.id.
  do 12 (destruct n as [| n]; [eexists; repeat split; reflexivity |]).
  lia.
Qed.

Lemma option_PlanetId_eqb_refl (a : option PlanetId) : option_PlanetId_eqb a a = true.
Proof.
  destruct a as [p |]; [destruct p |]; reflexivity.
Qed.

Lemma ZodiacId_beq_refl (z : ZodiacId) : ZodiacId_beq z z = true.
Proof.
  destruct z; reflexivity.
Qed.

Section ProfectionProperties.

Variable getFullYear : Date -> Z.

(** The profection of a whole, non-negative age on a chart with twelve
    houses. *)
Lemma calculateAnnualProfection_whole (natalChart : NatalChart) (n : Z) :
  (12 <= List.length (houses natalChart))%nat -> (0 <= n)%Z ->
  exists p houseCusp sign h,
    calculateAnnualProfection getFullYear natalChart (IZR n) = Normal p /\
    nth_error (houses natalChart) (Z.to_nat (n mod 12)) = Some houseCusp /\
    findSign (hc_sign houseCusp) = Some sign /\
    nth_error HOUSES (Z.to_nat (n mod 12)) = Some h /\
    ap_house p = (n mod 12 + 1)%Z /\
    ap_sign p = hc_sign houseCusp /\ ap_signName p = sign_name sign /\
    ap_lordOfYear p = Some (sign_ruler sign) /\
    ap_houseName p = house_name h /\ ap_houseTheme p = house_theme h /\
    ap_houseKeywords p = house_keywords h /\
    ap_year p = IZR (getFullYear (bd_date (birthData natalChart)) + n) /\
    ap_age p = IZR n /\
    forall m, (0 <= m)%Z -> (m mod 12 = n mod 12)%Z ->
      calculateAnnualProfection getFullYear natalChart (IZR m)
      = Normal (withYearAndAge p
                  (IZR (getFullYear (bd_date (birthData natalChart)) + m)) (IZR m)).
Proof.
  intros Hlen Hn.
  pose proof (Z.mod_pos_bound n 12 ltac:(lia)) as Hk.
  set (k := (n mod 12)%Z) in *.
  destruct (nth_error (houses natalChart) (Z.to_nat k)) as [hc |] eqn:Hhc.
  2:{ apply nth_error_None in Hhc. lia. }
  destruct (findSign_total (hc_sign hc)) as (s & Hs & _).
  destruct (findHouse_row k Hk) as (h & Hrow & Hfind & Hid & Hname & Htheme).
  assert (Hcalc : forall m, (0 <= m)%Z -> (m mod 12 = k)%Z ->
            calculateAnnualProfection getFullYear natalChart (IZR m)
            = Normal
                (mkProfection
                   (IZR (getFullYear (bd_date (birthData natalChart)) + m)) (IZR m)
                   (k + 1) (house_name h) (house_theme h) (house_keywords h)
                   (hc_sign hc) (or_string (Some (sign_name s)) "")
                   (Some (sign_ruler s))
                   (or_string (option_map planet_name (findPlanet (sign_ruler s))) "")
                   (or_string (option_map planet_symbol (findPlanet (sign_ruler s))) "")
                   (or_house (option_map pl_house
                                (find (fun p => PlanetId_beq (pl_id p) (sign_ruler s))
                                      (planets natalChart))) 1)
                   match find (fun p => PlanetId_beq (pl_id p) (sign_ruler s))
                              (planets natalChart) with
                   | Some p => pl_sign p
                   | None => aries
                   end
                   (generateProfectionDescription (k + 1)
                      (house_theme h)
                      (or_string (Some (sign_name s)) "")
                      (or_string (option_map planet_name (findPlanet (sign_ruler s))) "")
                      (or_house (option_map pl_house
                                   (find (fun p => PlanetId_beq (pl_id p) (sign_ruler s))
                                         (planets natalChart))) 1)
                      (or_string (option_map pl_signName
                                    (find (fun p => PlanetId_beq (pl_id p) (sign_ruler s))
                                          (planets natalChart))) "")))).
  { intros m Hm Hmk. unfold calculateAnnualProfection.
    rewrite (js_rem_12_nonneg m Hm), Hmk, js_index_IZR.
    destruct (Z.ltb_spec k 0) as [Hneg | _]; [lia |].
    rewrite Hhc. unfold Math_floor. rewrite Int_part_IZR.
    rewrite Hs, Hfind. cbn [option_map].
    assert (Hn1 : forall d, or_string (Some (house_name h)) d = house_name h)
      by (intros d; unfold or_string; rewrite Hname; reflexivity).
    assert (Ht1 : forall d, or_string (Some (house_theme h)) d = house_theme h)
      by (intros d; unfold or_string; rewrite Htheme; reflexivity).
    rewrite !Hn1, !Ht1, plus_IZR. reflexivity. }
  eexists. exists hc, s, h.
  split; [apply (Hcalc n Hn); reflexivity |].
  cbn [ap_house ap_sign ap_signName ap_lordOfYear ap_houseName ap_houseTheme
       ap_houseKeywords ap_year ap_age].
  repeat split; try reflexivity; try assumption.
  unfold or_string. destruct (isEmptyString (sign_name s)) eqn:He; [| reflexivity].
  unfold isEmptyString in He. apply String.eqb_eq in He. symmetry. exact He.
Qed.

(** X18: on a chart with at least twelve houses, the profection of a
    whole, non-negative age activates house [age mod 12 + 1], with that
    house's name, theme and keywords; its sign is the sign on that house's
    cusp and its lord is the ruler of that sign; the year is the birth year
    plus the age.  The profection twelve years later is the same in every
    field but year and age, and the comparison of the two years rates them
    at 100. *)
Theorem calculateAnnualProfection_cycle (natalChart : NatalChart) (n : Z) :
  (12 <= List.length (houses natalChart))%nat -> (0 <= n)%Z ->
  exists p houseCusp sign h,
    calculateAnnualProfection getFullYear natalChart (IZR n) = Normal p /\
    nth_error (houses natalChart) (Z.to_nat (n mod 12)) = Some houseCusp /\
    findSign (hc_sign houseCusp) = Some sign /\
    nth_error HOUSES (Z.to_nat (n mod 12)) = Some h /\
    ap_house p = (n mod 12 + 1)%Z /\
    ap_sign p = hc_sign houseCusp /\ ap_signName p = sign_name sign /\
    ap_lordOfYear p = Some (sign_ruler sign) /\
    ap_houseName p = house_name h /\ ap_houseTheme p = house_theme h /\
    ap_houseKeywords p = house_keywords h /\
    ap_year p = IZR (getFullYear (bd_date (birthData natalChart)) + n) /\
    ap_age p = IZR n /\
    calculateAnnualProfection getFullYear natalChart (IZR (n + 12))
    = Normal (withYearAndAge p (ap_year p + 12) (ap_age p + 12)) /\
    similarity (compareProfectionYears p (withYearAndAge p (ap_year p + 12) (ap_age p + 12)))
    = 100.
Proof.
  intros Hlen Hn.
  destruct (calculateAnnualProfection_whole natalChart n Hlen Hn)
    as (p & hc & s & h & H1 & H2 & H3 & H4 & H5 & H6 & H7 & H8 & H9 & H10 & H11
        & H12 & H13 & Hnext).
  exists p, hc, s, h. repeat (split; [assumption |]).
  split.
  - rewrite (Hnext (n + 12)%Z) by (try lia; rewrite Z.add_mod, Z.mod_same, Z.add_0_r,
                                     Z.mod_mod by lia; reflexivity).
    rewrite H12, H13. unfold withYearAndAge. f_equal.
    f_equal; rewrite !plus_IZR; lra.
  - unfold compareProfectionYears, withYearAndAge.
    cbn [ap_house ap_lordOfYear ap_sign similarity].
    rewrite Z.eqb_refl, option_PlanetId_eqb_refl, ZodiacId_beq_refl. lra.
Qed.

End ProfectionProperties.

Lemma calculateAnnualProfection_cycle_witness :
  (12 <= List.length (houses emptyChart))%nat /\ (0 <= 30)%Z /\
  exists p,
    calculateAnnualProfection getUTCFullYear emptyChart (IZR 30) = Normal p /\
    ap_house p = (30 mod 12 + 1)%Z.
Proof.
  split; [simpl; lia |]. split; [lia |].
  destruct (calculateAnnualProfection_cycle getUTCFullYear emptyChart 30)
    as (p & hc & s & h & H1 & _ & _ & _ & H5 & _); [simpl; lia | lia |].
  exists p. split; [exact H1 | exact H5].
Defined.

Section ProfectionDomain.

Variable getFullYear : Date -> Z.

(** X19: on a chart with at least twelve houses, the annual profection is
    produced exactly for the ages that are whole numbers and either
    non-negative or a multiple of 12; for every other age, a fractional one
    or a negative one that is not a multiple of 12, the call throws a
    TypeError. *)
Theorem calculateAnnualProfection_domain (natalChart : NatalChart) (age : R) :
  (12 <= List.length (houses natalChart))%nat ->
  match calculateAnnualProfection getFullYear natalChart age with
  | Normal p => exists n, age = IZR n /\ (0 <= n \/ n mod 12 = 0)%Z
  | Throw message =>
      message = "TypeError"%string /\
      ~ exists n, age = IZR n /\ (0 <= n \/ n mod 12 = 0)%Z
  end.
Proof.
  intros Hlen. unfold calculateAnnualProfection.
  destruct (js_index (houses natalChart) (js_rem age 12)) as [hc |] eqn:E.
  - unfold js_index, Math_floor in E.
    set (k := Int_part (js_rem age 12)) in *.
    destruct (Req_dec_T (IZR k) (js_rem age 12)) as [Heq | _]; [| discriminate].
    destruct (Z.ltb_spec k 0) as [_ | Hk]; [discriminate |].
    unfold js_rem in Heq. set (t := Math_trunc (age / 12)) in *.
    exists (k + 12 * t)%Z. split.
    + rewrite plus_IZR, mult_IZR. lra.
    + destruct (Rle_dec 0 age) as [Hpos | Hneg].
      * left. apply le_IZR. rewrite plus_IZR, mult_IZR. lra.
      * right.
        destruct (js_rem_sign age 12 ltac:(lra)) as [_ Hs].
        specialize (Hs ltac:(lra)). unfold js_rem in Hs. fold t in Hs.
        assert (Hk0 : (k <= 0)%Z) by (apply le_IZR; lra).
        replace k with 0%Z by lia. rewrite Z.add_0_l, Z.mul_comm.
        apply Z.mod_mul. lia.
  - split; [reflexivity |]. intros (n & -> & Hn).
    change 12 with (IZR 12) in E. rewrite js_rem_IZR, js_index_IZR in E by lia.
    assert (Hr : (0 <= Z.rem n 12 < 12)%Z).
    { destruct Hn as [Hn | Hn].
      - rewrite Z.rem_mod_nonneg by lia. apply Z.mod_pos_bound. lia.
      - apply Z.mod_divide in Hn; [| lia]. apply Z.rem_divide in Hn; [| lia]. lia. }
    destruct (Z.ltb_spec (Z.rem n 12) 0) as [Hneg | _]; [lia |].
    apply nth_error_None in E. lia.
Qed.

End ProfectionDomain.

Lemma calculateAnnualProfection_domain_witness :
  (12 <= List.length (houses emptyChart))%nat /\
  match calculateAnnualProfection getUTCFullYear emptyChart (-1) with
  | Normal p => exists n, -1 = IZR n /\ (0 <= n \/ n mod 12 = 0)%Z
  | Throw message =>
      message = "TypeError"%string /\
      ~ exists n, -1 = IZR n /\ (0 <= n \/ n mod 12 = 0)%Z
  end.
Proof.
  split; [simpl; lia |].
  apply (calculateAnnualProfection_domain getUTCFullYear emptyChart (-1)). simpl. lia.
Defined.

Lemma option_PlanetId_eqb_sym (a b : option PlanetId) :
  option_PlanetId_eqb a b = option_PlanetId_eqb b a.
Proof.
  destruct a as [x |], b as [y |]; try reflexivity. destruct x, y; reflexivity.
Qed.

Lemma ZodiacId_beq_sym (a b : ZodiacId) : ZodiacId_beq a b = ZodiacId_beq b a.
Proof.
  destruct a, b; reflexivity.
Qed.

(** X20: the similarity of two profection years is 50 for the same house
    plus 30 for the same lord plus 20 for the same sign, so it is one of 0,
    20, 30, 50, 70, 80 and 100.  The verdict is the highest of the three
    exactly when house and lord are both the same, whatever the signs, and
    the lowest exactly when the houses differ and lord and sign are not
    both the same.  The comparison gives the same result in either order,
    and a year compared with itself is rated 100. *)
Theorem compareProfectionYears_similarity (profection1 profection2 : AnnualProfection) :
  let c := compareProfectionYears profection1 profection2 in
  similarity c = (if sameHouse c then 50 else 0) + (if sameLord c then 30 else 0)
                 + (if sameSign c then 20 else 0) /\
  In (similarity c) [0; 20; 30; 50; 70; 80; 100] /\
  (comparison c = "这两年的主题高度相似，可以参考之前年份的经验"%string
   <-> sameHouse c = true /\ sameLord c = true) /\
  (comparison c = "这两年的主题差异较大，需要不同的应对策略"%string
   <-> sameHouse c = false /\ sameLord c && sameSign c = false) /\
  compareProfectionYears profection2 profection1 = c /\
  similarity (compareProfectionYears profection1 profection1) = 100.
Proof.
  cbv zeta. unfold compareProfectionYears.
  rewrite (Z.eqb_sym (ap_house profection2)),
    (option_PlanetId_eqb_sym (ap_lordOfYear profection2)),
    (ZodiacId_beq_sym (ap_sign profection2)).
  rewrite Z.eqb_refl, option_PlanetId_eqb_refl, ZodiacId_beq_refl.
  cbn [similarity sameHouse sameLord sameSign comparison].
  destruct (ap_house profection1 =? ap_house profection2)%Z;
    destruct (option_PlanetId_eqb (ap_lordOfYear profection1) (ap_lordOfYear profection2));
    destruct (ZodiacId_beq (ap_sign profection1) (ap_sign profection2));
    decide_comparisons; cbn [andb orb];
    (split; [lra |]);
    (split; [simpl; repeat (first [left; lra | right]) |]);
    (split; [split; [intros H; first [discriminate H | split; reflexivity]
                    | intros [H1 H2];
                      first [reflexivity | discriminate H1 | discriminate H2]] |]);
    (split; [split; [intros H; first [discriminate H | split; reflexivity]
                    | intros [H1 H2];
                      first [reflexivity | discriminate H1 | discriminate H2]] |]);
    (split; [reflexivity | lra]).
Qed.

Section ProfectionMaps.

Variable getFullYear : Date -> Z.

(** X21: on a chart with at least twelve houses the life map is produced.
    It holds the profections of the ages 0 to 100, in order, each the
    annual profection of its age.  The current year is the profection of
    the current age when that is a whole number from 0 to 100, and is
    absent otherwise; the upcoming years are the listed profections whose
    age is above the current age and at most [yearsToShow] above it; and
    for a whole, non-negative current age the cycle number and the years
    into the cycle split the age by twelves. *)
Theorem calculateLifeProfectionMap_ages (natalChart : NatalChart) (currentAge : R)
  (yearsToShow : option R) :
  (12 <= List.length (houses natalChart))%nat ->
  exists m,
    calculateLifeProfectionMap getFullYear natalChart currentAge yearsToShow = Normal m /\
    map ap_age (profections m) = map (fun i => IZR (Z.of_nat i)) (seq 0 101) /\
    Forall (fun p => calculateAnnualProfection getFullYear natalChart (ap_age p) = Normal p)
           (profections m) /\
    (forall n, (0 <= n <= 100)%Z -> currentAge = IZR n ->
       exists p, currentYear m = Some p /\
                 calculateAnnualProfection getFullYear natalChart currentAge = Normal p) /\
    ((forall n, (0 <= n <= 100)%Z -> currentAge <> IZR n) -> currentYear m = None) /\
    (forall p, In p (upcomingYears m) <->
       In p (profections m) /\
       currentAge < ap_age p <=
       currentAge + match yearsToShow with Some y => y | None => 12 end) /\
    (forall n, (0 <= n)%Z -> currentAge = IZR n ->
       currentCycleNumber (cycleAnalysis m) = (n / 12 + 1)%Z /\
       yearsIntoCurrentCycle (cycleAnalysis m) = IZR (n mod 12) /\
       currentAge = 12 * IZR (currentCycleNumber (cycleAnalysis m) - 1)
                    + yearsIntoCurrentCycle (cycleAnalysis m)).
Proof.
  intros Hlen. unfold calculateLifeProfectionMap.
  destruct (mapM_map
              (fun age => calculateAnnualProfection getFullYear natalChart
                            (IZR (Z.of_nat age)))
              ap_age (fun i => IZR (Z.of_nat i))
              (fun p => calculateAnnualProfection getFullYear natalChart (ap_age p)
                        = Normal p)
              (seq 0 101)) as (ps & -> & Hages & Hps).
  { intros i _.
    destruct (calculateAnnualProfection_whole getFullYear natalChart (Z.of_nat i) Hlen
                ltac:(lia))
      as (p & hc & s & h & H1 & _ & _ & _ & _ & _ & _ & _ & _ & _ & _ & _ & H13 & _).
    exists p. rewrite H13. auto. }
  eexists. split; [reflexivity |].
  cbn [bind profections currentYear upcomingYears cycleAnalysis].
  split; [exact Hages |]. split; [exact Hps |].
  rewrite Forall_forall in Hps.
  split; [| split; [| split]].
  - intros n Hn ->.
    destruct (find (fun p => eqb_number (ap_age p) (IZR n)) ps) as [p |] eqn:Hf.
    + apply find_some in Hf. destruct Hf as [Hin Heq].
      unfold eqb_number in Heq. destruct (Req_dec_T (ap_age p) (IZR n)) as [<- | _];
        [| discriminate].
      exists p. split; [reflexivity | apply Hps; exact Hin].
    + exfalso.
      assert (Hin : In (IZR n) (map ap_age ps)).
      { rewrite Hages. apply in_map_iff. exists (Z.to_nat n).
        split; [rewrite Z2Nat.id by lia; reflexivity | apply in_seq; lia]. }
      apply in_map_iff in Hin. destruct Hin as (p & Hp & Hin).
      pose proof (find_none _ _ Hf p Hin) as Hn'. cbv beta in Hn'.
      unfold eqb_number in Hn'. rewrite Hp in Hn'.
      destruct (Req_dec_T (IZR n) (IZR n)); [discriminate | contradiction].
  - intros Hnot.
    destruct (find (fun p => eqb_number (ap_age p) currentAge) ps) as [p |] eqn:Hf;
      [| reflexivity].
    exfalso. apply find_some in Hf. destruct Hf as [Hin Heq].
    unfold eqb_number in Heq. destruct (Req_dec_T (ap_age p) currentAge) as [Hp | _];
      [| discriminate].
    assert (Hin' : In (ap_age p) (map ap_age ps)) by (apply in_map; exact Hin).
    rewrite Hages in Hin'. apply in_map_iff in Hin'. destruct Hin' as (i & Hi & Hseq).
    apply in_seq in Hseq. apply (Hnot (Z.of_nat i)); [lia | congruence].
  - intros p. rewrite filter_In. unfold gtb, ltb, leb.
    destruct (Rlt_dec currentAge (ap_age p));
      destruct (Rle_dec (ap_age p) _); simpl; split; intros [H1 H2];
      try discriminate; try (split; [exact H1 |]); try reflexivity; try lra.
  - intros n Hn ->. unfold analyzeCycles.
    cbn [currentCycleNumber yearsIntoCurrentCycle]. unfold Math_floor.
    change 12 with (IZR 12) at 1. rewrite Int_part_quot by lia.
    rewrite js_rem_12_nonneg by exact Hn.
    split; [reflexivity |]. split; [reflexivity |].
    rewrite <- mult_IZR, <- plus_IZR. f_equal.
    pose proof (Z.div_mod n 12 ltac:(lia)). lia.
Qed.

(** X22: on a chart with at least twelve houses, the wheel for a whole,
    non-negative age has one entry per house, numbered 1 to 12 and carrying
    the sign on the house's cusp; the entry marked as the current year is
    the entry of the house that the annual profection of that age
    activates, and it carries the sign of that profection. *)
Theorem getProfectionWheelData_current (natalChart : NatalChart) (n : Z) :
  (12 <= List.length (houses natalChart))%nat -> (0 <= n)%Z ->
  exists wheel p,
    getProfectionWheelData natalChart (IZR n) = Normal wheel /\
    calculateAnnualProfection getFullYear natalChart (IZR n) = Normal p /\
    map wheel_house wheel = [1; 2; 3; 4; 5; 6; 7; 8; 9; 10; 11; 12]%Z /\
    Forall (fun e =>
              (exists houseCusp,
                 nth_error (houses natalChart) (Z.to_nat (wheel_house e - 1))
                 = Some houseCusp /\ wheel_sign e = hc_sign houseCusp) /\
              (isCurrentYear e = true <-> wheel_house e = ap_house p) /\
              (isCurrentYear e = true -> wheel_sign e = ap_sign p))
           wheel.
Proof.
  intros Hlen Hn.
  destruct (calculateAnnualProfection_whole getFullYear natalChart n Hlen Hn)
    as (p & hc & s & h & H1 & H2 & _ & _ & H5 & H6 & _).
  pose proof (Z.mod_pos_bound n 12 ltac:(lia)) as Hk.
  unfold getProfectionWheelData. cbv zeta.
  rewrite js_rem_12_nonneg by exact Hn.
  destruct (mapM_map
              (fun i =>
                 match nth_error (houses natalChart) i with
                 | None => Throw "TypeError"
                 | Some houseCusp =>
                     Normal
                       (mkWheelEntry (Z.of_nat i + 1) (hc_sign houseCusp)
                          (or_string (option_map sign_symbol
                                        (findSign (hc_sign houseCusp))) "")
                          (or_string
                             (option_map planet_symbol
                                match option_map sign_ruler
                                        (findSign (hc_sign houseCusp)) with
                                | Some l => findPlanet l
                                | None => None
                                end) "")
                          (eqb_number (IZR (Z.of_nat i + 1)) (IZR (n mod 12) + 1))
                          (or_string (option_map house_theme
                                        (findHouse (Z.of_nat i + 1))) ""))
                 end)
              wheel_house (fun i => (Z.of_nat i + 1)%Z)
              (fun e =>
                 (exists houseCusp,
                    nth_error (houses natalChart) (Z.to_nat (wheel_house e - 1))
                    = Some houseCusp /\ wheel_sign e = hc_sign houseCusp) /\
                 (isCurrentYear e = true <-> wheel_house e = ap_house p) /\
                 (isCurrentYear e = true -> wheel_sign e = ap_sign p))
              (seq 0 12)) as (w & Hw & Hmap & HP).
  { intros i Hi. apply in_seq in Hi.
    destruct (nth_error (houses natalChart) i) as [c |] eqn:Hc.
    2:{ apply nth_error_None in Hc. lia. }
    eexists. split; [reflexivity |]. split; [reflexivity |].
    cbn [wheel_house wheel_sign isCurrentYear].
    replace (Z.to_nat (Z.of_nat i + 1 - 1)) with i by lia.
    assert (Hcur : eqb_number (IZR (Z.of_nat i + 1)) (IZR (n mod 12) + 1) = true
                   <-> (Z.of_nat i + 1 = n mod 12 + 1)%Z).
    { unfold eqb_number.
      destruct (Req_dec_T (IZR (Z.of_nat i + 1)) (IZR (n mod 12) + 1)) as [He | Hne].
      - split; [intros _ | reflexivity].
        apply eq_IZR. rewrite (plus_IZR (n mod 12)). exact He.
      - split; [discriminate |]. intros He. exfalso. apply Hne.
        rewrite He, plus_IZR. reflexivity. }
    split; [exists c; auto |]. rewrite H5. split; [exact Hcur |].
    intros Ht. apply Hcur in Ht. rewrite H6.
    assert (Hi' : i = Z.to_nat (n mod 12)) by lia.
    rewrite Hi' in Hc. rewrite Hc in H2. injection H2 as ->. reflexivity. }
  exists w, p. split; [exact Hw |]. split; [exact H1 |].
  split; [rewrite Hmap; reflexivity | exact HP].
Qed.

End ProfectionMaps.

Lemma calculateLifeProfectionMap_ages_witness :
  (12 <= List.length (houses emptyChart))%nat /\
  exists m,
    calculateLifeProfectionMap getUTCFullYear emptyChart 30 None = Normal m /\
    map ap_age (profections m) = map (fun i => IZR (Z.of_nat i)) (seq 0 101).
Proof.
  split; [simpl; lia |].
  destruct (calculateLifeProfectionMap_ages getUTCFullYear emptyChart 30 None)
    as (m & Hm & Hages & _); [simpl; lia |].
  exists m. split; [exact Hm | exact Hages].
Defined.

Lemma getProfectionWheelData_current_witness :
  (12 <= List.length (houses emptyChart))%nat /\ (0 <= 30)%Z /\
  exists wheel,
    getProfectionWheelData emptyChart (IZR 30) = Normal wheel /\
    map wheel_house wheel = [1; 2; 3; 4; 5; 6; 7; 8; 9; 10; 11; 12]%Z.
Proof.
  split; [simpl; lia |]. split; [lia |].
  destruct (getProfectionWheelData_current getUTCFullYear emptyChart 30)
    as (w & p & Hw & _ & Hmap & _); [simpl; lia | lia |].
  exists w. split; [exact Hw | exact Hmap].
Defined.

(** ** Deduplication of factors *)

Lemma mem_string_cons (k x : string) (l : list string) :
  mem_string k (x :: l) = String.eqb k x || mem_string k l.
Proof.
  reflexivity.
Qed.

Lemma dedupLoop_in (l : list AppliedFactor) (seen : list string) (g : AppliedFactor) :
  In g (dedupLoop seen l) -> In g l /\ mem_string (factorKey g) seen = false.
Proof.
  revert seen. induction l as [| f rest IH]; intros seen; simpl; [contradiction |].
  destruct (mem_string (factorKey f) seen) eqn:Hmem.
  - intros H. destruct (IH seen H). auto.
  - intros [<- | H]; [auto |].
    destruct (IH _ H) as [Hin Hfalse].
    apply mem_string_cons_false in Hfalse. destruct Hfalse. auto.
Qed.

Lemma dedupLoop_NoDup (l : list AppliedFactor) (seen : list string) :
  NoDup (map factorKey (dedupLoop seen l)).
Proof.
  revert seen. induction l as [| f rest IH]; intros seen; simpl; [constructor |].
  destruct (mem_string (factorKey f) seen) eqn:Hmem; [apply IH |].
  simpl. constructor; [| apply IH].
  intros Hin. apply in_map_iff in Hin. destruct Hin as (g & Hkey & Hg).
  apply dedupLoop_in in Hg. destruct Hg as [_ Hfalse].
  rewrite mem_string_cons, Hkey, String.eqb_refl in Hfalse. discriminate.
Qed.

Lemma dedupLoop_sorted (key : AppliedFactor -> R) (l : list AppliedFactor)
  (seen : list string) :
  StronglySorted (fun a b => key b <= key a) l ->
  StronglySorted (fun a b => key b <= key a) (dedupLoop seen l).
Proof.
  revert seen. induction l as [| f rest IH]; intros seen Hs; simpl; [constructor |].
  inversion Hs as [| ? ? Hrest Hall]; subst.
  destruct (mem_string (factorKey f) seen); [apply IH; exact Hrest |].
  constructor; [apply IH; exact Hrest |].
  apply Forall_forall. intros g Hg. apply dedupLoop_in in Hg.
  rewrite Forall_forall in Hall. apply Hall. tauto.
Qed.

Lemma dedupLoop_covers (key : AppliedFactor -> R) (l : list AppliedFactor)
  (seen : list string) :
  StronglySorted (fun a b => key b <= key a) l ->
  forall f, In f l ->
    mem_string (factorKey f) seen = true \/
    exists g, In g (dedupLoop seen l) /\ factorKey g = factorKey f /\ key f <= key g.
Proof.
  revert seen. induction l as [| x rest IH]; intros seen Hs f Hin; [contradiction |].
  inversion Hs as [| ? ? Hrest Hall]; subst. rewrite Forall_forall in Hall.
  simpl. destruct (mem_string (factorKey x) seen) eqn:Hmem.
  - destruct Hin as [<- | Hin]; [left; exact Hmem |].
    apply (IH seen Hrest f Hin).
  - destruct Hin as [<- | Hin].
    + right. exists x. split; [left; reflexivity |]. split; [reflexivity | lra].
    + destruct (IH (factorKey x :: seen) Hrest f Hin) as [Hseen | (g & Hg & Hk & Hle)].
      * rewrite mem_string_cons in Hseen. apply orb_true_iff in Hseen.
        destruct Hseen as [Heq | Hseen]; [| left; exact Hseen].
        apply String.eqb_eq in Heq. right. exists x.
        split; [left; reflexivity |]. split; [symmetry; exact Heq | apply Hall; exact Hin].
      * right. exists g. split; [right; exact Hg | auto].
Qed.

(** X23: the deduplicated factors are factors of the input, ordered by the
    size of their adjustment, largest first, and no two of them have the
    same key, the type and the name joined by an underscore.  Every factor
    of the input is represented: the result holds a factor with its key
    whose adjustment is at least as large in size. *)
Theorem deduplicateFactors_largest_per_key (factors : list AppliedFactor) :
  let out := deduplicateFactors factors in
  (forall g, In g out -> In g factors) /\
  NoDup (map factorKey out) /\
  StronglySorted (fun a b => Rabs (adjustment b) <= Rabs (adjustment a)) out /\
  forall f, In f factors ->
    exists g, In g out /\ factorKey g = factorKey f /\
              Rabs (adjustment f) <= Rabs (adjustment g).
Proof.
  cbv zeta. unfold deduplicateFactors.
  set (key := fun f => Math_abs (adjustment f)).
  pose proof (sort_desc_sorted key factors) as Hs.
  split; [| split; [| split]].
  - intros g Hg. apply dedupLoop_in in Hg. apply (in_sort_desc key). tauto.
  - apply dedupLoop_NoDup.
  - apply (dedupLoop_sorted key). exact Hs.
  - intros f Hf. apply (in_sort_desc key) in Hf.
    destruct (dedupLoop_covers key _ [] Hs f Hf) as [Hseen | (g & Hg & Hk & Hle)];
      [discriminate |].
    exists g. auto.
Qed.

(** ** The score of a list of aspects *)

Lemma addAspectScore_step (h t n : R) (a : AspectData) :
  addAspectScore (h, t, n) a
  = (if existsb (AspectId_beq (aspectType a)) [trine; sextile]
     then h + weight a else h,
     if existsb (AspectId_beq (aspectType a))
          [opposition; square; quincunx; semisquare; sesquiquadrate]
     then t + weight a else t,
     if existsb (AspectId_beq (aspectType a))
          [conjunction; semisextile; quintile; biquintile]
     then n + weight a else n).
Proof.
  unfold addAspectScore. destruct (aspectType a); reflexivity.
Qed.

Lemma fold_addAspectScore (l : list AspectData) (h t n : R) :
  fold_left addAspectScore l (h, t, n)
  = (addedInOrder h
       (map weight
          (filter (fun a => existsb (AspectId_beq (aspectType a)) [trine; sextile]) l)),
     addedInOrder t
       (map weight
          (filter (fun a => existsb (AspectId_beq (aspectType a))
                              [opposition; square; quincunx; semisquare; sesquiquadrate])
                  l)),
     addedInOrder n
       (map weight
          (filter (fun a => existsb (AspectId_beq (aspectType a))
                              [conjunction; semisextile; quintile; biquintile])
                  l))).
Proof.
  revert h t n. induction l as [| a l IH]; intros h t n; [reflexivity |].
  cbn [fold_left]. rewrite addAspectScore_step, IH. cbn [filter].
  destruct (existsb (AspectId_beq (aspectType a)) [trine; sextile]);
    destruct (existsb (AspectId_beq (aspectType a))
                [opposition; square; quincunx; semisquare; sesquiquadrate]);
    destruct (existsb (AspectId_beq (aspectType a))
                [conjunction; semisextile; quintile; biquintile]);
    reflexivity.
Qed.

(** X24: the score of a list of aspects adds their weights, each sum from
    0 and in the order of the list, in three buckets by aspect type: trine
    and sextile count as harmonious; opposition, square, quincunx,
    semisquare and sesquiquadrate as tense; conjunction, semisextile and
    also the two creative aspects, quintile and biquintile, as neutral.
    Every aspect type belongs to exactly one bucket, and the total is
    harmonious minus half of tense plus 0.3 of neutral. *)
Theorem calculateAspectScore_buckets (aspects : list AspectData) :
  let s := calculateAspectScore aspects in
  score_harmonious s = weightOfTypes [trine; sextile] aspects /\
  score_tense s
  = weightOfTypes [opposition; square; quincunx; semisquare; sesquiquadrate] aspects /\
  score_neutral s
  = weightOfTypes [conjunction; semisextile; quintile; biquintile] aspects /\
  score_total s = score_harmonious s - score_tense s * 0.5 + score_neutral s * 0.3 /\
  forall id : AspectId,
    (Nat.b2n (existsb (AspectId_beq id) [trine; sextile])
     + Nat.b2n (existsb (AspectId_beq id)
                  [opposition; square; quincunx; semisquare; sesquiquadrate])
     + Nat.b2n (existsb (AspectId_beq id)
                  [conjunction; semisextile; quintile; biquintile]) = 1)%nat.
Proof.
  cbv zeta. unfold calculateAspectScore. rewrite fold_addAspectScore.
  cbn [score_harmonious score_tense score_neutral score_total].
  repeat split. intros id. destruct id; reflexivity.
Qed.

(** ** The Saturn return *)

Lemma saturn_return_listed (age weight : R) :
  In "saturn_return"%string (map factor_id (calculateOuterPlanetFactor age weight)) <->
  ltb (js_rem age 29.5) 1 || gtb (js_rem age 29.5) 28.5 = true.
Proof.
  unfold calculateOuterPlanetFactor. cbv zeta.
  destruct (ltb (js_rem age 29.5) 1 || gtb (js_rem age 29.5) 28.5).
  - split; [reflexivity |]. intros _. rewrite map_app. apply in_or_app. left.
    left. reflexivity.
  - split; [| discriminate]. intros H. exfalso.
    rewrite !map_app in H. apply in_app_or in H. destruct H as [H | H].
    + destruct (ltb (Math_abs (js_rem age 29.5 - 7)) 1); simpl in H;
        [destruct H as [H | []]; discriminate H |].
      destruct (ltb (Math_abs (js_rem age 29.5 - 14.75)) 1); simpl in H;
        [destruct H as [H | []]; discriminate H | contradiction].
    + apply in_app_or in H. destruct H as [H | H].
      * destruct (geb age 41 && leb age 43); simpl in H;
          [destruct H as [H | [H | []]]; discriminate H | contradiction].
      * destruct (geb age 49 && leb age 51); simpl in H;
          [destruct H as [H | []]; discriminate H | contradiction].
Qed.

(** X25: the outer-planet generator reports the Saturn return exactly for
    the ages that are less than one year away from a whole multiple of 29.5
    years, the multiple 0 included, so also during the first year of life,
    and for every negative age. *)
Theorem saturn_return_window (age weight : R) :
  In "saturn_return"%string (map factor_id (calculateOuterPlanetFactor age weight)) <->
  age < 0 \/ exists k : Z, (0 <= k)%Z /\ Rabs (age - 29.5 * IZR k) < 1.
Proof.
  rewrite saturn_return_listed. unfold gtb.
  destruct (js_rem_sign age 29.5 ltac:(lra)) as [Hpos Hneg].
  destruct (Rlt_dec age 0) as [Hlt | Hge].
  - specialize (Hneg Hlt). rewrite (ltb_true (js_rem age 29.5) 1) by lra.
    split; [intros _; left; exact Hlt | reflexivity].
  - specialize (Hpos ltac:(lra)).
    assert (Hq : js_rem age 29.5 = age - 29.5 * IZR (Int_part (age / 29.5))).
    { unfold js_rem, Math_trunc.
      destruct (Rle_dec 0 (age / 29.5)) as [_ | Hn]; [reflexivity |].
      exfalso. apply Hn. apply Rmult_le_pos; [lra |].
      left. apply Rinv_0_lt_compat. lra. }
    set (q := Int_part (age / 29.5)) in *.
    set (c := js_rem age 29.5) in *.
    assert (Hq0 : (0 <= q)%Z).
    { assert (-1 < IZR q) by (apply Rmult_lt_reg_l with 29.5; lra).
      assert (-1 < q)%Z by (apply lt_IZR; lra). lia. }
    split.
    + intros H. right. apply orb_true_iff in H. destruct H as [H | H].
      * exists q. split; [exact Hq0 |].
        unfold ltb in H. destruct (Rlt_dec c 1); [| discriminate].
        apply Rabs_def1; lra.
      * exists (q + 1)%Z. split; [lia |].
        unfold ltb in H. destruct (Rlt_dec 28.5 c); [| discriminate].
        rewrite plus_IZR. apply Rabs_def1; lra.
    + intros [Hneg' | (k & Hk & Habs)]; [lra |].
      apply Rabs_def2 in Habs. destruct Habs as [Hu Hl].
      assert (Hd : 29.5 * IZR (k - q) = c - (age - 29.5 * IZR k))
        by (rewrite minus_IZR; lra).
      assert (H1 : (-1 < k - q)%Z) by (apply lt_IZR; simpl; lra).
      assert (H2 : (k - q < 2)%Z) by (apply lt_IZR; simpl; lra).
      assert (Hcases : (k - q = 0 \/ k - q = 1)%Z) by lia.
      apply orb_true_iff. destruct Hcases as [Hz | Hz]; rewrite Hz in Hd; simpl in Hd.
      * left. apply ltb_true. lra.
      * right. apply ltb_true. lra.
Qed.

(** ** The phase of the Moon on a date *)

(** X26: the phase of the Moon is produced without an error for every
    date.  For a date with a time value, its angle is the Moon's longitude
    minus the Sun's at the date's Julian day, normalised, between 0 and
    360; the illumination is [(1 - cos angle) / 2 * 100], between 0 and
    100; the phase is the new moon exactly for angles below 22.5 or from
    337.5 on, and the full moon exactly for angles from 157.5 up to, not
    including, 202.5.  For the Invalid Date the angle and the illumination
    are NaN and the phase is the last of the eight, the waning crescent. *)
Theorem calculateMoonPhase_total (date : DateValue) :
  (forall message, calculateMoonPhase date <> PhaseThrown message) /\
  match date with
  | InvalidDate => calculateMoonPhase date = PhaseOfNaN "残月"
  | ValidDate d =>
      exists p,
        calculateMoonPhase date = PhaseReturned p /\
        mp_angle p
        = normalizeAngle (longitude (calculateMoonPosition (dateToJulianDay d))
                          - longitude (calculateSunPosition (dateToJulianDay d))) /\
        0 <= mp_angle p <= 360 /\
        mp_illumination p = (1 - cos (mp_angle p * PI / 180)) / 2 * 100 /\
        0 <= mp_illumination p <= 100 /\
        (mp_phase p = "新月"%string <-> mp_angle p < 22.5 \/ 337.5 <= mp_angle p) /\
        (mp_phase p = "满月"%string <-> 157.5 <= mp_angle p < 202.5)
  end.
Proof.
  destruct date as [d |]; [| split; [intros m H; discriminate H | reflexivity]].
  unfold calculateMoonPhase. cbv zeta.
  set (jd := dateToJulianDay d).
  change (calculatePlanetPosition "sun" jd) with (Returned (calculateSunPosition jd)).
  change (calculatePlanetPosition "moon" jd) with (Returned (calculateMoonPosition jd)).
  cbv iota beta.
  set (angle := normalizeAngle (longitude (calculateMoonPosition jd)
                                - longitude (calculateSunPosition jd))).
  pose proof (normalizeAngle_range (longitude (calculateMoonPosition jd)
                                    - longitude (calculateSunPosition jd))) as Hr.
  fold angle in Hr.
  pose proof (COS_bound (angle * PI / 180)) as [Hc1 Hc2].
  split; [intros m H; discriminate H |].
  eexists. split; [reflexivity |].
  cbn [mp_angle mp_illumination mp_phase].
  split; [reflexivity |]. split; [lra |]. split; [reflexivity |]. split; [lra |].
  unfold geb, leb, ltb.
  split.
  - destruct (Rlt_dec angle 22.5); [simpl; split; [intros _; lra | reflexivity] |].
    destruct (Rle_dec 337.5 angle); [simpl; split; [intros _; lra | reflexivity] |].
    cbn [orb].
    split; [| intros [H | H]; lra].
    decide_reals; intros H; discriminate H.
  - destruct (Rlt_dec angle 22.5); [simpl; split; [intros H; discriminate H | lra] |].
    destruct (Rle_dec 337.5 angle); [simpl; split; [intros H; discriminate H | lra] |].
    cbn [orb].
    decide_reals; split; intros H; try (discriminate H); try reflexivity; lra.
Qed.

(** ** Significant profection years *)

Lemma mapM_Forall2 {A B : Type} (f : A -> Completion B) (l : list A) :
  (forall x, In x l -> exists y, f x = Normal y) ->
  exists ys, mapM f l = Normal ys /\ Forall2 (fun x y => f x = Normal y) l ys.
Proof.
  induction l as [| x l IH]; intros H.
  - exists []. split; [reflexivity | constructor].
  - destruct (H x (or_introl eq_refl)) as (y & Hy).
    destruct IH as (ys & Hys & HF); [intros x' Hx'; apply H; right; exact Hx' |].
    exists (y :: ys). simpl. rewrite Hy. simpl. rewrite Hys. simpl.
    split; [reflexivity | constructor; assumption].
Qed.

Lemma in_agesFromTo (a b : Z) (x : R) :
  In x (agesFromTo (IZR a) (IZR b)) <-> exists n, (a <= n <= b)%Z /\ x = IZR n.
Proof.
  unfold agesFromTo. destruct (Rle_dec (IZR a) (IZR b)) as [Hle | Hgt].
  - apply le_IZR in Hle. unfold Math_floor.
    rewrite <- minus_IZR, Int_part_IZR, in_map_iff. split.
    + intros (i & <- & Hi). apply in_seq in Hi. exists (a + Z.of_nat i)%Z.
      split; [lia | rewrite plus_IZR; reflexivity].
    + intros (n & Hn & ->). exists (Z.to_nat (n - a)). split.
      * rewrite <- plus_IZR. f_equal. lia.
      * apply in_seq. lia.
  - split; [contradiction |]. intros (n & Hn & _). exfalso. apply Hgt.
    apply IZR_le. lia.
Qed.

Lemma angular_every_third (n : Z) :
  existsb (Z.eqb (n mod 12 + 1)) [1; 4; 7; 10]%Z = true <-> (n mod 3 = 0)%Z.
Proof.
  cbn [existsb]. rewrite !orb_true_iff, !Z.eqb_eq.
  split; intros H; Z.div_mod_to_equations; lia.
Qed.

Section SignificantYears.

Variable getFullYear : Date -> Z.

(** X27: on a chart with at least twelve houses, the significant years
    between two whole ages, the first one not negative and the last one,
    with the birth year added, below 2^53, are found without an error.
    Every reported year belongs to a whole age of the range, with the birth
    year plus that age as its year, and an angular-house year is reported
    exactly for the ages of the range that are multiples of 3. *)
Theorem findSignificantProfectionYears_angular (natalChart : NatalChart) (a b : Z) :
  (12 <= List.length (houses natalChart))%nat -> (0 <= a)%Z ->
  (Z.abs (getFullYear (bd_date (birthData natalChart))) + b < 2 ^ 53)%Z ->
  exists years,
    findSignificantProfectionYears getFullYear natalChart (IZR a) (IZR b) = Normal years /\
    (forall y, In y years ->
       exists n, (a <= n <= b)%Z /\ sy_age y = IZR n /\
                 sy_year y = IZR (getFullYear (bd_date (birthData natalChart)) + n)) /\
    (forall n, (exists y, In y years /\ sy_age y = IZR n /\
                          sy_significance y = "角宫年"%string)
               <-> (a <= n <= b)%Z /\ (n mod 3 = 0)%Z).
Proof.
  intros Hlen Ha _. unfold findSignificantProfectionYears. cbv zeta.
  set (birthYear := getFullYear (bd_date (birthData natalChart))).
  set (entries := fun (age : R) (profection : AnnualProfection) =>
         ((if existsb (Z.eqb (ap_house profection)) [1; 4; 7; 10]%Z
           then [ mkSignificantYear age (IZR birthYear + age) "角宫年"
                    (ap_houseName profection ++ "（" ++ ap_houseTheme profection
                     ++ "）年份，通常带来更显著的外在变化和人生转折点")%string ]
           else [])
          ++ (if option_PlanetId_eqb (ap_lordOfYear profection) (Some sun)
              then [ mkSignificantYear age (IZR birthYear + age) "太阳主宰年"
                       "自我表达和创造力的重要年份，适合追求个人目标" ]
              else [])
          ++ (if option_PlanetId_eqb (ap_lordOfYear profection) (Some saturn)
              then [ mkSignificantYear age (IZR birthYear + age) "土星主宰年"
                       "结构化和责任承担的年份，可能面临限制但也能建立长久成果" ]
              else []))%list).
  set (F := fun age =>
         bind (calculateAnnualProfection getFullYear natalChart age)
              (fun profection => Normal (entries age profection))).
  match goal with |- context [mapM ?f _] => change f with F end.
  assert (HF : forall n, (0 <= n)%Z ->
            exists p, F (IZR n) = Normal (entries (IZR n) p) /\
                      ap_house p = (n mod 12 + 1)%Z).
  { intros n Hn.
    destruct (calculateAnnualProfection_whole getFullYear natalChart n Hlen Hn)
      as (p & hc & s & h & H1 & _ & _ & _ & H5 & _).
    exists p. unfold F. rewrite H1. split; [reflexivity | exact H5]. }
  assert (Hentries : forall age p y, In y (entries age p) ->
            sy_age y = age /\ sy_year y = IZR birthYear + age /\
            (sy_significance y = "角宫年"%string ->
             existsb (Z.eqb (ap_house p)) [1; 4; 7; 10]%Z = true)).
  { intros age p y Hy. unfold entries in Hy.
    apply in_app_or in Hy. destruct Hy as [Hy | Hy].
    - destruct (existsb (Z.eqb (ap_house p)) [1; 4; 7; 10]%Z); [| contradiction].
      destruct Hy as [<- | []]. auto.
    - apply in_app_or in Hy. destruct Hy as [Hy | Hy].
      + destruct (option_PlanetId_eqb (ap_lordOfYear p) (Some sun)); [| contradiction].
        destruct Hy as [<- | []]. repeat split. intros H. discriminate H.
      + destruct (option_PlanetId_eqb (ap_lordOfYear p) (Some saturn)); [| contradiction].
        destruct Hy as [<- | []]. repeat split. intros H. discriminate H. }
  destruct (mapM_Forall2 F (agesFromTo (IZR a) (IZR b))) as (perAge & -> & H2).
  { intros x Hx. apply in_agesFromTo in Hx. destruct Hx as (n & Hn & ->).
    destruct (HF n ltac:(lia)) as (p & Hp & _). eauto. }
  eexists. split; [reflexivity |]. split.
  - intros y Hy. apply in_concat in Hy. destruct Hy as (es & Hes & Hy).
    destruct (Forall2_in_r _ _ _ _ H2 Hes) as (x & Hx & HFx).
    apply in_agesFromTo in Hx. destruct Hx as (n & Hn & ->).
    destruct (HF n ltac:(lia)) as (p & Hp & _). rewrite Hp in HFx.
    injection HFx as <-. destruct (Hentries _ _ _ Hy) as (Hage & Hyear & _).
    exists n. rewrite Hage, Hyear, plus_IZR. auto.
  - intros n. split.
    + intros (y & Hy & Hage & Hsig).
      apply in_concat in Hy. destruct Hy as (es & Hes & Hy).
      destruct (Forall2_in_r _ _ _ _ H2 Hes) as (x & Hx & HFx).
      apply in_agesFromTo in Hx. destruct Hx as (n' & Hn' & ->).
      destruct (HF n' ltac:(lia)) as (p & Hp & Hhouse). rewrite Hp in HFx.
      injection HFx as <-. destruct (Hentries _ _ _ Hy) as (Hage' & _ & Hang).
      rewrite Hage in Hage'. apply eq_IZR in Hage'. subst n'.
      split; [exact Hn' |]. apply angular_every_third.
      rewrite <- Hhouse. apply Hang. exact Hsig.
    + intros [Hn Hmod].
      assert (Hx : In (IZR n) (agesFromTo (IZR a) (IZR b)))
        by (apply in_agesFromTo; eauto).
      destruct (Forall2_in_l _ _ _ _ H2 Hx) as (es & Hes & HFx).
      destruct (HF n ltac:(lia)) as (p & Hp & Hhouse). rewrite Hp in HFx.
      injection HFx as <-.
      apply angular_every_third in Hmod. rewrite <- Hhouse in Hmod.
      eexists. split.
      * apply in_concat. eexists. split; [exact Hes |].
        unfold entries. rewrite Hmod. left. reflexivity.
      * split; reflexivity.
Qed.

End SignificantYears.

Lemma findSignificantProfectionYears_angular_witness :
  (12 <= List.length (houses emptyChart))%nat /\ (0 <= 0)%Z /\
  (Z.abs (getUTCFullYear (bd_date (birthData emptyChart))) + 11 < 2 ^ 53)%Z /\
  exists years,
    findSignificantProfectionYears getUTCFullYear emptyChart (IZR 0) (IZR 11)
    = Normal years /\
    (forall n, (exists y, In y years /\ sy_age y = IZR n /\
                          sy_significance y = "角宫年"%string)
               <-> (0 <= n <= 11)%Z /\ (n mod 3 = 0)%Z).
Proof.
  split; [simpl; lia |]. split; [lia |]. split; [vm_compute; reflexivity |].
  destruct (findSignificantProfectionYears_angular getUTCFullYear emptyChart 0 11)
    as (years & Hy & _ & Hang); [simpl; lia | lia | vm_compute; reflexivity |].
  exists years. split; [exact Hy | exact Hang].
Defined.

(** ** The convenience functions *)

Lemma applyInfluenceFactors_overall (Math_pow : R -> R -> R) (context : FactorContext)
  (config : InfluenceFactorConfig) :
  enabled config = true ->
  let result := applyInfluenceFactors Math_pow context config in
  overall (adjustedScores result)
  = clampOverall (addedInOrder (overall (rawScores context))
                    (adjustmentsTo "overall" (appliedFactors result))).
Proof.
  intros Hen. cbv zeta. unfold applyInfluenceFactors. rewrite Hen.
  cbn [negb appliedFactors adjustedScores clampScores overall].
  destruct (fold_applyFactor (collectFactors Math_pow context config)
              (rawScores context) 0) as (_ & H1 & _).
  rewrite H1. reflexivity.
Qed.

Section ConvenienceProperties.

Variable Math_pow : R -> R -> R.

(** X28: [getAdjustedScore] never reads its [rawScore] argument: the score
    it returns is computed from the raw scores of the context.  With an
    enabled configuration it is the clamp expression of the code applied
    to the context's raw overall score with the adjustments of the factors
    that target the overall score added in order; with a disabled one it
    is the context's raw overall score, unclamped; and with no
    configuration given the default applies, which is enabled.
    [getFactorSummary] returns the summary of the same run.  For the
    value of the score, the lunar phase of the context is taken not to be
    the name of a member every object inherits. *)
Theorem getAdjustedScore_reads_context (rawScore otherScore : R)
  (context : FactorContext) (config : option InfluenceFactorConfig) :
  let result := applyInfluenceFactors Math_pow context (configOrDefault config) in
  getAdjustedScore Math_pow rawScore context config
  = getAdjustedScore Math_pow otherScore context config /\
  (mem_string (cs_lunarPhase (currentState context)) Object_prototype_names = false ->
   getAdjustedScore Math_pow rawScore context config
   = (if enabled (configOrDefault config)
      then clampOverall (addedInOrder (overall (rawScores context))
                           (adjustmentsTo "overall" (appliedFactors result)))
      else overall (rawScores context))) /\
  (config = None -> enabled (configOrDefault config) = true) /\
  getFactorSummary Math_pow context config = summary result.
Proof.
  cbv zeta. split; [reflexivity |]. split; [| split; [| reflexivity]].
  - intros _. unfold getAdjustedScore. cbv zeta.
    destruct (enabled (configOrDefault config)) eqn:Hen.
    + exact (applyInfluenceFactors_overall Math_pow context (configOrDefault config) Hen).
    + unfold applyInfluenceFactors. rewrite Hen. reflexivity.
  - intros ->. reflexivity.
Qed.

End ConvenienceProperties.

(** ** Progressing a chart to its own birth date *)

Lemma calculateNatalChart_placements (bd : BirthData) (chart : NatalChart) :
  calculateNatalChart bd = Normal chart ->
  birthData chart = bd /\
  (12 <= List.length (houses chart))%nat /\
  Forall (fun p =>
            exists pos s,
              calculatePlanetPosition (PlanetId_string (pl_id p))
                                      (dateToJulianDay (bd_date bd)) = Returned pos /\
              pl_longitude p = longitude pos /\
              getZodiacSign (longitude pos) = Some s /\ pl_sign p = sign_id s /\
              pl_house p = getHouse (pl_longitude p) (map hc_longitude (houses chart)))
         (planets chart).
Proof.
  intros Hchart.
  destruct (calculateNatalChart_Normal bd chart Hchart)
    as (placed & hs & ascSign & Hplaced & Hhs & _ & Hbd & _ & Hp & Hh & _).
  apply mapM_Normal in Hplaced.
  set (jd := dateToJulianDay (bd_date bd)) in *.
  set (asc := calculateAscendant jd (bd_latitude bd) (bd_longitude bd)) in *.
  destruct (houses_of_cusps (equalHouseCusps asc) hs Hhs) as [Hcusps _].
  split; [exact Hbd |]. rewrite Hp, Hh. split.
  { rewrite <- (length_map hc_longitude), Hcusps. simpl. lia. }
  rewrite Hcusps. apply Forall_forall. intros p Hin. apply in_map_iff in Hin.
  destruct Hin as (y & <- & Hy).
  destruct (Forall2_in_r _ _ _ y Hplaced Hy) as (planet & _ & Hpl).
  apply placePlanet_Normal in Hpl.
  destruct Hpl as (position & sign & Hpos & Hs & ->).
  exists position, sign. cbn [fst pl_id pl_longitude pl_sign pl_house]. auto.
Qed.

Lemma normalizeAngle_0 : normalizeAngle 0 = 0.
Proof.
  apply normalizeAngle_fixed. lra.
Qed.

Lemma newDate_getTime (d : Date) (x : R) : x = 0 -> newDate (IZR (getTime d) + x) = d.
Proof.
  intros ->. unfold newDate. rewrite Rplus_0_r, Math_trunc_IZR. destruct d. reflexivity.
Qed.

(** X29: progressing a chart that [calculateNatalChart] returned to the
    birth date itself returns a progressed chart in which nothing has
    moved: no time has passed, the progressed date is the birth date, every
    body stands at its natal longitude with a movement of 0 and neither a
    sign nor a house change, and the progressed ascendant and midheaven
    are the natal ones, normalised once more. *)
Theorem progressed_to_birth_date (bd : BirthData) (chart : NatalChart) :
  calculateNatalChart bd = Normal chart ->
  exists progressed,
    calculateProgressedChart chart (bd_date bd) = Normal progressed /\
    yearsFromBirth progressed = 0 /\ daysProgressed progressed = 0 /\
    progressedDate progressed = bd_date bd /\
    map prog_id (pc_planets progressed) = map pl_id (planets chart) /\
    Forall (fun q => progressedLongitude q = natalLongitude q /\ movement q = 0 /\
                     signChanged q = false /\ houseChanged q = false)
           (pc_planets progressed) /\
    progressedAscendant progressed = normalizeAngle (ascendant chart) /\
    progressedMidheaven progressed = normalizeAngle (midheaven chart).
Proof.
  intros Hchart.
  destruct (calculateNatalChart_placements bd chart Hchart) as (Hbd & Hlen & Hplaced).
  unfold calculateProgressedChart. rewrite Hbd.
  assert (Hyears : (IZR (getTime (bd_date bd)) - IZR (getTime (bd_date bd))) / msPerYear
                   = 0) by (unfold Rdiv; ring).
  rewrite Hyears.
  rewrite (newDate_getTime (bd_date bd) (0 * msPerDayR)) by ring.
  set (jd := dateToJulianDay (bd_date bd)) in *.
  destruct (mapM_map (progressPlanet chart jd) (fun y => prog_id (fst y)) pl_id
              (fun y => progressedLongitude (fst y) = natalLongitude (fst y) /\
                        movement (fst y) = 0 /\ signChanged (fst y) = false /\
                        houseChanged (fst y) = false)
              (planets chart)) as (ys & -> & Hids & Hys).
  { intros p Hp. rewrite Forall_forall in Hplaced.
    destruct (Hplaced p Hp) as (pos & s & Hpos & Hlon & Hs & Hsign & Hhouse).
    unfold progressPlanet. rewrite Hpos.
    rewrite (getHouseFromLongitude_same (longitude pos) chart Hlen).
    cbn [bind]. rewrite Hs.
    eexists. split; [reflexivity |]. split; [reflexivity |].
    cbn [fst progressedLongitude natalLongitude movement signChanged houseChanged].
    rewrite <- Hlon, <- Hhouse, Hsign, Z.eqb_refl, ZodiacId_beq_refl.
    replace (pl_longitude p - pl_longitude p) with 0 by ring.
    rewrite normalizeAngle_0. auto. }
  eexists. split; [reflexivity |].
  cbn [bind yearsFromBirth daysProgressed progressedDate pc_planets progressedAscendant
       progressedMidheaven].
  split; [reflexivity |]. split; [reflexivity |]. split; [reflexivity |].
  split; [rewrite map_map; exact Hids |].
  assert (Hall : Forall (fun q => progressedLongitude q = natalLongitude q /\
                                  movement q = 0 /\ signChanged q = false /\
                                  houseChanged q = false) (map fst ys)).
  { apply Forall_forall. intros q Hq. apply in_map_iff in Hq.
    destruct Hq as (y & <- & Hy). rewrite Forall_forall in Hys. exact (Hys y Hy). }
  split; [exact Hall |].
  assert (Hsun : match find (fun p => PlanetId_beq (prog_id p) sun) (map fst ys) with
                 | Some p => js_or (movement p) 0
                 | None => 0
                 end = 0).
  { destruct (find _ (map fst ys)) as [q |] eqn:Hf; [| reflexivity].
    apply find_some in Hf. destruct Hf as [Hq _].
    rewrite Forall_forall in Hall. destruct (Hall q Hq) as (_ & -> & _).
    unfold js_or. destruct (Req_dec_T 0 0); reflexivity. }
  rewrite Hsun, !Rplus_0_r.
  split; reflexivity.
Qed.

Lemma progressed_to_birth_date_witness :
  exists chart progressed,
    calculateNatalChart (mkBirthData instant_J2000 40 116 "UTC" None) = Normal chart /\
    calculateProgressedChart chart instant_J2000 = Normal progressed /\
    yearsFromBirth progressed = 0 /\
    progressedDate progressed = instant_J2000 /\
    map prog_id (pc_planets progressed) = map pl_id (planets chart) /\
    progressedAscendant progressed = normalizeAngle (ascendant chart).
Proof.
  destruct (chart_of_J2000_returned 40 116) as [chart Hchart].
  destruct (progressed_to_birth_date
              (mkBirthData instant_J2000 40 116 "UTC" None) chart Hchart)
    as (progressed & Hp & Hy & _ & Hd & Hids & _ & Ha & _).
  exists chart, progressed. cbn [bd_date] in Hp, Hd. auto 10.
Defined.
